(** * BTP session handler (Matter over BLE): shallow embedding and properties

    The embedded program is the class [BtpSessionHandler] of
    [src/ble/BtpSessionHandler.ts]: the handshake factory, the inbound path
    [handleIncomingBleData], the outbound path [sendMatterMessage] /
    [processSendQueue], [close] and the two timer callbacks.

    Modelling conventions.
    - JavaScript numbers are [Z]; a [ByteArray] (Uint8Array) is a [list byte].
    - The mutable fields of the object are a record threaded through a small
      monad [M]; a thrown exception keeps the mutations made before it, as in
      JavaScript.
    - The three callbacks and the two timers are observed through a trace of
      [Event]s.  [disconnectBleCallback] and [handleMatterMessagePayload] are
      opaque to the session: they are events that return normally and do not
      call back into the session.  [writeBleCallback] may reject.
    - One entry point runs at a time (the cooperative scheduling the class
      assumes); an [await] is a plain sequencing point.
    - [BtpCodec], [DataReader] and [Time] are imported by the class but are
      not part of the sources at hand.  The codec and the transport are the
      fields of an environment [Env], so the general theorems hold for every
      codec; [BtpCodec] below is a concrete instance used for byte-level
      examples. *)

From Stdlib Require Import ZArith List Bool Lia.
From Stdlib.Strings Require Import Byte.
Import ListNotations.
Open Scope Z_scope.

Set Implicit Arguments.

(** ** Byte arrays *)

Definition ByteArray : Type := list byte.

Definition blength (data : ByteArray) : Z := Z.of_nat (length data).

Definition byte_to_Z (b : byte) : Z := Z.of_N (Byte.to_N b).

Definition Z_to_byte (z : Z) : byte :=
  match Byte.of_N (Z.to_N (z mod 256)) with
  | Some b => b
  | None => x00
  end.

(** ** Errors

    [BtpProtocolError] and [BtpFlowError] are the two subclasses of
    [BtpMatterError]; the kind records which [throw] statement raised the
    error (the source distinguishes them by message only).  [OtherError]
    stands for every exception that is not a [BtpMatterError] (a [RangeError]
    of a reader, a transport failure). *)

Inductive ProtocolErrorKind : Type :=
| UnsupportedVersion      (* "Unsupported BTP version" *)
| NoCommonVersion         (* "No supported BTP version found in ..." *)
| OversizedFrame          (* "Received data ... exceeds fragment size" *)
| UnexpectedControlFrame  (* "must not be a handshake request or have a management opcode" *)
| EmptyFrame              (* "must have a segment payload or an ack number" *)
| SequenceGap             (* "Expected and actual BTP packets sequence number does not match" *)
| InvalidAck              (* "Invalid Ack Number" *)
| UnexpectedBegin         (* "New beginning packet was received without previous message being completed" *)
| MissingBegin            (* "Continuing or ending packet received without beginning packet" *)
| EmptySegment            (* "Continuing or ending packet received without payload" *)
| EndWithoutBegin         (* "beginning packet missing but ending packet received" *)
| LengthMismatch          (* "payload length does not match message length" *)
| AckTimeout              (* "Acknowledgement for the sent sequence number was not received" *)
| CodecError.             (* raised inside BtpCodec *)

Inductive MatterError : Type :=
| BtpProtocolError (kind : ProtocolErrorKind)
| BtpFlowError           (* "BTP packet must not be empty" *)
| OtherError (code : nat).

(** [error instanceof BtpProtocolError] *)
Definition instanceof_BtpProtocolError (error : MatterError) : bool :=
  match error with
  | BtpProtocolError _ => true
  | _ => false
  end.

(** ** Frames, as the codec's types declare them *)

Module BtpHandshakeRequest.
Record t : Type := Build
  { versions : list Z; attMtu : Z; clientWindowSize : Z }.
End BtpHandshakeRequest.

Module BtpHandshakeResponse.
Record t : Type := Build
  { version : Z; attMtu : Z; windowSize : Z }.
End BtpHandshakeResponse.

Module BtpHeader.
Record t : Type := Build
  { isHandshakeRequest : bool;
    hasManagementOpcode : bool;
    hasAckNumber : bool;
    isBeginningSegment : bool;
    isContinuingSegment : bool;
    isEndingSegment : bool }.
End BtpHeader.

Module BtpPayload.
Record t : Type := Build
  { ackNumber : option Z;
    sequenceNumber : Z;
    messageLength : option Z;
    segmentPayload : ByteArray }.
End BtpPayload.

Record BtpPacket : Type :=
  { header : BtpHeader.t; payload : BtpPayload.t }.

(** ** Observable effects *)

Inductive TimerId : Type := AckReceiveTimer | SendAckTimer.

Inductive Event : Type :=
| WriteBle (data : ByteArray)                    (* writeBleCallback(data) *)
| DisconnectBle                                  (* disconnectBleCallback() *)
| HandleMatterMessagePayload (data : ByteArray)  (* handleMatterMessagePayload(data) *)
| TimerStart (timer : TimerId)
| TimerStop (timer : TimerId).

Definition isWriteBle (ev : Event) : bool :=
  match ev with WriteBle _ => true | _ => false end.

Definition isDisconnectBle (ev : Event) : bool :=
  match ev with DisconnectBle => true | _ => false end.

(** The payloads handed to the upper layer, in order. *)
Fixpoint delivered (trace : list Event) : list ByteArray :=
  match trace with
  | [] => []
  | HandleMatterMessagePayload data :: rest => data :: delivered rest
  | _ :: rest => delivered rest
  end.

(** The buffers written to the transport, in order. *)
Fixpoint written (trace : list Event) : list ByteArray :=
  match trace with
  | [] => []
  | WriteBle data :: rest => data :: written rest
  | _ :: rest => written rest
  end.

(** ** The environment of a session *)

Record Env : Type :=
  { decodeBtpHandshakeRequest : ByteArray -> MatterError + BtpHandshakeRequest.t;
    encodeBtpHandshakeResponse : BtpHandshakeResponse.t -> MatterError + ByteArray;
    decodeBtpPacket : ByteArray -> MatterError + BtpPacket;
    encodeBtpPacket : BtpPacket -> MatterError + ByteArray;
    (* [None]: the promise resolves; [Some e]: it rejects with [e] *)
    writeBleCallback : ByteArray -> option MatterError }.

(** ** Cursor over an outgoing message *)

(** Modelled from the spec: the class [DataReader] (util/DataReader.ts) is
    not among the sources.  Section 4.4 of the specification describes it as
    a cursor (position, remaining) over the message bytes from which each
    iteration reads up to a given number of bytes. *)
Record DataReader : Type :=
  { buffer : ByteArray; offset : nat }.

Definition newDataReader (data : ByteArray) : DataReader :=
  {| buffer := data; offset := 0 |}.

Definition getLength (r : DataReader) : Z := blength (buffer r).

Definition getRemainingBytesCount (r : DataReader) : Z :=
  getLength r - Z.of_nat (offset r).

Definition readByteArray (r : DataReader) (len : Z) : ByteArray * DataReader :=
  let bytes := firstn (Z.to_nat len) (skipn (offset r) (buffer r)) in
  (bytes, {| buffer := buffer r; offset := (offset r + length bytes)%nat |}).

(** ** Session state *)

Record Timer : Type := { isRunning : bool }.

Record BtpSessionHandler : Type :=
  { fragmentSize : Z;                                   (* readonly *)
    clientWindowSize : Z;                               (* readonly *)
    currentIncomingSegmentedMsgLength : option Z;
    currentIncomingSegmentedPayload : option ByteArray;
    prevIncomingSequenceNumber : Z;
    prevIncomingAckNumber : Z;
    ackReceiveTimer : Timer;
    sequenceNumber : Z;
    prevAckedSequenceNumber : Z;
    queuedOutgoingMatterMessages : list DataReader;
    sendInProgress : bool;
    sendAckTimer : Timer;
    isActive : bool }.

Definition set_currentIncomingSegmentedMsgLength (v : option Z) (s : BtpSessionHandler) :=
  {| fragmentSize := fragmentSize s; clientWindowSize := clientWindowSize s;
     currentIncomingSegmentedMsgLength := v;
     currentIncomingSegmentedPayload := currentIncomingSegmentedPayload s;
     prevIncomingSequenceNumber := prevIncomingSequenceNumber s;
     prevIncomingAckNumber := prevIncomingAckNumber s;
     ackReceiveTimer := ackReceiveTimer s;
     sequenceNumber := sequenceNumber s;
     prevAckedSequenceNumber := prevAckedSequenceNumber s;
     queuedOutgoingMatterMessages := queuedOutgoingMatterMessages s;
     sendInProgress := sendInProgress s;
     sendAckTimer := sendAckTimer s;
     isActive := isActive s |}.

Definition set_currentIncomingSegmentedPayload (v : option ByteArray) (s : BtpSessionHandler) :=
  {| fragmentSize := fragmentSize s; clientWindowSize := clientWindowSize s;
     currentIncomingSegmentedMsgLength := currentIncomingSegmentedMsgLength s;
     currentIncomingSegmentedPayload := v;
     prevIncomingSequenceNumber := prevIncomingSequenceNumber s;
     prevIncomingAckNumber := prevIncomingAckNumber s;
     ackReceiveTimer := ackReceiveTimer s;
     sequenceNumber := sequenceNumber s;
     prevAckedSequenceNumber := prevAckedSequenceNumber s;
     queuedOutgoingMatterMessages := queuedOutgoingMatterMessages s;
     sendInProgress := sendInProgress s;
     sendAckTimer := sendAckTimer s;
     isActive := isActive s |}.

Definition set_prevIncomingSequenceNumber (v : Z) (s : BtpSessionHandler) :=
  {| fragmentSize := fragmentSize s; clientWindowSize := clientWindowSize s;
     currentIncomingSegmentedMsgLength := currentIncomingSegmentedMsgLength s;
     currentIncomingSegmentedPayload := currentIncomingSegmentedPayload s;
     prevIncomingSequenceNumber := v;
     prevIncomingAckNumber := prevIncomingAckNumber s;
     ackReceiveTimer := ackReceiveTimer s;
     sequenceNumber := sequenceNumber s;
     prevAckedSequenceNumber := prevAckedSequenceNumber s;
     queuedOutgoingMatterMessages := queuedOutgoingMatterMessages s;
     sendInProgress := sendInProgress s;
     sendAckTimer := sendAckTimer s;
     isActive := isActive s |}.

Definition set_prevIncomingAckNumber (v : Z) (s : BtpSessionHandler) :=
  {| fragmentSize := fragmentSize s; clientWindowSize := clientWindowSize s;
     currentIncomingSegmentedMsgLength := currentIncomingSegmentedMsgLength s;
     currentIncomingSegmentedPayload := currentIncomingSegmentedPayload s;
     prevIncomingSequenceNumber := prevIncomingSequenceNumber s;
     prevIncomingAckNumber := v;
     ackReceiveTimer := ackReceiveTimer s;
     sequenceNumber := sequenceNumber s;
     prevAckedSequenceNumber := prevAckedSequenceNumber s;
     queuedOutgoingMatterMessages := queuedOutgoingMatterMessages s;
     sendInProgress := sendInProgress s;
     sendAckTimer := sendAckTimer s;
     isActive := isActive s |}.

Definition set_ackReceiveTimer (v : Timer) (s : BtpSessionHandler) :=
  {| fragmentSize := fragmentSize s; clientWindowSize := clientWindowSize s;
     currentIncomingSegmentedMsgLength := currentIncomingSegmentedMsgLength s;
     currentIncomingSegmentedPayload := currentIncomingSegmentedPayload s;
     prevIncomingSequenceNumber := prevIncomingSequenceNumber s;
     prevIncomingAckNumber := prevIncomingAckNumber s;
     ackReceiveTimer := v;
     sequenceNumber := sequenceNumber s;
     prevAckedSequenceNumber := prevAckedSequenceNumber s;
     queuedOutgoingMatterMessages := queuedOutgoingMatterMessages s;
     sendInProgress := sendInProgress s;
     sendAckTimer := sendAckTimer s;
     isActive := isActive s |}.

Definition set_sequenceNumber (v : Z) (s : BtpSessionHandler) :=
  {| fragmentSize := fragmentSize s; clientWindowSize := clientWindowSize s;
     currentIncomingSegmentedMsgLength := currentIncomingSegmentedMsgLength s;
     currentIncomingSegmentedPayload := currentIncomingSegmentedPayload s;
     prevIncomingSequenceNumber := prevIncomingSequenceNumber s;
     prevIncomingAckNumber := prevIncomingAckNumber s;
     ackReceiveTimer := ackReceiveTimer s;
     sequenceNumber := v;
     prevAckedSequenceNumber := prevAckedSequenceNumber s;
     queuedOutgoingMatterMessages := queuedOutgoingMatterMessages s;
     sendInProgress := sendInProgress s;
     sendAckTimer := sendAckTimer s;
     isActive := isActive s |}.

Definition set_prevAckedSequenceNumber (v : Z) (s : BtpSessionHandler) :=
  {| fragmentSize := fragmentSize s; clientWindowSize := clientWindowSize s;
     currentIncomingSegmentedMsgLength := currentIncomingSegmentedMsgLength s;
     currentIncomingSegmentedPayload := currentIncomingSegmentedPayload s;
     prevIncomingSequenceNumber := prevIncomingSequenceNumber s;
     prevIncomingAckNumber := prevIncomingAckNumber s;
     ackReceiveTimer := ackReceiveTimer s;
     sequenceNumber := sequenceNumber s;
     prevAckedSequenceNumber := v;
     queuedOutgoingMatterMessages := queuedOutgoingMatterMessages s;
     sendInProgress := sendInProgress s;
     sendAckTimer := sendAckTimer s;
     isActive := isActive s |}.

Definition set_queuedOutgoingMatterMessages (v : list DataReader) (s : BtpSessionHandler) :=
  {| fragmentSize := fragmentSize s; clientWindowSize := clientWindowSize s;
     currentIncomingSegmentedMsgLength := currentIncomingSegmentedMsgLength s;
     currentIncomingSegmentedPayload := currentIncomingSegmentedPayload s;
     prevIncomingSequenceNumber := prevIncomingSequenceNumber s;
     prevIncomingAckNumber := prevIncomingAckNumber s;
     ackReceiveTimer := ackReceiveTimer s;
     sequenceNumber := sequenceNumber s;
     prevAckedSequenceNumber := prevAckedSequenceNumber s;
     queuedOutgoingMatterMessages := v;
     sendInProgress := sendInProgress s;
     sendAckTimer := sendAckTimer s;
     isActive := isActive s |}.

Definition set_sendInProgress (v : bool) (s : BtpSessionHandler) :=
  {| fragmentSize := fragmentSize s; clientWindowSize := clientWindowSize s;
     currentIncomingSegmentedMsgLength := currentIncomingSegmentedMsgLength s;
     currentIncomingSegmentedPayload := currentIncomingSegmentedPayload s;
     prevIncomingSequenceNumber := prevIncomingSequenceNumber s;
     prevIncomingAckNumber := prevIncomingAckNumber s;
     ackReceiveTimer := ackReceiveTimer s;
     sequenceNumber := sequenceNumber s;
     prevAckedSequenceNumber := prevAckedSequenceNumber s;
     queuedOutgoingMatterMessages := queuedOutgoingMatterMessages s;
     sendInProgress := v;
     sendAckTimer := sendAckTimer s;
     isActive := isActive s |}.

Definition set_sendAckTimer (v : Timer) (s : BtpSessionHandler) :=
  {| fragmentSize := fragmentSize s; clientWindowSize := clientWindowSize s;
     currentIncomingSegmentedMsgLength := currentIncomingSegmentedMsgLength s;
     currentIncomingSegmentedPayload := currentIncomingSegmentedPayload s;
     prevIncomingSequenceNumber := prevIncomingSequenceNumber s;
     prevIncomingAckNumber := prevIncomingAckNumber s;
     ackReceiveTimer := ackReceiveTimer s;
     sequenceNumber := sequenceNumber s;
     prevAckedSequenceNumber := prevAckedSequenceNumber s;
     queuedOutgoingMatterMessages := queuedOutgoingMatterMessages s;
     sendInProgress := sendInProgress s;
     sendAckTimer := v;
     isActive := isActive s |}.

Definition set_isActive (v : bool) (s : BtpSessionHandler) :=
  {| fragmentSize := fragmentSize s; clientWindowSize := clientWindowSize s;
     currentIncomingSegmentedMsgLength := currentIncomingSegmentedMsgLength s;
     currentIncomingSegmentedPayload := currentIncomingSegmentedPayload s;
     prevIncomingSequenceNumber := prevIncomingSequenceNumber s;
     prevIncomingAckNumber := prevIncomingAckNumber s;
     ackReceiveTimer := ackReceiveTimer s;
     sequenceNumber := sequenceNumber s;
     prevAckedSequenceNumber := prevAckedSequenceNumber s;
     queuedOutgoingMatterMessages := queuedOutgoingMatterMessages s;
     sendInProgress := sendInProgress s;
     sendAckTimer := sendAckTimer s;
     isActive := v |}.

(** ** The session monad

    A method of the class is a function from the state of [this] to a
    completion, the state it leaves and the events it caused.  [Throw] keeps
    the state reached and the events emitted before the exception.
    [Unfinished] is the answer of a loop that was given too little fuel. *)

Inductive Completion (A : Type) : Type :=
| Normal (value : A)
| Throw (error : MatterError)
| Unfinished.

Arguments Normal {A} value.
Arguments Throw {A} error.
Arguments Unfinished {A}.

Definition M (A : Type) : Type :=
  BtpSessionHandler -> Completion A * BtpSessionHandler * list Event.

Definition ret {A : Type} (a : A) : M A :=
  fun s => (Normal a, s, []).

Definition bind {A B : Type} (m : M A) (k : A -> M B) : M B :=
  fun s =>
    match m s with
    | (Normal a, s1, t1) =>
        match k a s1 with
        | (c, s2, t2) => (c, s2, t1 ++ t2)
        end
    | (Throw e, s1, t1) => (Throw e, s1, t1)
    | (Unfinished, s1, t1) => (Unfinished, s1, t1)
    end.

Declare Scope btp_scope.
Delimit Scope btp_scope with btp.
Notation "x <- m ;; k" := (bind m (fun x => k))
  (at level 61, m at next level, right associativity) : btp_scope.
Notation "m ;; k" := (bind m (fun _ => k))
  (at level 61, right associativity) : btp_scope.
Open Scope btp_scope.

Definition throw {A : Type} (e : MatterError) : M A :=
  fun s => (Throw e, s, []).

Definition unfinished {A : Type} : M A :=
  fun s => (Unfinished, s, []).

(** [try { m } catch (error) { handler error }] *)
Definition try_catch {A : Type} (m : M A) (handler : MatterError -> M A) : M A :=
  fun s =>
    match m s with
    | (Throw e, s1, t1) =>
        match handler e s1 with
        | (c, s2, t2) => (c, s2, t1 ++ t2)
        end
    | r => r
    end.

Definition get : M BtpSessionHandler :=
  fun s => (Normal s, s, []).

Definition modify (f : BtpSessionHandler -> BtpSessionHandler) : M unit :=
  fun s => (Normal tt, f s, []).

Definition emit (ev : Event) : M unit :=
  fun s => (Normal tt, s, [ev]).

Definition lift {A : Type} (r : MatterError + A) : M A :=
  match r with
  | inl e => throw e
  | inr a => ret a
  end.

(** ** Timers

    Modelled from the spec: [Time.getTimer] is not among the sources; the
    specification asks for one-shot cancellable timers with [start], [stop]
    and [isRunning]. *)

Definition timer_start (timer : TimerId) : M unit :=
  modify (match timer with
          | AckReceiveTimer => set_ackReceiveTimer {| isRunning := true |}
          | SendAckTimer => set_sendAckTimer {| isRunning := true |}
          end) ;;
  emit (TimerStart timer).

Definition timer_stop (timer : TimerId) : M unit :=
  modify (match timer with
          | AckReceiveTimer => set_ackReceiveTimer {| isRunning := false |}
          | SendAckTimer => set_sendAckTimer {| isRunning := false |}
          end) ;;
  emit (TimerStop timer).

(** ** Constants *)

Definition SUPPORTED_BTP_VERSIONS : list Z := [4].
Definition MINIMUM_ATT_MTU : Z := 23.
Definition MAXIMUM_BTP_MTU : Z := 247.
Definition MAXIMUM_WINDOW_SIZE : Z := 255.

(** ** constructor *)

Definition new_BtpSessionHandler (btpVersion fragmentSize clientWindowSize : Z)
  : Completion BtpSessionHandler * list Event :=
  if negb (btpVersion =? 4) then
    (Throw (BtpProtocolError UnsupportedVersion), [])
  else
    (Normal {| fragmentSize := fragmentSize;
               clientWindowSize := clientWindowSize;
               currentIncomingSegmentedMsgLength := None;
               currentIncomingSegmentedPayload := None;
               prevIncomingSequenceNumber := 255;
               prevIncomingAckNumber := -1;
               ackReceiveTimer := {| isRunning := true |};
               sequenceNumber := 0;
               prevAckedSequenceNumber := -1;
               queuedOutgoingMatterMessages := [];
               sendInProgress := false;
               sendAckTimer := {| isRunning := false |};
               isActive := true |},
     [TimerStart AckReceiveTimer]).

(** ** createFromHandshakeRequest *)

Definition negotiateAttMtu (maxDataSize : option Z) (handshakeMtu : Z) : Z :=
  match maxDataSize with
  | None => MINIMUM_ATT_MTU
  | Some maxDataSize =>
      let maxDataSize := maxDataSize + 3 in
      if maxDataSize >? MINIMUM_ATT_MTU then
        if handshakeMtu <=? MINIMUM_ATT_MTU then
          Z.min maxDataSize MAXIMUM_BTP_MTU
        else
          Z.min (Z.min handshakeMtu maxDataSize) MAXIMUM_BTP_MTU
      else MINIMUM_ATT_MTU
  end.

Definition createFromHandshakeRequest (E : Env) (maxDataSize : option Z)
    (handshakeRequestPayload : ByteArray)
  : Completion BtpSessionHandler * list Event :=
  match decodeBtpHandshakeRequest E handshakeRequestPayload with
  | inl e => (Throw e, [])
  | inr handshakeRequest =>
      let versions := BtpHandshakeRequest.versions handshakeRequest in
      let handshakeMtu := BtpHandshakeRequest.attMtu handshakeRequest in
      let clientWindowSize := BtpHandshakeRequest.clientWindowSize handshakeRequest in
      match find (fun version => existsb (Z.eqb version) versions)
                 SUPPORTED_BTP_VERSIONS with
      | None => (Throw (BtpProtocolError NoCommonVersion), [DisconnectBle])
      | Some version =>
          let attMtu := negotiateAttMtu maxDataSize handshakeMtu in
          let fragmentSize := attMtu - 3 in
          let windowSize := Z.min MAXIMUM_WINDOW_SIZE clientWindowSize in
          match encodeBtpHandshakeResponse E
                  (BtpHandshakeResponse.Build version attMtu windowSize) with
          | inl e => (Throw e, [])
          | inr handshakeResponse =>
              match new_BtpSessionHandler version fragmentSize windowSize with
              | (Normal btpSession, t) =>
                  match writeBleCallback E handshakeResponse with
                  | None => (Normal btpSession, t ++ [WriteBle handshakeResponse])
                  | Some e => (Throw e, t ++ [WriteBle handshakeResponse])
                  end
              | r => r
              end
          end
      end
  end.

(** ** close *)

Definition close : M unit :=
  timer_stop AckReceiveTimer ;;
  timer_stop SendAckTimer ;;
  this <- get ;;
  if isActive this then
    modify (set_isActive false) ;;
    emit DisconnectBle
  else ret tt.

(** ** getNextSequenceNumber *)

Definition getNextSequenceNumber : M Z :=
  modify (fun this => set_sequenceNumber (sequenceNumber this + 1) this) ;;
  this <- get ;;
  (if sequenceNumber this >? 255 then modify (set_sequenceNumber 0) else ret tt) ;;
  this <- get ;;
  ret (sequenceNumber this).

(** ** handleIncomingBleData

    The body of the [try] block is cut into the blocks of the source, in the
    order in which they are written. *)

(** The size check on the raw buffer. *)
Definition checkFragmentSize (data : ByteArray) : M unit :=
  this <- get ;;
  if blength data >? fragmentSize this then
    if blength data >? fragmentSize this + 3 then
      throw (BtpProtocolError OversizedFrame)
    else ret tt (* logger.warn *)
  else ret tt.

(** The checks on the flags and on the sequence number, and the start of the
    send-ack timer. *)
Definition checkSequence (btpPacket : BtpPacket) : M unit :=
  let isHandshakeRequest := BtpHeader.isHandshakeRequest (header btpPacket) in
  let hasManagementOpcode := BtpHeader.hasManagementOpcode (header btpPacket) in
  let hasAckNumber := BtpHeader.hasAckNumber (header btpPacket) in
  let sequenceNumber := BtpPayload.sequenceNumber (payload btpPacket) in
  let segmentPayload := BtpPayload.segmentPayload (payload btpPacket) in
  (if isHandshakeRequest || hasManagementOpcode then
     throw (BtpProtocolError UnexpectedControlFrame)
   else ret tt) ;;
  (if (blength segmentPayload =? 0) && negb hasAckNumber then
     throw (BtpProtocolError EmptyFrame)
   else ret tt) ;;
  this <- get ;;
  (if negb (sequenceNumber =? Z.rem (prevIncomingSequenceNumber this + 1) 256) then
     throw (BtpProtocolError SequenceGap)
   else ret tt) ;;
  modify (set_prevIncomingSequenceNumber sequenceNumber) ;;
  this <- get ;;
  if negb (isRunning (sendAckTimer this)) then timer_start SendAckTimer
  else ret tt.

(** The validation of a received acknowledgement. *)
Definition checkAck (btpPacket : BtpPacket) : M unit :=
  match BtpHeader.hasAckNumber (header btpPacket),
        BtpPayload.ackNumber (payload btpPacket) with
  | true, Some ackNumber =>
      this <- get ;;
      (if (ackNumber <=? prevIncomingAckNumber this)
          || (ackNumber >? sequenceNumber this) then
         throw (BtpProtocolError InvalidAck)
       else ret tt) ;;
      timer_stop AckReceiveTimer ;;
      modify (set_prevIncomingAckNumber ackNumber) ;;
      this <- get ;;
      if ackNumber <? sequenceNumber this then timer_start AckReceiveTimer
      else ret tt
  | _, _ => ret tt
  end.

(** Set or add the payload to the current incoming segmented payload. *)
Definition addSegment (btpPacket : BtpPacket) : M unit :=
  let isBeginningSegment := BtpHeader.isBeginningSegment (header btpPacket) in
  let isContinuingSegment := BtpHeader.isContinuingSegment (header btpPacket) in
  let isEndingSegment := BtpHeader.isEndingSegment (header btpPacket) in
  let messageLength := BtpPayload.messageLength (payload btpPacket) in
  let segmentPayload := BtpPayload.segmentPayload (payload btpPacket) in
  this <- get ;;
  if isBeginningSegment then
    match currentIncomingSegmentedPayload this with
    | Some _ => throw (BtpProtocolError UnexpectedBegin)
    | None =>
        modify (set_currentIncomingSegmentedMsgLength messageLength) ;;
        modify (set_currentIncomingSegmentedPayload (Some segmentPayload))
    end
  else if isContinuingSegment || isEndingSegment then
    match currentIncomingSegmentedPayload this with
    | None => throw (BtpProtocolError MissingBegin)
    | Some current =>
        if blength segmentPayload =? 0 then
          throw (BtpProtocolError EmptySegment)
        else
          modify (set_currentIncomingSegmentedPayload (Some (current ++ segmentPayload)))
    end
  else ret tt.

(** The hand-over of a completed message. *)
Definition completeMessage (btpPacket : BtpPacket) : M unit :=
  if BtpHeader.isEndingSegment (header btpPacket) then
    this <- get ;;
    match currentIncomingSegmentedMsgLength this,
          currentIncomingSegmentedPayload this with
    | Some msgLength, Some payloadToProcess =>
        if negb (blength payloadToProcess =? msgLength) then
          throw (BtpProtocolError LengthMismatch)
        else
          modify (set_currentIncomingSegmentedMsgLength None) ;;
          modify (set_currentIncomingSegmentedPayload None) ;;
          emit (HandleMatterMessagePayload payloadToProcess)
    | _, _ => throw (BtpProtocolError EndWithoutBegin)
    end
  else ret tt.

Definition handleIncomingBleData_try (E : Env) (data : ByteArray) : M unit :=
  checkFragmentSize data ;;
  btpPacket <- lift (decodeBtpPacket E data) ;;
  checkSequence btpPacket ;;
  checkAck btpPacket ;;
  addSegment btpPacket ;;
  completeMessage btpPacket.

(** The [catch] block. *)
Definition handleIncomingBleData_catch (error : MatterError) : M unit :=
  close ;;
  if negb (instanceof_BtpProtocolError error) then throw error (* rethrow *)
  else ret tt.

Definition handleIncomingBleData (E : Env) (data : ByteArray) : M unit :=
  try_catch (handleIncomingBleData_try E data) handleIncomingBleData_catch.

(** ** sendMatterMessage and processSendQueue *)

(** [this.sequenceNumber - this.prevIncomingAckNumber > this.clientWindowSize - 1] *)
Definition windowFull (this : BtpSessionHandler) : bool :=
  sequenceNumber this - prevIncomingAckNumber this >? clientWindowSize this - 1.

Definition writeBle (E : Env) (packet : ByteArray) : M unit :=
  emit (WriteBle packet) ;;
  match writeBleCallback E packet with
  | None => ret tt
  | Some e => throw e
  end.

(** One pass through the body of the [while] loop, for the message at the
    head of the queue; the result tells whether the loop breaks. *)
Definition sendSegment (E : Env) (currentProcessedMessage : DataReader) : M bool :=
  let remainingMessageLength := getRemainingBytesCount currentProcessedMessage in
  this <- get ;;
  let hasAckNumber := prevIncomingSequenceNumber this >? prevAckedSequenceNumber this in
  (if hasAckNumber then
     modify (set_prevAckedSequenceNumber (prevIncomingSequenceNumber this)) ;;
     timer_stop SendAckTimer
   else ret tt) ;;
  let isBeginningSegment := remainingMessageLength =? getLength currentProcessedMessage in
  let btpHeaderLength :=
    2 + (if isBeginningSegment then 2 else 0) + (if hasAckNumber then 1 else 0) in
  let isEndingSegment := remainingMessageLength <=? fragmentSize this - btpHeaderLength in
  let packetHeader :=
    BtpHeader.Build false false hasAckNumber isBeginningSegment
                    (negb isBeginningSegment) isEndingSegment in
  let (segmentPayload, advanced) :=
    readByteArray currentProcessedMessage (fragmentSize this - btpHeaderLength) in
  (* the reader is the object at the head of the queue: the read moves it *)
  modify (fun this =>
            set_queuedOutgoingMatterMessages
              (advanced :: tl (queuedOutgoingMatterMessages this)) this) ;;
  nextSequenceNumber <- getNextSequenceNumber ;;
  let btpPacket :=
    {| header := packetHeader;
       payload :=
         BtpPayload.Build
           (if hasAckNumber then Some (prevIncomingSequenceNumber this) else None)
           nextSequenceNumber
           (if isBeginningSegment then Some remainingMessageLength else None)
           segmentPayload |} in
  packet <- lift (encodeBtpPacket E btpPacket) ;;
  writeBle E packet ;;
  this <- get ;;
  (if negb (isRunning (ackReceiveTimer this)) then timer_start AckReceiveTimer
   else ret tt) ;;
  (if isEndingSegment then
     modify (fun this =>
               set_queuedOutgoingMatterMessages
                 (tl (queuedOutgoingMatterMessages this)) this)
   else ret tt) ;;
  this <- get ;;
  ret (windowFull this).

(** The [while] loop.  The guard is tested first, so an empty queue ends the
    loop whatever the fuel. *)
Fixpoint sendLoop (E : Env) (fuel : nat) : M unit :=
  this <- get ;;
  match queuedOutgoingMatterMessages this with
  | [] => ret tt
  | currentProcessedMessage :: _ =>
      match fuel with
      | O => unfinished
      | S fuel' =>
          break <- sendSegment E currentProcessedMessage ;;
          if break then ret tt else sendLoop E fuel'
      end
  end.

Definition processSendQueue (E : Env) (fuel : nat) : M unit :=
  this <- get ;;
  if sendInProgress this then ret tt
  else if windowFull this then ret tt
  else match queuedOutgoingMatterMessages this with
       | [] => ret tt
       | _ :: _ =>
           modify (set_sendInProgress true) ;;
           sendLoop E fuel ;;
           modify (set_sendInProgress false)
       end.

Definition sendMatterMessage (E : Env) (fuel : nat) (data : ByteArray) : M unit :=
  if blength data =? 0 then throw BtpFlowError
  else
    let dataReader := newDataReader data in
    modify (fun this =>
              set_queuedOutgoingMatterMessages
                (queuedOutgoingMatterMessages this ++ [dataReader]) this) ;;
    processSendQueue E fuel.

(** ** Timer callbacks *)

Definition btpSendAckTimeoutTriggered (E : Env) : M unit :=
  this <- get ;;
  if prevIncomingSequenceNumber this >? prevAckedSequenceNumber this then
    nextSequenceNumber <- getNextSequenceNumber ;;
    let btpPacket :=
      {| header := BtpHeader.Build false false true false false false;
         payload :=
           BtpPayload.Build (Some (prevIncomingSequenceNumber this))
                            nextSequenceNumber None [] |} in
    modify (set_prevAckedSequenceNumber (prevIncomingSequenceNumber this)) ;;
    packet <- lift (encodeBtpPacket E btpPacket) ;;
    writeBle E packet ;;
    this <- get ;;
    if negb (isRunning (ackReceiveTimer this)) then timer_start AckReceiveTimer
    else ret tt
  else ret tt.

Definition btpAckTimeoutTriggered : M unit :=
  this <- get ;;
  if negb (prevIncomingAckNumber this =? sequenceNumber this) then
    close ;;
    throw (BtpProtocolError AckTimeout)
  else ret tt.

(** ** The life of a session

    The calls a session can receive: its three public methods and the expiry
    of its two timers.  A running one-shot timer that expires is no longer
    running when its callback starts; a stopped timer does not expire. *)

Inductive Call : Type :=
| HandleIncomingBleData (data : ByteArray)
| SendMatterMessage (data : ByteArray)
| Close
| SendAckTimerExpires
| AckReceiveTimerExpires.

Definition call (E : Env) (fuel : nat) (c : Call) : M unit :=
  match c with
  | HandleIncomingBleData data => handleIncomingBleData E data
  | SendMatterMessage data => sendMatterMessage E fuel data
  | Close => close
  | SendAckTimerExpires =>
      this <- get ;;
      if isRunning (sendAckTimer this) then
        modify (set_sendAckTimer {| isRunning := false |}) ;;
        btpSendAckTimeoutTriggered E
      else ret tt
  | AckReceiveTimerExpires =>
      this <- get ;;
      if isRunning (ackReceiveTimer this) then
        modify (set_ackReceiveTimer {| isRunning := false |}) ;;
        btpAckTimeoutTriggered
      else ret tt
  end.

(** A sequence of calls; an exception of one call reaches its caller and the
    session object lives on for the next call. *)
Fixpoint calls (E : Env) (fuel : nat) (cs : list Call) (s : BtpSessionHandler)
  : option (BtpSessionHandler * list Event) :=
  match cs with
  | [] => Some (s, [])
  | c :: cs' =>
      match call E fuel c s with
      | (Unfinished, _, _) => None
      | (_, s1, t1) =>
          match calls E fuel cs' s1 with
          | Some (s2, t2) => Some (s2, t1 ++ t2)
          | None => None
          end
      end
  end.

(** ** The frame codec *)

Module BtpCodec.

(** Modelled from the spec: the module [BtpCodec] (codec/BtpCodec.ts) is
    not among the sources; only its tests are.  The layouts are those of
    sections 3, 4.1 and 6 of the specification: the field order is flags,
    acknowledgement number, sequence number, message length, payload; the
    continuing flag is not carried by a bit of its own, the decoder gives
    it the value [!isBeginningSegment].  The flag masks are the ones that
    reproduce the byte sequences of the table of section 6, which are also
    the vectors of the codec tests.  A rule violation is a
    [BtpProtocolError]; a read past the end of the buffer is the reader's
    own exception. *)
Definition HandshakeBit : Z := 0x40.
Definition ManagementMsg : Z := 0x20.
Definition AckMsg : Z := 0x08.
Definition EndSegment : Z := 0x04.
Definition BeginSegment : Z := 0x01.

Definition HANDSHAKE_HEADER : Z := 0x65.
Definition HANDSHAKE_MANAGEMENT_OPCODE : Z := 0x6c.

Definition RangeError : MatterError := OtherError 0.

Definition hasBit (bits mask : Z) : bool := negb (Z.land bits mask =? 0).

Definition bit (b : bool) (mask : Z) : Z := if b then mask else 0.

Definition readUInt8 (data : ByteArray) : MatterError + (Z * ByteArray) :=
  match data with
  | b :: rest => inr (byte_to_Z b, rest)
  | [] => inl RangeError
  end.

Definition readUInt16 (data : ByteArray) : MatterError + (Z * ByteArray) :=
  match data with
  | lo :: hi :: rest => inr (byte_to_Z lo + 256 * byte_to_Z hi, rest)
  | _ => inl RangeError
  end.

Definition nibbles (b : Z) : list Z := [Z.shiftr b 4; Z.land b 0x0F].

(** Modelled from the spec: see [HandshakeBit]. *)
Definition decodeBtpHandshakeRequest (data : ByteArray)
  : MatterError + BtpHandshakeRequest.t :=
  match readUInt8 data with
  | inl e => inl e
  | inr (h, data) =>
  if negb (h =? HANDSHAKE_HEADER) then inl (BtpProtocolError CodecError) else
  match readUInt8 data with
  | inl e => inl e
  | inr (opcode, data) =>
  if negb (opcode =? HANDSHAKE_MANAGEMENT_OPCODE) then inl (BtpProtocolError CodecError) else
  match data with
  | v0 :: v1 :: v2 :: v3 :: data =>
      let ver := flat_map nibbles (map byte_to_Z [v0; v1; v2; v3]) in
      match filter (fun v => negb (v =? 0)) ver with
      | [] => inl (BtpProtocolError CodecError)
      | versions =>
          match readUInt16 data with
          | inl e => inl e
          | inr (attMtu, data) =>
              match readUInt8 data with
              | inl e => inl e
              | inr (clientWindowSize, _) =>
                  inr (BtpHandshakeRequest.Build versions attMtu clientWindowSize)
              end
          end
      end
  | _ => inl RangeError
  end end end.

(** Modelled from the spec: see [HandshakeBit]. *)
Definition encodeBtpHandshakeResponse (r : BtpHandshakeResponse.t)
  : MatterError + ByteArray :=
  inr [ Z_to_byte HANDSHAKE_HEADER;
        Z_to_byte HANDSHAKE_MANAGEMENT_OPCODE;
        Z_to_byte (BtpHandshakeResponse.version r);
        Z_to_byte (BtpHandshakeResponse.attMtu r);
        Z_to_byte (Z.shiftr (BtpHandshakeResponse.attMtu r) 8);
        Z_to_byte (BtpHandshakeResponse.windowSize r) ].

(** Modelled from the spec: see [HandshakeBit]. *)
Definition decodeBtpPacket (data : ByteArray) : MatterError + BtpPacket :=
  match readUInt8 data with
  | inl e => inl e
  | inr (headerBits, data) =>
  let isHandshakeRequest := hasBit headerBits HandshakeBit in
  let hasManagementOpcode := hasBit headerBits ManagementMsg in
  let hasAckNumber := hasBit headerBits AckMsg in
  let isEndingSegment := hasBit headerBits EndSegment in
  let isBeginningSegment := hasBit headerBits BeginSegment in
  if hasManagementOpcode then inl (BtpProtocolError CodecError) else
  match (if hasAckNumber
         then match readUInt8 data with
              | inl e => inl e
              | inr (a, data) => inr (Some a, data)
              end
         else inr (None, data)) with
  | inl e => inl e
  | inr (ackNumber, data) =>
  match readUInt8 data with
  | inl e => inl e
  | inr (sequenceNumber, data) =>
  match (if isBeginningSegment
         then match readUInt16 data with
              | inl e => inl e
              | inr (l, data) => inr (Some l, data)
              end
         else inr (None, data)) with
  | inl e => inl e
  | inr (messageLength, segmentPayload) =>
      inr {| header :=
               BtpHeader.Build isHandshakeRequest hasManagementOpcode hasAckNumber
                               isBeginningSegment (negb isBeginningSegment)
                               isEndingSegment;
             payload :=
               BtpPayload.Build ackNumber sequenceNumber messageLength
                                segmentPayload |}
  end end end end.

(** Modelled from the spec: see [HandshakeBit]. *)
Definition encodeBtpPacket (p : BtpPacket) : MatterError + ByteArray :=
  let h := header p in
  let pl := payload p in
  let headerBits :=
    bit (BtpHeader.isHandshakeRequest h) HandshakeBit
    + bit (BtpHeader.hasManagementOpcode h) ManagementMsg
    + bit (BtpHeader.hasAckNumber h) AckMsg
    + bit (BtpHeader.isEndingSegment h) EndSegment
    + bit (BtpHeader.isBeginningSegment h) BeginSegment in
  match BtpHeader.hasAckNumber h, BtpPayload.ackNumber pl with
  | true, None | false, Some _ => inl (BtpProtocolError CodecError)
  | _, ack =>
  match BtpHeader.isBeginningSegment h, BtpPayload.messageLength pl with
  | true, None | false, Some _ => inl (BtpProtocolError CodecError)
  | _, len =>
      inr ([Z_to_byte headerBits]
           ++ match ack with Some a => [Z_to_byte a] | None => [] end
           ++ [Z_to_byte (BtpPayload.sequenceNumber pl)]
           ++ match len with
              | Some l => [Z_to_byte l; Z_to_byte (Z.shiftr l 8)]
              | None => []
              end
           ++ BtpPayload.segmentPayload pl)
  end end.

End BtpCodec.

(** The environment made of the codec above and of a transport. *)
Definition codecEnv (write : ByteArray -> option MatterError) : Env :=
  {| decodeBtpHandshakeRequest := BtpCodec.decodeBtpHandshakeRequest;
     encodeBtpHandshakeResponse := BtpCodec.encodeBtpHandshakeResponse;
     decodeBtpPacket := BtpCodec.decodeBtpPacket;
     encodeBtpPacket := BtpCodec.encodeBtpPacket;
     writeBleCallback := write |}.

(** A transport on which every write succeeds. *)
Definition testEnv : Env := codecEnv (fun _ => None).


(** ** Vocabulary of the properties *)

Definition Rel : Type := BtpSessionHandler -> BtpSessionHandler -> list Event -> Prop.

Definition stateOf {A : Type} (r : Completion A * BtpSessionHandler * list Event)
  : BtpSessionHandler := snd (fst r).

Definition traceOf {A : Type} (r : Completion A * BtpSessionHandler * list Event)
  : list Event := snd r.

Definition completionOf {A : Type} (r : Completion A * BtpSessionHandler * list Event)
  : Completion A := fst (fst r).

(** A method respects a relation between the state before, the state after
    and the events in between. *)
Definition respects {A : Type} (Q : Rel) (m : M A) : Prop :=
  forall s, Q s (stateOf (m s)) (traceOf (m s)).

(** A relation that holds for no step at all and is closed under sequencing
    is respected by a method as soon as it is respected by the assignments
    and the effects the method is made of. *)
Class Compositional (Q : Rel) : Prop :=
  { Q_nil : forall s, Q s s [];
    Q_app : forall s1 s2 s3 t1 t2,
        Q s1 s2 t1 -> Q s2 s3 t2 -> Q s1 s3 (t1 ++ t2) }.

(** The outbound side of the session is left alone. *)
Definition keepsOutbound : Rel :=
  fun s s' t =>
    queuedOutgoingMatterMessages s' = queuedOutgoingMatterMessages s
    /\ sendInProgress s' = sendInProgress s
    /\ sequenceNumber s' = sequenceNumber s
    /\ Forall (fun ev => isWriteBle ev = false) t.

(** The state that [close] leaves. *)
Definition closed (s : BtpSessionHandler) : BtpSessionHandler :=
  set_isActive false
    (set_sendAckTimer {| isRunning := false |}
       (set_ackReceiveTimer {| isRunning := false |} s)).

(** The conditions tested on a decoded frame. *)
Definition isControlFrame (p : BtpPacket) : bool :=
  BtpHeader.isHandshakeRequest (header p) || BtpHeader.hasManagementOpcode (header p).

Definition isEmptyFrame (p : BtpPacket) : bool :=
  (blength (BtpPayload.segmentPayload (payload p)) =? 0)
  && negb (BtpHeader.hasAckNumber (header p)).

Definition expectedSequenceNumber (s : BtpSessionHandler) : Z :=
  Z.rem (prevIncomingSequenceNumber s + 1) 256.

(** The state and the events once the sequence check has passed. *)
Definition sequenceAccepted (p : BtpPacket) (s : BtpSessionHandler) : BtpSessionHandler :=
  let s1 := set_prevIncomingSequenceNumber (BtpPayload.sequenceNumber (payload p)) s in
  if isRunning (sendAckTimer s) then s1
  else set_sendAckTimer {| isRunning := true |} s1.

Definition sendAckTimerStarted (s : BtpSessionHandler) : list Event :=
  if isRunning (sendAckTimer s) then [] else [TimerStart SendAckTimer].

(** The acknowledgement carried by a frame, if the handler looks at one. *)
Definition carriedAck (p : BtpPacket) : option Z :=
  if BtpHeader.hasAckNumber (header p) then BtpPayload.ackNumber (payload p) else None.

(** The state and the events once an acknowledgement has been accepted. *)
Definition ackAccepted (ackNumber : Z) (s : BtpSessionHandler) : BtpSessionHandler :=
  set_ackReceiveTimer {| isRunning := ackNumber <? sequenceNumber s |}
    (set_prevIncomingAckNumber ackNumber s).

Definition ackReceiveTimerRestarted (ackNumber : Z) (s : BtpSessionHandler) : list Event :=
  TimerStop AckReceiveTimer
  :: (if ackNumber <? sequenceNumber s then [TimerStart AckReceiveTimer] else []).

(** A component of the state is left as it was. *)
Definition keeps {X : Type} (f : BtpSessionHandler -> X) : Rel :=
  fun s s' _ => f s' = f s.

(** The session that the constructor builds. *)
Definition freshSession (fragmentSize clientWindowSize : Z) : BtpSessionHandler :=
  {| fragmentSize := fragmentSize;
     clientWindowSize := clientWindowSize;
     currentIncomingSegmentedMsgLength := None;
     currentIncomingSegmentedPayload := None;
     prevIncomingSequenceNumber := 255;
     prevIncomingAckNumber := -1;
     ackReceiveTimer := {| isRunning := true |};
     sequenceNumber := 0;
     prevAckedSequenceNumber := -1;
     queuedOutgoingMatterMessages := [];
     sendInProgress := false;
     sendAckTimer := {| isRunning := false |};
     isActive := true |}.

(** What is left of the inbound path once a frame has passed the sequence
    check. *)
Definition afterSequenceCheck (btpPacket : BtpPacket) : M unit :=
  checkAck btpPacket ;;
  addSegment btpPacket ;;
  completeMessage btpPacket.

(** A session right after the handshake of the tests: fragments of 20 bytes,
    a window of 6 frames. *)
Definition session0 : BtpSessionHandler := freshSession 20 6.

(** Every event of the trace satisfies a predicate. *)
Definition emitsOnly (P : Event -> Prop) : Rel :=
  fun _ _ t => Forall P t.

(** The reassembly part of the inbound path. *)
Definition reassemble (btpPacket : BtpPacket) : M unit :=
  addSegment btpPacket ;;
  completeMessage btpPacket.

(** Every error that a method raises satisfies a predicate. *)
Definition raisesOnly {A : Type} (P : MatterError -> Prop) (m : M A) : Prop :=
  forall s e, completionOf (m s) = Throw e -> P e.

(** The account of [disconnectBleCallback]: a call of it is paid for by
    [isActive] going from true to false. *)
Definition disconnects (t : list Event) : nat := length (filter isDisconnectBle t).

Definition disconnectAccount : Rel :=
  fun s s' t =>
    (disconnects t + Nat.b2n (isActive s') = Nat.b2n (isActive s))%nat.

(** A method does not look at the part of the state that [g] rewrites: run
    from a rewritten state it completes in the same way, with the same events,
    and leaves the rewritten state of the original run. *)
Definition ignores {A : Type} (g : BtpSessionHandler -> BtpSessionHandler) (m : M A)
  : Prop :=
  forall s, m (g s) = (completionOf (m s), g (stateOf (m s)), traceOf (m s)).



(** [getNextSequenceNumber], as a function of the counter. *)
Definition nextSequenceNumber (n : Z) : Z := if n + 1 >? 255 then 0 else n + 1.


(** ** Reassembly: the frames of well-formed messages *)

(** The inbound buffers of a session are handled one after the other. *)
Fixpoint receive (E : Env) (datas : list ByteArray) : M unit :=
  match datas with
  | [] => ret tt
  | data :: rest => handleIncomingBleData E data ;; receive E rest
  end.

Definition segmentOf (p : BtpPacket) : ByteArray := BtpPayload.segmentPayload (payload p).

(** The first frame of a message in several frames, announcing [len] bytes. *)
Definition beginFrame (len : Z) (p : BtpPacket) : Prop :=
  BtpHeader.isBeginningSegment (header p) = true
  /\ BtpHeader.isEndingSegment (header p) = false
  /\ BtpPayload.messageLength (payload p) = Some len.

Definition continueFrame (p : BtpPacket) : Prop :=
  BtpHeader.isBeginningSegment (header p) = false
  /\ BtpHeader.isContinuingSegment (header p) = true
  /\ BtpHeader.isEndingSegment (header p) = false
  /\ segmentOf p <> [].

Definition endFrame (p : BtpPacket) : Prop :=
  BtpHeader.isBeginningSegment (header p) = false
  /\ BtpHeader.isEndingSegment (header p) = true
  /\ segmentOf p <> [].

(** A message in one frame. *)
Definition singleFrame (len : Z) (p : BtpPacket) : Prop :=
  BtpHeader.isBeginningSegment (header p) = true
  /\ BtpHeader.isEndingSegment (header p) = true
  /\ BtpPayload.messageLength (payload p) = Some len.

(** The frames of one message and the message they carry: the announced
    length is the length of the whole. *)
Inductive messageFrames : list BtpPacket -> ByteArray -> Prop :=
| message_single p :
    singleFrame (blength (segmentOf p)) p ->
    messageFrames [p] (segmentOf p)
| message_segments b cs e :
    beginFrame (blength (segmentOf b ++ concat (map segmentOf cs) ++ segmentOf e)) b ->
    Forall continueFrame cs ->
    endFrame e ->
    messageFrames (b :: cs ++ [e])
      (segmentOf b ++ concat (map segmentOf cs) ++ segmentOf e).

(** The frames of a sequence of messages. *)
Inductive messagesFrames : list BtpPacket -> list ByteArray -> Prop :=
| messages_nil : messagesFrames [] []
| messages_cons ps m rest ms :
    messageFrames ps m ->
    messagesFrames rest ms ->
    messagesFrames (ps ++ rest) (m :: ms).

(** The frames come with consecutive sequence numbers after [prevSeq], and
    the acknowledgements they carry are each above the previous one and not
    above the session's own counter [seqNo]. *)
Fixpoint inOrder (prevSeq prevAck seqNo : Z) (ps : list BtpPacket) : Prop :=
  match ps with
  | [] => True
  | p :: rest =>
      BtpPayload.sequenceNumber (payload p) = Z.rem (prevSeq + 1) 256
      /\ match carriedAck p with
         | None => inOrder (BtpPayload.sequenceNumber (payload p)) prevAck seqNo rest
         | Some ackNumber =>
             prevAck < ackNumber <= seqNo
             /\ inOrder (BtpPayload.sequenceNumber (payload p)) ackNumber seqNo rest
         end
  end.

(** A buffer within the size limit that decodes to a data frame with a
    payload or an acknowledgement. *)
Definition decodesTo (E : Env) (fragmentSize : Z) (data : ByteArray) (p : BtpPacket)
  : Prop :=
  blength data <= fragmentSize + 3
  /\ decodeBtpPacket E data = inr p
  /\ isControlFrame p = false
  /\ isEmptyFrame p = false.

(** The acknowledgement carried by a frame is acceptable to the session. *)
Definition ackOk (s : BtpSessionHandler) (p : BtpPacket) : Prop :=
  match carriedAck p with
  | None => True
  | Some ackNumber => prevIncomingAckNumber s < ackNumber <= sequenceNumber s
  end.

(** The state and the events once the sequence number and the
    acknowledgement of a frame have been accepted. *)
Definition headerAccepted (p : BtpPacket) (s : BtpSessionHandler) : BtpSessionHandler :=
  match carriedAck p with
  | None => sequenceAccepted p s
  | Some ackNumber => ackAccepted ackNumber (sequenceAccepted p s)
  end.

Definition headerEvents (p : BtpPacket) (s : BtpSessionHandler) : list Event :=
  sendAckTimerStarted s
  ++ match carriedAck p with
     | None => []
     | Some ackNumber => ackReceiveTimerRestarted ackNumber s
     end.

(** The inbound side of the session. *)
Definition inboundIs (s : BtpSessionHandler) (fragSize seqNo prevSeq prevAck : Z)
    (len : option Z) (cur : option ByteArray) : Prop :=
  fragmentSize s = fragSize
  /\ sequenceNumber s = seqNo
  /\ prevIncomingSequenceNumber s = prevSeq
  /\ prevIncomingAckNumber s = prevAck
  /\ currentIncomingSegmentedMsgLength s = len
  /\ currentIncomingSegmentedPayload s = cur.

(** The sequence number and the acknowledgement recorded after a list of
    frames. *)
Fixpoint lastSeq (prevSeq : Z) (ps : list BtpPacket) : Z :=
  match ps with
  | [] => prevSeq
  | p :: rest => lastSeq (BtpPayload.sequenceNumber (payload p)) rest
  end.

Fixpoint lastAck (prevAck : Z) (ps : list BtpPacket) : Z :=
  match ps with
  | [] => prevAck
  | p :: rest =>
      lastAck (match carriedAck p with Some a => a | None => prevAck end) rest
  end.

(** The buffers are all handled without an error. *)
Definition receives (E : Env) (datas : list ByteArray)
    (s s' : BtpSessionHandler) (t : list Event) : Prop :=
  receive E datas s = (Normal tt, s', t).

(** The frames of the examples: a message in one frame, and a message of
    three bytes in three frames. *)
Definition frameSingle : BtpPacket :=
  {| header := BtpHeader.Build false false false true false true;
     payload := BtpPayload.Build None 0 (Some 1) [xaa] |}.

Definition frameBegin : BtpPacket :=
  {| header := BtpHeader.Build false false false true false false;
     payload := BtpPayload.Build None 1 (Some 3) [x01] |}.

Definition frameContinue : BtpPacket :=
  {| header := BtpHeader.Build false false false false true false;
     payload := BtpPayload.Build None 2 None [x02] |}.

Definition frameEnd : BtpPacket :=
  {| header := BtpHeader.Build false false false false true true;
     payload := BtpPayload.Build None 3 None [x03] |}.

(** A session in the middle of a message of three bytes, one byte in. *)
Definition sessionMidMessage : BtpSessionHandler :=
  set_currentIncomingSegmentedPayload (Some [x01])
    (set_currentIncomingSegmentedMsgLength (Some 3)
       (set_prevIncomingSequenceNumber 0 session0)).

(** ** One pass of the send loop, in closed form *)

(** [hasAckNumber]: an acknowledgement is owed to the peer. *)
Definition segmentHasAck (this : BtpSessionHandler) : bool :=
  prevIncomingSequenceNumber this >? prevAckedSequenceNumber this.

(** [isBeginningSegment]: nothing of the message has been read yet. *)
Definition segmentIsBeginning (currentProcessedMessage : DataReader) : bool :=
  getRemainingBytesCount currentProcessedMessage =? getLength currentProcessedMessage.

(** [btpHeaderLength]: 2 (flags, sequence number) + 2 (message length of a
    beginning segment) + 1 (acknowledgement number). *)
Definition btpHeaderLength (this : BtpSessionHandler)
    (currentProcessedMessage : DataReader) : Z :=
  2 + (if segmentIsBeginning currentProcessedMessage then 2 else 0)
  + (if segmentHasAck this then 1 else 0).

(** [isEndingSegment]: what is left of the message fits in this segment. *)
Definition segmentIsEnding (this : BtpSessionHandler)
    (currentProcessedMessage : DataReader) : bool :=
  getRemainingBytesCount currentProcessedMessage
  <=? fragmentSize this - btpHeaderLength this currentProcessedMessage.

(** [btpPacket]: the packet that the pass hands to the encoder. *)
Definition segmentPacket (this : BtpSessionHandler)
    (currentProcessedMessage : DataReader) : BtpPacket :=
  {| header :=
       BtpHeader.Build false false (segmentHasAck this)
         (segmentIsBeginning currentProcessedMessage)
         (negb (segmentIsBeginning currentProcessedMessage))
         (segmentIsEnding this currentProcessedMessage);
     payload :=
       BtpPayload.Build
         (if segmentHasAck this then Some (prevIncomingSequenceNumber this) else None)
         (nextSequenceNumber (sequenceNumber this))
         (if segmentIsBeginning currentProcessedMessage
          then Some (getRemainingBytesCount currentProcessedMessage) else None)
         (fst (readByteArray currentProcessedMessage
                 (fragmentSize this - btpHeaderLength this currentProcessedMessage))) |}.

(** The state when the packet is handed to the encoder: the acknowledgement
    is booked, the cursor has moved, the sequence number is taken. *)
Definition segmentRead (this : BtpSessionHandler)
    (currentProcessedMessage : DataReader) : BtpSessionHandler :=
  set_sequenceNumber (nextSequenceNumber (sequenceNumber this))
    (set_queuedOutgoingMatterMessages
       (snd (readByteArray currentProcessedMessage
               (fragmentSize this - btpHeaderLength this currentProcessedMessage))
        :: tl (queuedOutgoingMatterMessages this))
       (if segmentHasAck this then
          set_sendAckTimer {| isRunning := false |}
            (set_prevAckedSequenceNumber (prevIncomingSequenceNumber this) this)
        else this)).

(** The state after the write: the ack-receive timer runs, and a message
    that is finished has left the queue. *)
Definition segmentSent (this : BtpSessionHandler)
    (currentProcessedMessage : DataReader) : BtpSessionHandler :=
  let s :=
    if isRunning (ackReceiveTimer this) then segmentRead this currentProcessedMessage
    else set_ackReceiveTimer {| isRunning := true |}
           (segmentRead this currentProcessedMessage) in
  if segmentIsEnding this currentProcessedMessage then
    set_queuedOutgoingMatterMessages (tl (queuedOutgoingMatterMessages s)) s
  else s.

Definition segmentEventsBefore (this : BtpSessionHandler) : list Event :=
  if segmentHasAck this then [TimerStop SendAckTimer] else [].

Definition segmentEventsAfter (this : BtpSessionHandler) : list Event :=
  if isRunning (ackReceiveTimer this) then [] else [TimerStart AckReceiveTimer].

(** ** Bytes waiting to be sent *)

(** The bytes of a message that its cursor has not read yet. *)
Definition remainingBytes (r : DataReader) : ByteArray :=
  skipn (offset r) (buffer r).

(** The bytes of all queued messages that are still to be sent, in order. *)
Definition queuedBytes (s : BtpSessionHandler) : ByteArray :=
  concat (map remainingBytes (queuedOutgoingMatterMessages s)).

(** The packets for which the loop of [processSendQueue] calls
    [writeBleCallback], in order. *)
Fixpoint sendLoopPackets (E : Env) (fuel : nat) (s : BtpSessionHandler)
  : list BtpPacket :=
  match queuedOutgoingMatterMessages s with
  | [] => []
  | currentProcessedMessage :: _ =>
      match fuel with
      | O => []
      | S fuel' =>
          match encodeBtpPacket E (segmentPacket s currentProcessedMessage) with
          | inl _ => []
          | inr packet =>
              segmentPacket s currentProcessedMessage
              :: match writeBleCallback E packet with
                 | Some _ => []
                 | None =>
                     if windowFull (segmentSent s currentProcessedMessage) then []
                     else sendLoopPackets E fuel' (segmentSent s currentProcessedMessage)
                 end
          end
      end
  end.

(** The number of passes after which the loop has surely stopped: one for
    each byte still to be sent and one for each queued message. *)
Definition sendMeasure (s : BtpSessionHandler) : nat :=
  (length (queuedBytes s) + length (queuedOutgoingMatterMessages s))%nat.

(** The four counters of the session are sequence numbers, or the initial
    value -1 of the two acknowledgement counters. *)
Definition countersInRange (s : BtpSessionHandler) : Prop :=
  0 <= sequenceNumber s <= 255
  /\ 0 <= prevIncomingSequenceNumber s <= 255
  /\ -1 <= prevIncomingAckNumber s <= 255
  /\ -1 <= prevAckedSequenceNumber s <= 255.

(** The flags of a packet say which fields it has, and it is a data frame
    whose continuing flag is the opposite of its beginning flag. *)
Definition wellFlagged (p : BtpPacket) : Prop :=
  BtpHeader.isHandshakeRequest (header p) = false
  /\ BtpHeader.hasManagementOpcode (header p) = false
  /\ (BtpHeader.hasAckNumber (header p) = true <-> BtpPayload.ackNumber (payload p) <> None)
  /\ (BtpHeader.isBeginningSegment (header p) = true
      <-> BtpPayload.messageLength (payload p) <> None)
  /\ BtpHeader.isContinuingSegment (header p)
     = negb (BtpHeader.isBeginningSegment (header p)).

(** The size of the header that the packet needs, as [processSendQueue]
    counts it. *)
Definition packetHeaderLength (p : BtpPacket) : Z :=
  2 + (if BtpHeader.isBeginningSegment (header p) then 2 else 0)
  + (if BtpHeader.hasAckNumber (header p) then 1 else 0).

(** The messages that a list of calls asks to send, as they are queued. *)
Fixpoint sentMessages (cs : list Call) : list DataReader :=
  match cs with
  | [] => []
  | SendMatterMessage data :: rest =>
      if blength data =? 0 then sentMessages rest
      else newDataReader data :: sentMessages rest
  | _ :: rest => sentMessages rest
  end.

Definition isSendMatterMessage (c : Call) : bool :=
  match c with
  | SendMatterMessage _ => true
  | _ => false
  end.

(** The packets for which [processSendQueue] calls [writeBleCallback]. *)
Definition processSendQueuePackets (E : Env) (fuel : nat) (s : BtpSessionHandler)
  : list BtpPacket :=
  if sendInProgress s then []
  else if windowFull s then []
  else sendLoopPackets E fuel (set_sendInProgress true s).

(** The sequence numbers of the packets follow each other from [n] on, each
    the successor modulo 256 of the one before. *)
Fixpoint consecutiveFrom (n : Z) (ps : list BtpPacket) : Prop :=
  match ps with
  | [] => True
  | p :: rest =>
      BtpPayload.sequenceNumber (payload p) = nextSequenceNumber n
      /\ consecutiveFrom (BtpPayload.sequenceNumber (payload p)) rest
  end.

(** Every queued message still has bytes to send. *)
Definition queueReady (s : BtpSessionHandler) : Prop :=
  Forall (fun r => 0 < getRemainingBytesCount r) (queuedOutgoingMatterMessages s).

(** The size of a packet: its header, as [processSendQueue] counts it, and
    its payload. *)
Definition packetLength (p : BtpPacket) : Z :=
  packetHeaderLength p + blength (segmentOf p).

(** ** The acknowledgement sent when the send-ack timer expires *)

(** The packet of [btpSendAckTimeoutTriggered]: an acknowledgement and a
    sequence number, no segment. *)
Definition ackPacket (this : BtpSessionHandler) : BtpPacket :=
  {| header := BtpHeader.Build false false true false false false;
     payload :=
       BtpPayload.Build (Some (prevIncomingSequenceNumber this))
         (nextSequenceNumber (sequenceNumber this)) None [] |}.

(** The state when the packet is handed to the encoder: the sequence number
    is taken and the acknowledgement is booked. *)
Definition ackBooked (this : BtpSessionHandler) : BtpSessionHandler :=
  set_prevAckedSequenceNumber (prevIncomingSequenceNumber this)
    (set_sequenceNumber (nextSequenceNumber (sequenceNumber this)) this).

(** The state after the write: the ack-receive timer runs. *)
Definition ackSent (this : BtpSessionHandler) : BtpSessionHandler :=
  if isRunning (ackReceiveTimer this) then ackBooked this
  else set_ackReceiveTimer {| isRunning := true |} (ackBooked this).

(** The last acknowledgement that this session can send has been sent. *)
Definition acknowledgedAll (s : BtpSessionHandler) : Prop :=
  prevAckedSequenceNumber s = 255 /\ prevIncomingSequenceNumber s <= 255.

(** * Properties *)

Unset Implicit Arguments.

(** ** Relations that every step of a method respects

    A relation between the state before, the state after and the events in
    between that holds for no step at all and is closed under sequencing is
    respected by a method as soon as it is respected by the assignments and
    the effects the method is made of. *)

Section Respects.

Context {Q : Rel} {HQ : Compositional Q}.

Lemma respects_ret (A : Type) (a : A) : respects Q (ret a).
Proof. intro s. apply Q_nil. Qed.

Lemma respects_throw (A : Type) (e : MatterError) : respects Q (@throw A e).
Proof. intro s. apply Q_nil. Qed.

Lemma respects_unfinished (A : Type) : respects Q (@unfinished A).
Proof. intro s. apply Q_nil. Qed.

Lemma respects_get : respects Q get.
Proof. intro s. apply Q_nil. Qed.

Lemma respects_lift (A : Type) (r : MatterError + A) : respects Q (lift r).
Proof. destruct r; [apply respects_throw | apply respects_ret]. Qed.

Lemma respects_bind (A B : Type) (m : M A) (k : A -> M B) :
  respects Q m -> (forall a, respects Q (k a)) -> respects Q (bind m k).
Proof.
  intros Hm Hk s. specialize (Hm s). unfold bind, stateOf, traceOf in *.
  destruct (m s) as [[c s1] t1]. cbn in Hm.
  destruct c as [a | e | ]; cbn; auto.
  specialize (Hk a s1). unfold stateOf, traceOf in Hk.
  destruct (k a s1) as [[c2 s2] t2]. cbn in *. eapply Q_app; eauto.
Qed.

Lemma respects_try_catch (A : Type) (m : M A) (h : MatterError -> M A) :
  respects Q m -> (forall e, respects Q (h e)) -> respects Q (try_catch m h).
Proof.
  intros Hm Hh s. specialize (Hm s). unfold try_catch, stateOf, traceOf in *.
  destruct (m s) as [[c s1] t1]. cbn in Hm.
  destruct c as [a | e | ]; cbn; auto.
  specialize (Hh e s1). unfold stateOf, traceOf in Hh.
  destruct (h e s1) as [[c2 s2] t2]. cbn in *. eapply Q_app; eauto.
Qed.

Lemma respects_if (A : Type) (b : bool) (m1 m2 : M A) :
  respects Q m1 -> respects Q m2 -> respects Q (if b then m1 else m2).
Proof. destruct b; auto. Qed.

Lemma respects_modify (f : BtpSessionHandler -> BtpSessionHandler) :
  (forall s, Q s (f s) []) -> respects Q (modify f).
Proof. intros H s. apply H. Qed.

Lemma respects_emit (ev : Event) :
  (forall s, Q s s [ev]) -> respects Q (emit ev).
Proof. intros H s. apply H. Qed.

End Respects.

(** Breaks a method down to its assignments and effects. *)
Ltac respects_step :=
  lazymatch goal with
  | |- respects _ (ret _) => apply respects_ret
  | |- respects _ (throw _) => apply respects_throw
  | |- respects _ unfinished => apply respects_unfinished
  | |- respects _ get => apply respects_get
  | |- respects _ (lift _) => apply respects_lift
  | |- respects _ (bind _ _) => apply respects_bind; [ | intro ]
  | |- respects _ (try_catch _ _) => apply respects_try_catch; [ | intro ]
  | |- respects _ (modify _) => apply respects_modify; intro
  | |- respects _ (emit _) => apply respects_emit; intro
  | |- respects _ (match ?x with _ => _ end) =>
      first [ apply respects_if | destruct x ]
  | |- respects _ (let _ := _ in _) => cbv zeta
  end.

Ltac respects_steps := repeat respects_step.

(** ** The errors a method can raise *)

Section RaisesOnly.

Context {P : MatterError -> Prop}.

Lemma raisesOnly_ret (A : Type) (a : A) : raisesOnly P (ret a).
Proof. intros s e H. discriminate. Qed.

Lemma raisesOnly_get : raisesOnly P get.
Proof. intros s e H. discriminate. Qed.

Lemma raisesOnly_modify f : raisesOnly P (modify f).
Proof. intros s e H. discriminate. Qed.

Lemma raisesOnly_emit ev : raisesOnly P (emit ev).
Proof. intros s e H. discriminate. Qed.

Lemma raisesOnly_unfinished (A : Type) : raisesOnly P (@unfinished A).
Proof. intros s e H. discriminate. Qed.

Lemma raisesOnly_throw (A : Type) (e : MatterError) : P e -> raisesOnly P (@throw A e).
Proof. intros He s e' H. injection H as <-. exact He. Qed.

Lemma raisesOnly_bind (A B : Type) (m : M A) (k : A -> M B) :
  raisesOnly P m -> (forall a, raisesOnly P (k a)) -> raisesOnly P (bind m k).
Proof.
  intros Hm Hk s e. specialize (Hm s). unfold bind, completionOf in *.
  destruct (m s) as [[[a | e1 | ] s1] t1]; cbn in *.
  - specialize (Hk a s1 e). unfold completionOf in Hk.
    destruct (k a s1) as [[c2 s2] t2]. exact Hk.
  - intro H. apply Hm. injection H as <-. reflexivity.
  - discriminate.
Qed.

Lemma raisesOnly_if (A : Type) (b : bool) (m1 m2 : M A) :
  raisesOnly P m1 -> raisesOnly P m2 -> raisesOnly P (if b then m1 else m2).
Proof. destruct b; auto. Qed.

End RaisesOnly.

Ltac raisesOnly_step :=
  lazymatch goal with
  | |- raisesOnly _ (ret _) => apply raisesOnly_ret
  | |- raisesOnly _ (throw _) => apply raisesOnly_throw
  | |- raisesOnly _ unfinished => apply raisesOnly_unfinished
  | |- raisesOnly _ get => apply raisesOnly_get
  | |- raisesOnly _ (bind _ _) => apply raisesOnly_bind; [ | intro ]
  | |- raisesOnly _ (modify _) => apply raisesOnly_modify
  | |- raisesOnly _ (emit _) => apply raisesOnly_emit
  | |- raisesOnly _ (match ?x with _ => _ end) =>
      first [ apply raisesOnly_if | destruct x ]
  | |- raisesOnly _ (let _ := _ in _) => cbv zeta
  end.

Ltac raisesOnly_steps := repeat raisesOnly_step.
(** The codec on the vectors of the codec tests and of section 6. *)
Example decode_handshake_request :
  BtpCodec.decodeBtpHandshakeRequest [x65; x6c; x04; x00; x00; x00; xb9; x00; x06]
  = inr (BtpHandshakeRequest.Build [4] 185 6).
Proof. reflexivity. Qed.

Example decode_handshake_request_versions :
  BtpCodec.decodeBtpHandshakeRequest [x65; x6c; x04; x56; x00; x00; xb9; x00; x06]
  = inr (BtpHandshakeRequest.Build [4; 5; 6] 185 6).
Proof. reflexivity. Qed.

Example encode_handshake_response :
  BtpCodec.encodeBtpHandshakeResponse (BtpHandshakeResponse.Build 4 256 6)
  = inr [x65; x6c; x04; x00; x01; x06].
Proof. reflexivity. Qed.

Example encode_packets :
  BtpCodec.encodeBtpPacket
    {| header := BtpHeader.Build false false false false true true;
       payload := BtpPayload.Build None 0 None [x04; x00] |}
  = inr [x04; x00; x04; x00]
  /\ BtpCodec.encodeBtpPacket
    {| header := BtpHeader.Build false false false true false true;
       payload := BtpPayload.Build None 0 (Some 0x44) [x04] |}
  = inr [x05; x00; x44; x00; x04]
  /\ BtpCodec.encodeBtpPacket
    {| header := BtpHeader.Build false false true false true true;
       payload := BtpPayload.Build (Some 0) 0 None [x04] |}
  = inr [x0c; x00; x00; x04].
Proof. repeat split. Qed.

Example decode_packet :
  BtpCodec.decodeBtpPacket [x0d; x00; x00; x44; x00; x04; x00]
  = inr {| header := BtpHeader.Build false false true true false true;
           payload := BtpPayload.Build (Some 0) 0 (Some 0x44) [x04; x00] |}.
Proof. reflexivity. Qed.

(** ** Running a method step by step *)

Lemma bind_Normal (A B : Type) (m : M A) (k : A -> M B) s a s1 t1 :
  m s = (Normal a, s1, t1) ->
  bind m k s = (completionOf (k a s1), stateOf (k a s1), t1 ++ traceOf (k a s1)).
Proof.
  intro H. unfold bind, completionOf, stateOf, traceOf. rewrite H.
  destruct (k a s1) as [[c s2] t2]. reflexivity.
Qed.

Arguments bind_Normal {A B m} k {s a s1 t1} _.

Lemma bind_Throw (A B : Type) (m : M A) (k : A -> M B) s e s1 t1 :
  m s = (Throw e, s1, t1) -> bind m k s = (Throw e, s1, t1).
Proof. intro H. unfold bind. rewrite H. reflexivity. Qed.

Arguments bind_Throw {A B m} k {s e s1 t1} _.

Lemma try_catch_Normal (A : Type) (m : M A) h s a s1 t1 :
  m s = (Normal a, s1, t1) -> try_catch m h s = (Normal a, s1, t1).
Proof. intro H. unfold try_catch. rewrite H. reflexivity. Qed.

Arguments try_catch_Normal {A m} h {s a s1 t1} _.

Lemma try_catch_Throw (A : Type) (m : M A) h s e s1 t1 :
  m s = (Throw e, s1, t1) ->
  try_catch m h s = (completionOf (h e s1), stateOf (h e s1), t1 ++ traceOf (h e s1)).
Proof.
  intro H. unfold try_catch, completionOf, stateOf, traceOf. rewrite H.
  destruct (h e s1) as [[c s2] t2]. reflexivity.
Qed.

Arguments try_catch_Throw {A m} h {s e s1 t1} _.

Lemma result_eta (A : Type) (r : Completion A * BtpSessionHandler * list Event) :
  r = (completionOf r, stateOf r, traceOf r).
Proof. destruct r as [[c s] t]. reflexivity. Qed.

Arguments result_eta {A} r.

(** *** close *)


Lemma close_active s :
  isActive s = true ->
  close s = (Normal tt, closed s,
             [TimerStop AckReceiveTimer; TimerStop SendAckTimer; DisconnectBle]).
Proof. intro H. unfold close, closed, timer_stop, bind, modify, emit, get, ret. cbn. rewrite H. reflexivity. Qed.

Lemma close_inactive s :
  isActive s = false ->
  close s = (Normal tt,
             set_sendAckTimer {| isRunning := false |}
               (set_ackReceiveTimer {| isRunning := false |} s),
             [TimerStop AckReceiveTimer; TimerStop SendAckTimer]).
Proof. intro H. unfold close, timer_stop, bind, modify, emit, get, ret. cbn. rewrite H. reflexivity. Qed.

(** *** The blocks of the inbound path *)

Lemma checkFragmentSize_ok data s :
  blength data <= fragmentSize s + 3 ->
  checkFragmentSize data s = (Normal tt, s, []).
Proof.
  intro H. unfold checkFragmentSize, bind, get, ret, throw. cbn.
  destruct (blength data >? fragmentSize s); [ | reflexivity].
  destruct (Z.gtb_spec (blength data) (fragmentSize s + 3)); [lia | reflexivity].
Qed.

Lemma checkFragmentSize_oversized data s :
  blength data > fragmentSize s + 3 ->
  checkFragmentSize data s = (Throw (BtpProtocolError OversizedFrame), s, []).
Proof.
  intro H. unfold checkFragmentSize, bind, get, ret, throw. cbn.
  destruct (Z.gtb_spec (blength data) (fragmentSize s)); [ | lia].
  destruct (Z.gtb_spec (blength data) (fragmentSize s + 3)); [reflexivity | lia].
Qed.






Lemma checkSequence_control p s :
  isControlFrame p = true ->
  checkSequence p s = (Throw (BtpProtocolError UnexpectedControlFrame), s, []).
Proof.
  unfold isControlFrame. intro H.
  unfold checkSequence, bind, get, ret, throw. rewrite H. reflexivity.
Qed.

Lemma checkSequence_empty p s :
  isControlFrame p = false -> isEmptyFrame p = true ->
  checkSequence p s = (Throw (BtpProtocolError EmptyFrame), s, []).
Proof.
  unfold isControlFrame, isEmptyFrame. intros H1 H2.
  unfold checkSequence, bind, get, ret, throw. rewrite H1, H2. reflexivity.
Qed.

Lemma checkSequence_gap p s :
  isControlFrame p = false -> isEmptyFrame p = false ->
  BtpPayload.sequenceNumber (payload p) <> expectedSequenceNumber s ->
  checkSequence p s = (Throw (BtpProtocolError SequenceGap), s, []).
Proof.
  unfold isControlFrame, isEmptyFrame, expectedSequenceNumber. intros H1 H2 H3.
  unfold checkSequence, bind, get, ret, throw. rewrite H1, H2. cbn.
  destruct (Z.eqb_spec (BtpPayload.sequenceNumber (payload p))
              (Z.rem (prevIncomingSequenceNumber s + 1) 256)); [contradiction | reflexivity].
Qed.

Lemma checkSequence_ok p s :
  isControlFrame p = false -> isEmptyFrame p = false ->
  BtpPayload.sequenceNumber (payload p) = expectedSequenceNumber s ->
  checkSequence p s = (Normal tt, sequenceAccepted p s, sendAckTimerStarted s).
Proof.
  unfold isControlFrame, isEmptyFrame, expectedSequenceNumber. intros H1 H2 H3.
  unfold checkSequence, sequenceAccepted, sendAckTimerStarted, timer_start,
    bind, get, ret, throw, modify, emit.
  rewrite H1, H2. cbn.
  destruct (Z.eqb_spec (BtpPayload.sequenceNumber (payload p))
              (Z.rem (prevIncomingSequenceNumber s + 1) 256)); [ | contradiction].
  cbn. destruct (isRunning (sendAckTimer s)); reflexivity.
Qed.

Lemma checkAck_none p s :
  carriedAck p = None -> checkAck p s = (Normal tt, s, []).
Proof.
  unfold carriedAck, checkAck. intro H.
  destruct (BtpHeader.hasAckNumber (header p)); [ | reflexivity].
  rewrite H. reflexivity.
Qed.

Lemma checkAck_invalid p s ackNumber :
  carriedAck p = Some ackNumber ->
  ~ (prevIncomingAckNumber s < ackNumber <= sequenceNumber s) ->
  checkAck p s = (Throw (BtpProtocolError InvalidAck), s, []).
Proof.
  unfold carriedAck, checkAck. intros H Hbad.
  destruct (BtpHeader.hasAckNumber (header p)); [ | discriminate].
  rewrite H. unfold bind, get, ret, throw. cbn.
  destruct (Z.leb_spec ackNumber (prevIncomingAckNumber s)); [reflexivity | ].
  destruct (Z.gtb_spec ackNumber (sequenceNumber s)); [reflexivity | lia].
Qed.

Lemma checkAck_valid p s ackNumber :
  carriedAck p = Some ackNumber ->
  prevIncomingAckNumber s < ackNumber <= sequenceNumber s ->
  checkAck p s
  = (Normal tt, ackAccepted ackNumber s, ackReceiveTimerRestarted ackNumber s).
Proof.
  unfold carriedAck, checkAck. intros H Hok.
  destruct (BtpHeader.hasAckNumber (header p)); [ | discriminate].
  rewrite H.
  unfold ackAccepted, ackReceiveTimerRestarted, timer_start, timer_stop,
    bind, get, ret, throw, modify, emit. cbn.
  destruct (Z.leb_spec ackNumber (prevIncomingAckNumber s)); [lia | ].
  destruct (Z.gtb_spec ackNumber (sequenceNumber s)); [lia | ].
  cbn. destruct (ackNumber <? sequenceNumber s); reflexivity.
Qed.

Lemma addSegment_begin p s :
  BtpHeader.isBeginningSegment (header p) = true ->
  currentIncomingSegmentedPayload s = None ->
  addSegment p s
  = (Normal tt,
     set_currentIncomingSegmentedPayload (Some (BtpPayload.segmentPayload (payload p)))
       (set_currentIncomingSegmentedMsgLength (BtpPayload.messageLength (payload p)) s),
     []).
Proof.
  intros Hb Hc. unfold addSegment, bind, get, ret, throw, modify. cbn.
  rewrite Hb, Hc. reflexivity.
Qed.

Lemma addSegment_begin_unexpected p s current :
  BtpHeader.isBeginningSegment (header p) = true ->
  currentIncomingSegmentedPayload s = Some current ->
  addSegment p s = (Throw (BtpProtocolError UnexpectedBegin), s, []).
Proof.
  intros Hb Hc. unfold addSegment, bind, get, ret, throw, modify. cbn.
  rewrite Hb, Hc. reflexivity.
Qed.

Lemma addSegment_next p s current :
  BtpHeader.isBeginningSegment (header p) = false ->
  BtpHeader.isContinuingSegment (header p) || BtpHeader.isEndingSegment (header p) = true ->
  currentIncomingSegmentedPayload s = Some current ->
  BtpPayload.segmentPayload (payload p) <> [] ->
  addSegment p s
  = (Normal tt,
     set_currentIncomingSegmentedPayload
       (Some (current ++ BtpPayload.segmentPayload (payload p))) s,
     []).
Proof.
  intros Hb Hce Hc Hne. unfold addSegment, bind, get, ret, throw, modify. cbn.
  rewrite Hb, Hce, Hc.
  destruct (BtpPayload.segmentPayload (payload p)); [contradiction | reflexivity].
Qed.

Lemma addSegment_next_empty p s current :
  BtpHeader.isBeginningSegment (header p) = false ->
  BtpHeader.isContinuingSegment (header p) || BtpHeader.isEndingSegment (header p) = true ->
  currentIncomingSegmentedPayload s = Some current ->
  BtpPayload.segmentPayload (payload p) = [] ->
  addSegment p s = (Throw (BtpProtocolError EmptySegment), s, []).
Proof.
  intros Hb Hce Hc Hne. unfold addSegment, bind, get, ret, throw, modify. cbn.
  rewrite Hb, Hce, Hc, Hne. reflexivity.
Qed.

Lemma completeMessage_not_ending p s :
  BtpHeader.isEndingSegment (header p) = false ->
  completeMessage p s = (Normal tt, s, []).
Proof. intro H. unfold completeMessage. rewrite H. reflexivity. Qed.

Lemma completeMessage_deliver p s msgLength payloadToProcess :
  BtpHeader.isEndingSegment (header p) = true ->
  currentIncomingSegmentedMsgLength s = Some msgLength ->
  currentIncomingSegmentedPayload s = Some payloadToProcess ->
  blength payloadToProcess = msgLength ->
  completeMessage p s
  = (Normal tt,
     set_currentIncomingSegmentedPayload None
       (set_currentIncomingSegmentedMsgLength None s),
     [HandleMatterMessagePayload payloadToProcess]).
Proof.
  intros He Hl Hc Hlen.
  unfold completeMessage, bind, get, ret, throw, modify, emit. rewrite He. cbn.
  rewrite Hl, Hc. rewrite Hlen, Z.eqb_refl. reflexivity.
Qed.

Lemma completeMessage_mismatch p s msgLength payloadToProcess :
  BtpHeader.isEndingSegment (header p) = true ->
  currentIncomingSegmentedMsgLength s = Some msgLength ->
  currentIncomingSegmentedPayload s = Some payloadToProcess ->
  blength payloadToProcess <> msgLength ->
  completeMessage p s = (Throw (BtpProtocolError LengthMismatch), s, []).
Proof.
  intros He Hl Hc Hlen.
  unfold completeMessage, bind, get, ret, throw, modify, emit. rewrite He. cbn.
  rewrite Hl, Hc.
  destruct (Z.eqb_spec (blength payloadToProcess) msgLength); [contradiction | reflexivity].
Qed.

(** ** The inbound path leaves the outbound path alone *)

#[export] Instance keepsOutbound_compositional : Compositional keepsOutbound.
Proof.
  split.
  - intro s. repeat split; constructor.
  - intros s1 s2 s3 t1 t2 (Hq1 & Hp1 & Hn1 & Hw1) (Hq2 & Hp2 & Hn2 & Hw2).
    repeat split; try congruence. apply Forall_app; auto.
Qed.




(** ** The inbound path, block after block *)

#[export] Instance keeps_compositional (X : Type) (f : BtpSessionHandler -> X) :
  Compositional (keeps f).
Proof.
  split; unfold keeps.
  - reflexivity.
  - intros; congruence.
Qed.

Lemma close_state s : stateOf (close s) = closed s.
Proof.
  destruct (isActive s) eqn:H.
  - rewrite (close_active s H). reflexivity.
  - rewrite (close_inactive s H). unfold closed, stateOf. cbn.
    destruct s; cbn in *; subst; reflexivity.
Qed.

Lemma close_completion s : completionOf (close s) = Normal tt.
Proof.
  destruct (isActive s) eqn:H;
    [rewrite (close_active s H) | rewrite (close_inactive s H)]; reflexivity.
Qed.

Lemma close_trace s :
  traceOf (close s)
  = [TimerStop AckReceiveTimer; TimerStop SendAckTimer]
    ++ (if isActive s then [DisconnectBle] else []).
Proof.
  destruct (isActive s) eqn:H;
    [rewrite (close_active s H) | rewrite (close_inactive s H)]; reflexivity.
Qed.

Lemma handleIncomingBleData_unfold E data :
  handleIncomingBleData E data
  = try_catch (handleIncomingBleData_try E data) handleIncomingBleData_catch.
Proof. reflexivity. Qed.

(** The [catch] block: [close], then a [BtpProtocolError] is dropped and any
    other error is thrown again. *)
Lemma handleIncomingBleData_catch_run error s :
  handleIncomingBleData_catch error s
  = (if instanceof_BtpProtocolError error then Normal tt else Throw error,
     closed s, traceOf (close s)).
Proof.
  unfold handleIncomingBleData_catch.
  rewrite (@bind_Normal _ _ close _ s tt (closed s) (traceOf (close s))).
  - destruct (instanceof_BtpProtocolError error); cbn; rewrite app_nil_r; reflexivity.
  - rewrite (result_eta (close s)), close_state, close_completion. reflexivity.
Qed.

Lemma handleIncomingBleData_try_decoded E data s p :
  blength data <= fragmentSize s + 3 ->
  decodeBtpPacket E data = inr p ->
  handleIncomingBleData_try E data s
  = (checkSequence p ;; afterSequenceCheck p) s.
Proof.
  intros Hsize Hdec. unfold handleIncomingBleData_try.
  rewrite (bind_Normal _ (checkFragmentSize_ok data s Hsize)).
  rewrite Hdec. cbn [lift].
  rewrite (@bind_Normal _ _ (lift (inr p)) _ s p s []) by reflexivity.
  cbn [app]. rewrite <- !result_eta. reflexivity.
Qed.

Arguments handleIncomingBleData_try_decoded {E data s p} _ _.

Lemma handleIncomingBleData_Throw E data s e s1 t1 :
  handleIncomingBleData_try E data s = (Throw e, s1, t1) ->
  handleIncomingBleData E data s
  = (if instanceof_BtpProtocolError e then Normal tt else Throw e,
     closed s1, t1 ++ traceOf (close s1)).
Proof.
  intro H. rewrite handleIncomingBleData_unfold.
  rewrite (try_catch_Throw _ H), handleIncomingBleData_catch_run. reflexivity.
Qed.

Arguments handleIncomingBleData_Throw {E data s e s1 t1} _.

Lemma handleIncomingBleData_Normal E data s s1 t1 :
  handleIncomingBleData_try E data s = (Normal tt, s1, t1) ->
  handleIncomingBleData E data s = (Normal tt, s1, t1).
Proof.
  intro H. rewrite handleIncomingBleData_unfold. apply (try_catch_Normal _ H).
Qed.

Arguments handleIncomingBleData_Normal {E data s s1 t1} _.

(** After [m1] has returned, a [try] block goes on with what follows. *)
Lemma try_catch_bind_Normal (A B : Type) (m1 : M A) (k : A -> M B) h s a s1 t1 :
  m1 s = (Normal a, s1, t1) ->
  try_catch (bind m1 k) h s
  = (completionOf (try_catch (k a) h s1), stateOf (try_catch (k a) h s1),
     t1 ++ traceOf (try_catch (k a) h s1)).
Proof.
  intro H. unfold try_catch, bind, completionOf, stateOf, traceOf. rewrite H.
  destruct (k a s1) as [[[b | e | ] s2] t2]; cbn; try reflexivity.
  destruct (h e s2) as [[c s3] t3]. cbn. rewrite app_assoc. reflexivity.
Qed.

Arguments try_catch_bind_Normal {A B m1} k h {s a s1 t1} _.

Lemma close_respects_keeps (X : Type) (f : BtpSessionHandler -> X) :
  (forall v s, f (set_ackReceiveTimer v s) = f s) ->
  (forall v s, f (set_sendAckTimer v s) = f s) ->
  (forall v s, f (set_isActive v s) = f s) ->
  respects (keeps f) close.
Proof.
  intros H1 H2 H3 s. unfold keeps. rewrite close_state. unfold closed.
  rewrite H3, H2, H1. reflexivity.
Qed.

Lemma catch_respects_keeps (X : Type) (f : BtpSessionHandler -> X) e :
  (forall v s, f (set_ackReceiveTimer v s) = f s) ->
  (forall v s, f (set_sendAckTimer v s) = f s) ->
  (forall v s, f (set_isActive v s) = f s) ->
  respects (keeps f) (handleIncomingBleData_catch e).
Proof.
  intros H1 H2 H3. unfold handleIncomingBleData_catch.
  apply respects_bind; [apply close_respects_keeps; assumption | intros _].
  respects_steps.
Qed.

Ltac keeps_leaf :=
  first [ reflexivity
        | match goal with
          | t : TimerId |- _ => destruct t; reflexivity
          end ].

Lemma afterSequenceCheck_keeps_prevIncomingSequenceNumber p :
  respects (keeps prevIncomingSequenceNumber)
    (try_catch (afterSequenceCheck p) handleIncomingBleData_catch).
Proof.
  apply respects_try_catch.
  - unfold afterSequenceCheck, checkAck, addSegment, completeMessage,
      timer_start, timer_stop.
    respects_steps; unfold keeps; keeps_leaf.
  - intro e. apply catch_respects_keeps; reflexivity.
Qed.

Lemma try_catch_ext (A : Type) (m m' : M A) h s :
  m s = m' s -> try_catch m h s = try_catch m' h s.
Proof. intro H. unfold try_catch. rewrite H. reflexivity. Qed.

Arguments try_catch_ext {A m} m' h {s} _.

(** A frame that passes the sequence check: the call goes on with the
    acknowledgement and the reassembly. *)
Lemma handleIncomingBleData_accepted E data s p :
  blength data <= fragmentSize s + 3 ->
  decodeBtpPacket E data = inr p ->
  isControlFrame p = false ->
  isEmptyFrame p = false ->
  BtpPayload.sequenceNumber (payload p) = expectedSequenceNumber s ->
  let r := try_catch (afterSequenceCheck p) handleIncomingBleData_catch
             (sequenceAccepted p s) in
  handleIncomingBleData E data s
  = (completionOf r, stateOf r, sendAckTimerStarted s ++ traceOf r).
Proof.
  intros Hsize Hdec Hctl Hne Hseq r.
  rewrite handleIncomingBleData_unfold.
  rewrite (try_catch_ext _ _ (handleIncomingBleData_try_decoded Hsize Hdec)).
  exact (try_catch_bind_Normal (fun _ : unit => afterSequenceCheck p)
           handleIncomingBleData_catch (checkSequence_ok p s Hctl Hne Hseq)).
Qed.

Arguments handleIncomingBleData_accepted {E data s p} _ _ _ _ _.

Lemma sequenceAccepted_prevIncomingSequenceNumber p s :
  prevIncomingSequenceNumber (sequenceAccepted p s)
  = BtpPayload.sequenceNumber (payload p).
Proof. unfold sequenceAccepted. destruct (isRunning (sendAckTimer s)); reflexivity. Qed.

(** ** Errors of the inbound path *)

(** C2, as amended.  Whatever error the [try] block of
    [handleIncomingBleData] raises, [close] runs in the state the error left;
    after that a [BtpProtocolError] is dropped, so that the call returns
    normally, and only an error of another class is raised again to the
    caller. *)
Theorem handleIncomingBleData_error_closes E data s e s1 t1 :
  handleIncomingBleData_try E data s = (Throw e, s1, t1) ->
  handleIncomingBleData E data s
  = (if instanceof_BtpProtocolError e then Normal tt else Throw e,
     stateOf (close s1), t1 ++ traceOf (close s1))
  /\ isActive (stateOf (close s1)) = false
  /\ isRunning (ackReceiveTimer (stateOf (close s1))) = false
  /\ isRunning (sendAckTimer (stateOf (close s1))) = false.
Proof.
  intro H. rewrite close_state. split; [ | repeat split].
  apply (handleIncomingBleData_Throw H).
Qed.

Lemma handleIncomingBleData_error_closes_witness :
  handleIncomingBleData testEnv [x05; x07; x01; x00; xaa] session0
  = (Normal tt, stateOf (close session0), [] ++ traceOf (close session0))
  /\ isActive (stateOf (close session0)) = false
  /\ isRunning (ackReceiveTimer (stateOf (close session0))) = false
  /\ isRunning (sendAckTimer (stateOf (close session0))) = false.
Proof.
  apply (handleIncomingBleData_error_closes testEnv [x05; x07; x01; x00; xaa]
           session0 (BtpProtocolError SequenceGap) session0 []).
  reflexivity.
Defined.

(** C2, as stated, fails: on a fresh session the frame [05 07 01 00 aa]
    (beginning and ending segment, sequence number 7 where 0 is expected)
    raises a [BtpProtocolError] inside the [try] block; the session is closed
    and the call returns normally: the error does not reach the caller. *)
Lemma protocol_error_not_rethrown :
  handleIncomingBleData_try testEnv [x05; x07; x01; x00; xaa] session0
  = (Throw (BtpProtocolError SequenceGap), session0, [])
  /\ handleIncomingBleData testEnv [x05; x07; x01; x00; xaa] session0
     = (Normal tt, closed session0,
        [TimerStop AckReceiveTimer; TimerStop SendAckTimer; DisconnectBle]).
Proof. split; reflexivity. Qed.

(** An error of another class is raised again: the empty buffer makes the
    decoder read past the end. *)
Example other_error_rethrown :
  handleIncomingBleData testEnv [] session0
  = (Throw BtpCodec.RangeError, closed session0,
     [TimerStop AckReceiveTimer; TimerStop SendAckTimer; DisconnectBle]).
Proof. reflexivity. Qed.

(** ** The sequence check *)

(** C4, as amended.  For an inbound buffer that is within the size limit and
    decodes to a frame that is no control frame and carries a payload or an
    acknowledgement: if the sequence number of the frame is not
    [(prevIncomingSequenceNumber + 1) % 256], the [try] block raises the
    sequence error with the state untouched and the session is closed;
    otherwise [prevIncomingSequenceNumber] is the sequence number of the frame
    when the call returns, whatever happens to the frame afterwards. *)
Theorem sequence_check E data s p :
  blength data <= fragmentSize s + 3 ->
  decodeBtpPacket E data = inr p ->
  isControlFrame p = false ->
  isEmptyFrame p = false ->
  (BtpPayload.sequenceNumber (payload p) <> expectedSequenceNumber s ->
   handleIncomingBleData_try E data s
   = (Throw (BtpProtocolError SequenceGap), s, [])
   /\ handleIncomingBleData E data s = (Normal tt, closed s, traceOf (close s))
   /\ isActive (closed s) = false
   /\ prevIncomingSequenceNumber (closed s) = prevIncomingSequenceNumber s)
  /\ (BtpPayload.sequenceNumber (payload p) = expectedSequenceNumber s ->
      prevIncomingSequenceNumber (stateOf (handleIncomingBleData E data s))
      = BtpPayload.sequenceNumber (payload p)).
Proof.
  intros Hsize Hdec Hctl Hne. split; intro Hseq.
  - assert (Htry : handleIncomingBleData_try E data s
                   = (Throw (BtpProtocolError SequenceGap), s, [])).
    { rewrite (handleIncomingBleData_try_decoded Hsize Hdec).
      apply bind_Throw, checkSequence_gap; assumption. }
    repeat split; [exact Htry | ].
    rewrite (handleIncomingBleData_Throw Htry). reflexivity.
  - rewrite (handleIncomingBleData_accepted Hsize Hdec Hctl Hne Hseq).
    unfold stateOf at 1. cbn [fst snd].
    rewrite (afterSequenceCheck_keeps_prevIncomingSequenceNumber p (sequenceAccepted p s)).
    apply sequenceAccepted_prevIncomingSequenceNumber.
Qed.

Lemma sequence_check_witness :
  (handleIncomingBleData_try testEnv [x04; x03; xaa] session0
   = (Throw (BtpProtocolError SequenceGap), session0, [])
   /\ handleIncomingBleData testEnv [x04; x03; xaa] session0
      = (Normal tt, closed session0, traceOf (close session0))
   /\ isActive (closed session0) = false
   /\ prevIncomingSequenceNumber (closed session0)
      = prevIncomingSequenceNumber session0)
  /\ prevIncomingSequenceNumber
       (stateOf (handleIncomingBleData testEnv [x04; x00; xaa] session0))
     = 0.
Proof.
  split.
  - refine (proj1 (sequence_check testEnv [x04; x03; xaa] session0
                     {| header := BtpHeader.Build false false false false true true;
                        payload := BtpPayload.Build None 3 None [xaa] |}
                     _ _ _ _) _).
    + vm_compute. discriminate.
    + reflexivity.
    + reflexivity.
    + reflexivity.
    + vm_compute. discriminate.
  - refine (proj2 (sequence_check testEnv [x04; x00; xaa] session0
                     {| header := BtpHeader.Build false false false false true true;
                        payload := BtpPayload.Build None 0 None [xaa] |}
                     _ _ _ _) _).
    + vm_compute. discriminate.
    + reflexivity.
    + reflexivity.
    + reflexivity.
    + reflexivity.
Defined.

(** C4, as stated, fails: on a fresh session the frame [04 00] is no
    handshake frame and carries the expected sequence number 0, but it has
    neither payload nor acknowledgement: it is refused before the sequence
    number is looked at, and [prevIncomingSequenceNumber] stays 255. *)
Lemma sequence_number_not_recorded :
  decodeBtpPacket testEnv [x04; x00]
  = inr {| header := BtpHeader.Build false false false false true true;
           payload := BtpPayload.Build None 0 None [] |}
  /\ expectedSequenceNumber session0 = 0
  /\ handleIncomingBleData_try testEnv [x04; x00] session0
     = (Throw (BtpProtocolError EmptyFrame), session0, [])
  /\ prevIncomingSequenceNumber
       (stateOf (handleIncomingBleData testEnv [x04; x00] session0)) = 255.
Proof. repeat split. Qed.

(** ** The acknowledgement check *)

#[export] Instance emitsOnly_compositional (P : Event -> Prop) :
  Compositional (emitsOnly P).
Proof.
  split; unfold emitsOnly.
  - constructor.
  - intros. apply Forall_app; auto.
Qed.

Lemma sequenceAccepted_prevIncomingAckNumber p s :
  prevIncomingAckNumber (sequenceAccepted p s) = prevIncomingAckNumber s.
Proof. unfold sequenceAccepted. destruct (isRunning (sendAckTimer s)); reflexivity. Qed.

Lemma sequenceAccepted_sequenceNumber p s :
  sequenceNumber (sequenceAccepted p s) = sequenceNumber s.
Proof. unfold sequenceAccepted. destruct (isRunning (sendAckTimer s)); reflexivity. Qed.

Lemma carriedAck_not_empty p ackNumber :
  carriedAck p = Some ackNumber -> isEmptyFrame p = false.
Proof.
  unfold carriedAck, isEmptyFrame.
  destruct (BtpHeader.hasAckNumber (header p)); [ | discriminate].
  intros _. apply andb_false_r.
Qed.

Lemma afterSequenceCheck_unfold p : afterSequenceCheck p = (checkAck p ;; reassemble p).
Proof. reflexivity. Qed.

Lemma close_emits (P : Event -> Prop) :
  P (TimerStop AckReceiveTimer) -> P (TimerStop SendAckTimer) -> P DisconnectBle ->
  respects (emitsOnly P) close.
Proof.
  intros H1 H2 H3 s. unfold emitsOnly. rewrite close_trace.
  destruct (isActive s); repeat constructor; assumption.
Qed.

Lemma catch_emits (P : Event -> Prop) e :
  P (TimerStop AckReceiveTimer) -> P (TimerStop SendAckTimer) -> P DisconnectBle ->
  respects (emitsOnly P) (handleIncomingBleData_catch e).
Proof.
  intros H1 H2 H3. unfold handleIncomingBleData_catch.
  apply respects_bind; [apply close_emits; assumption | intros _].
  respects_steps.
Qed.

(** The reassembly starts no timer. *)
Lemma reassemble_starts_no_timer p :
  respects (emitsOnly (fun ev => forall timer, ev <> TimerStart timer))
    (try_catch (reassemble p) handleIncomingBleData_catch).
Proof.
  apply respects_try_catch.
  - unfold reassemble, addSegment, completeMessage.
    respects_steps; unfold emitsOnly; repeat constructor; discriminate.
  - intro e. apply catch_emits; discriminate.
Qed.

Lemma reassemble_keeps_prevIncomingAckNumber p :
  respects (keeps prevIncomingAckNumber)
    (try_catch (reassemble p) handleIncomingBleData_catch).
Proof.
  apply respects_try_catch.
  - unfold reassemble, addSegment, completeMessage.
    respects_steps; unfold keeps; keeps_leaf.
  - intro e. apply catch_respects_keeps; reflexivity.
Qed.

Lemma reassemble_keeps_ackReceiveTimer p :
  respects (keeps ackReceiveTimer) (reassemble p).
Proof.
  unfold reassemble, addSegment, completeMessage.
  respects_steps; unfold keeps; keeps_leaf.
Qed.

(** The reassembly raises no acknowledgement error. *)
Lemma reassemble_raises p :
  raisesOnly (fun e => e <> BtpProtocolError InvalidAck) (reassemble p).
Proof.
  unfold reassemble, addSegment, completeMessage.
  raisesOnly_steps; discriminate.
Qed.

Lemma reassemble_no_InvalidAck p s :
  completionOf (reassemble p s) <> Throw (BtpProtocolError InvalidAck).
Proof. intro H. apply (reassemble_raises p s _ H). reflexivity. Qed.

(** C5, as amended.  For an inbound buffer that is within the size limit and
    decodes to a frame that is no control frame, has the expected sequence
    number and carries an acknowledgement: the acknowledgement is refused with
    the acknowledgement error exactly when it is not in the range
    [prevIncomingAckNumber < ackNumber <= sequenceNumber] of the session's own
    counters, compared as plain integers, and then
    [prevIncomingAckNumber] is unchanged and the session is closed; an
    acknowledgement in the range stops the ack-receive timer, becomes
    [prevIncomingAckNumber], and starts the ack-receive timer again exactly
    when [ackNumber < sequenceNumber]. *)
Theorem ack_check E data s p ackNumber :
  blength data <= fragmentSize s + 3 ->
  decodeBtpPacket E data = inr p ->
  isControlFrame p = false ->
  BtpPayload.sequenceNumber (payload p) = expectedSequenceNumber s ->
  carriedAck p = Some ackNumber ->
  (~ (prevIncomingAckNumber s < ackNumber <= sequenceNumber s) ->
   handleIncomingBleData_try E data s
   = (Throw (BtpProtocolError InvalidAck), sequenceAccepted p s, sendAckTimerStarted s)
   /\ prevIncomingAckNumber (stateOf (handleIncomingBleData E data s))
      = prevIncomingAckNumber s
   /\ isActive (stateOf (handleIncomingBleData E data s)) = false)
  /\ (prevIncomingAckNumber s < ackNumber <= sequenceNumber s ->
      completionOf (handleIncomingBleData_try E data s)
      <> Throw (BtpProtocolError InvalidAck)
      /\ prevIncomingAckNumber (stateOf (handleIncomingBleData E data s)) = ackNumber
      /\ (exists rest,
             traceOf (handleIncomingBleData E data s)
             = sendAckTimerStarted s ++ ackReceiveTimerRestarted ackNumber s ++ rest
             /\ ~ In (TimerStart AckReceiveTimer) rest)
      /\ (completionOf (handleIncomingBleData_try E data s) = Normal tt ->
          isRunning (ackReceiveTimer (stateOf (handleIncomingBleData E data s)))
          = (ackNumber <? sequenceNumber s))).
Proof.
  intros Hsize Hdec Hctl Hseq Hack.
  pose proof (carriedAck_not_empty _ _ Hack) as Hne.
  pose proof (checkSequence_ok p s Hctl Hne Hseq) as Hcs.
  pose proof (handleIncomingBleData_try_decoded Hsize Hdec) as Htry.
  set (s1 := sequenceAccepted p s) in *.
  split; intro Hrange.
  - assert (Hca : checkAck p s1 = (Throw (BtpProtocolError InvalidAck), s1, [])).
    { apply checkAck_invalid with ackNumber; [assumption | ].
      unfold s1. rewrite sequenceAccepted_prevIncomingAckNumber,
        sequenceAccepted_sequenceNumber. assumption. }
    assert (Ht : handleIncomingBleData_try E data s
                 = (Throw (BtpProtocolError InvalidAck), s1, sendAckTimerStarted s)).
    { rewrite Htry, (bind_Normal _ Hcs), afterSequenceCheck_unfold.
      rewrite (bind_Throw _ Hca). unfold completionOf, stateOf, traceOf. cbn.
      rewrite app_nil_r. reflexivity. }
    split; [exact Ht | ].
    rewrite (handleIncomingBleData_Throw Ht). unfold stateOf. cbn [fst snd].
    split; [ | reflexivity].
    unfold closed. cbn. apply sequenceAccepted_prevIncomingAckNumber.
  - assert (Hca : checkAck p s1
                  = (Normal tt, ackAccepted ackNumber s1,
                     ackReceiveTimerRestarted ackNumber s)).
    { replace (ackReceiveTimerRestarted ackNumber s)
        with (ackReceiveTimerRestarted ackNumber s1)
        by (unfold ackReceiveTimerRestarted, s1;
            rewrite sequenceAccepted_sequenceNumber; reflexivity).
      apply checkAck_valid; [assumption | ].
      unfold s1. rewrite sequenceAccepted_prevIncomingAckNumber,
        sequenceAccepted_sequenceNumber. assumption. }
    set (s2 := ackAccepted ackNumber s1) in *.
    assert (Ht : handleIncomingBleData_try E data s
                 = (completionOf (reassemble p s2), stateOf (reassemble p s2),
                    sendAckTimerStarted s ++ ackReceiveTimerRestarted ackNumber s
                    ++ traceOf (reassemble p s2))).
    { rewrite Htry, (bind_Normal _ Hcs), afterSequenceCheck_unfold.
      rewrite (bind_Normal _ Hca). reflexivity. }
    assert (Hh : handleIncomingBleData E data s
                 = (completionOf (try_catch (reassemble p) handleIncomingBleData_catch s2),
                    stateOf (try_catch (reassemble p) handleIncomingBleData_catch s2),
                    sendAckTimerStarted s ++ ackReceiveTimerRestarted ackNumber s
                    ++ traceOf (try_catch (reassemble p) handleIncomingBleData_catch s2))).
    { rewrite (handleIncomingBleData_accepted Hsize Hdec Hctl Hne Hseq).
      fold s1. rewrite afterSequenceCheck_unfold.
      rewrite (try_catch_bind_Normal _ _ Hca). reflexivity. }
    split; [ | split; [ | split]].
    + rewrite Ht. unfold completionOf at 1. cbn [fst]. apply reassemble_no_InvalidAck.
    + rewrite Hh. unfold stateOf at 1. cbn [fst snd].
      rewrite (reassemble_keeps_prevIncomingAckNumber p s2). reflexivity.
    + eexists. rewrite Hh. unfold traceOf at 1. cbn [snd]. split; [reflexivity | ].
      pose proof (reassemble_starts_no_timer p s2) as Hno. unfold emitsOnly in Hno.
      rewrite Forall_forall in Hno. intro Hin. apply (Hno _ Hin AckReceiveTimer).
      reflexivity.
    + rewrite Ht. unfold completionOf at 1. cbn [fst]. intro Hn.
      rewrite (@handleIncomingBleData_Normal E data s
                 (stateOf (reassemble p s2))
                 (sendAckTimerStarted s ++ ackReceiveTimerRestarted ackNumber s
                  ++ traceOf (reassemble p s2)))
        by (rewrite Ht, Hn; reflexivity).
      unfold stateOf at 1. cbn [fst snd].
      rewrite (reassemble_keeps_ackReceiveTimer p s2).
      unfold s2, ackAccepted, s1. cbn. rewrite sequenceAccepted_sequenceNumber.
      reflexivity.
Qed.

Lemma ack_check_witness :
  (handleIncomingBleData_try testEnv [x0c; x05; x00; xaa] session0
   = (Throw (BtpProtocolError InvalidAck),
      sequenceAccepted
        {| header := BtpHeader.Build false false true false true true;
           payload := BtpPayload.Build (Some 5) 0 None [xaa] |} session0,
      sendAckTimerStarted session0)
   /\ prevIncomingAckNumber
        (stateOf (handleIncomingBleData testEnv [x0c; x05; x00; xaa] session0))
      = prevIncomingAckNumber session0
   /\ isActive (stateOf (handleIncomingBleData testEnv [x0c; x05; x00; xaa] session0))
      = false)
  /\ (completionOf
        (handleIncomingBleData_try testEnv [x0d; x00; x00; x01; x00; xaa] session0)
      <> Throw (BtpProtocolError InvalidAck)
      /\ prevIncomingAckNumber
           (stateOf (handleIncomingBleData testEnv [x0d; x00; x00; x01; x00; xaa] session0))
         = 0
      /\ (exists rest,
             traceOf (handleIncomingBleData testEnv [x0d; x00; x00; x01; x00; xaa] session0)
             = sendAckTimerStarted session0 ++ ackReceiveTimerRestarted 0 session0 ++ rest
             /\ ~ In (TimerStart AckReceiveTimer) rest)
      /\ (completionOf
            (handleIncomingBleData_try testEnv [x0d; x00; x00; x01; x00; xaa] session0)
          = Normal tt ->
          isRunning
            (ackReceiveTimer
               (stateOf (handleIncomingBleData testEnv [x0d; x00; x00; x01; x00; xaa]
                           session0)))
          = (0 <? sequenceNumber session0))).
Proof.
  split.
  - refine (proj1 (ack_check testEnv [x0c; x05; x00; xaa] session0
                     {| header := BtpHeader.Build false false true false true true;
                        payload := BtpPayload.Build (Some 5) 0 None [xaa] |} 5
                     _ _ _ _ _) _).
    + vm_compute. discriminate.
    + reflexivity.
    + reflexivity.
    + reflexivity.
    + reflexivity.
    + cbn. lia.
  - refine (proj2 (ack_check testEnv [x0d; x00; x00; x01; x00; xaa] session0
                     {| header := BtpHeader.Build false false true true false true;
                        payload := BtpPayload.Build (Some 0) 0 (Some 1) [xaa] |} 0
                     _ _ _ _ _) _).
    + vm_compute. discriminate.
    + reflexivity.
    + reflexivity.
    + reflexivity.
    + reflexivity.
    + cbn. lia.
Defined.

(** C5, as stated, fails: on a fresh session ([prevIncomingAckNumber = -1],
    [sequenceNumber = 0]) the frame [0c 00 05 aa] carries the acknowledgement
    0, which is in the range, together with the sequence number 5 where 0 is
    expected.  The frame is refused by the sequence check: the acknowledgement
    is not recorded, [prevIncomingAckNumber] stays -1. *)
Lemma ack_in_range_not_accepted :
  decodeBtpPacket testEnv [x0c; x00; x05; xaa]
  = inr {| header := BtpHeader.Build false false true false true true;
           payload := BtpPayload.Build (Some 0) 5 None [xaa] |}
  /\ prevIncomingAckNumber session0 < 0 <= sequenceNumber session0
  /\ handleIncomingBleData_try testEnv [x0c; x00; x05; xaa] session0
     = (Throw (BtpProtocolError SequenceGap), session0, [])
  /\ prevIncomingAckNumber
       (stateOf (handleIncomingBleData testEnv [x0c; x00; x05; xaa] session0)) = -1.
Proof. repeat split; cbn; lia. Qed.

(** ** The handshake factory *)

Lemma find_supported_version (versions : list Z) :
  find (fun version => existsb (Z.eqb version) versions) SUPPORTED_BTP_VERSIONS
  = if existsb (Z.eqb 4) versions then Some 4 else None.
Proof. cbn. destruct (existsb (Z.eqb 4) versions); reflexivity. Qed.

Lemma includes_spec (v : Z) (versions : list Z) :
  existsb (Z.eqb v) versions = true <-> In v versions.
Proof.
  rewrite existsb_exists. split.
  - intros (x & Hin & Heq). apply Z.eqb_eq in Heq. subst. exact Hin.
  - intro Hin. exists v. split; [exact Hin | apply Z.eqb_refl].
Qed.

Lemma new_BtpSessionHandler_4 (fragmentSize clientWindowSize : Z) :
  new_BtpSessionHandler 4 fragmentSize clientWindowSize
  = (Normal (freshSession fragmentSize clientWindowSize), [TimerStart AckReceiveTimer]).
Proof. reflexivity. Qed.

(** C1.  The code at the input of the claim: with [maxDataSize = 100] the
    factory first adds the 3 bytes of the GATT header, so that the request
    [65 6c 04 00 00 00 b9 00 06] (versions [4], attMtu 185, window 6) is
    answered with attMtu [min 185 103 247 = 103], not 100: the session has
    fragments of 100 bytes and a window of 6, and the response written to the
    transport is [65 6c 04 67 00 06]. *)
Theorem handshake_maxDataSize_100 :
  negotiateAttMtu (Some 100) 185 = 103
  /\ createFromHandshakeRequest testEnv (Some 100)
       [x65; x6c; x04; x00; x00; x00; xb9; x00; x06]
     = (Normal (freshSession 100 6),
        [TimerStart AckReceiveTimer; WriteBle [x65; x6c; x04; x67; x00; x06]]).
Proof. split; reflexivity. Qed.



(** The other handshakes of the session tests. *)
Example handshake_undefined_maxDataSize :
  createFromHandshakeRequest testEnv None [x65; x6c; x04; x00; x00; x00; x00; x00; x06]
  = (Normal (freshSession 20 6),
     [TimerStart AckReceiveTimer; WriteBle [x65; x6c; x04; x17; x00; x06]]).
Proof. reflexivity. Qed.

Example handshake_maxDataSize_20 :
  createFromHandshakeRequest testEnv (Some 20) [x65; x6c; x04; x00; x00; x00; xb9; x00; x06]
  = (Normal session0,
     [TimerStart AckReceiveTimer; WriteBle [x65; x6c; x04; x17; x00; x06]]).
Proof. reflexivity. Qed.

(** ** What each path writes

    A compositional relation that is respected by the assignments and the
    events of a path is respected by the path. *)

Section Footprint.

Context {Q : Rel} {HQ : Compositional Q}.

Hypothesis Q_timer_start : forall timer s, Q s s [TimerStart timer].
Hypothesis Q_timer_stop : forall timer s, Q s s [TimerStop timer].
Hypothesis Q_ackReceiveTimer : forall v s, Q s (set_ackReceiveTimer v s) [].
Hypothesis Q_sendAckTimer : forall v s, Q s (set_sendAckTimer v s) [].

Lemma timer_start_respects timer : respects Q (timer_start timer).
Proof.
  unfold timer_start. respects_steps; [ | apply Q_timer_start].
  destruct timer; [apply Q_ackReceiveTimer | apply Q_sendAckTimer].
Qed.

Lemma timer_stop_respects timer : respects Q (timer_stop timer).
Proof.
  unfold timer_stop. respects_steps; [ | apply Q_timer_stop].
  destruct timer; [apply Q_ackReceiveTimer | apply Q_sendAckTimer].
Qed.

Section Inbound.

Hypothesis Q_close : respects Q close.
Hypothesis Q_deliver : forall data s, Q s s [HandleMatterMessagePayload data].
Hypothesis Q_prevIncomingSequenceNumber :
  forall v s, Q s (set_prevIncomingSequenceNumber v s) [].
Hypothesis Q_prevIncomingAckNumber :
  forall v s, Q s (set_prevIncomingAckNumber v s) [].
Hypothesis Q_currentIncomingSegmentedMsgLength :
  forall v s, Q s (set_currentIncomingSegmentedMsgLength v s) [].
Hypothesis Q_currentIncomingSegmentedPayload :
  forall v s, Q s (set_currentIncomingSegmentedPayload v s) [].

Lemma handleIncomingBleData_try_respects E data :
  respects Q (handleIncomingBleData_try E data).
Proof.
  unfold handleIncomingBleData_try, checkFragmentSize, checkSequence, checkAck,
    addSegment, completeMessage.
  respects_steps;
    first [ apply timer_start_respects | apply timer_stop_respects
          | apply Q_deliver | apply Q_prevIncomingSequenceNumber
          | apply Q_prevIncomingAckNumber
          | apply Q_currentIncomingSegmentedMsgLength
          | apply Q_currentIncomingSegmentedPayload ].
Qed.

Lemma handleIncomingBleData_respects E data :
  respects Q (handleIncomingBleData E data).
Proof.
  unfold handleIncomingBleData. apply respects_try_catch.
  - apply handleIncomingBleData_try_respects.
  - intro e. unfold handleIncomingBleData_catch.
    apply respects_bind; [exact Q_close | intros _]. respects_steps.
Qed.

End Inbound.

Section Outbound.

Hypothesis Q_write : forall data s, Q s s [WriteBle data].
Hypothesis Q_sequenceNumber : forall v s, Q s (set_sequenceNumber v s) [].
Hypothesis Q_prevAckedSequenceNumber :
  forall v s, Q s (set_prevAckedSequenceNumber v s) [].
Hypothesis Q_queuedOutgoingMatterMessages :
  forall v s, Q s (set_queuedOutgoingMatterMessages v s) [].
Hypothesis Q_sendInProgress : forall v s, Q s (set_sendInProgress v s) [].

Lemma getNextSequenceNumber_respects : respects Q getNextSequenceNumber.
Proof.
  unfold getNextSequenceNumber. respects_steps; apply Q_sequenceNumber.
Qed.

Lemma writeBle_respects E packet : respects Q (writeBle E packet).
Proof. unfold writeBle. respects_steps. apply Q_write. Qed.

Lemma sendSegment_respects E currentProcessedMessage :
  respects Q (sendSegment E currentProcessedMessage).
Proof.
  unfold sendSegment.
  respects_steps;
    first [ apply timer_start_respects | apply timer_stop_respects
          | apply getNextSequenceNumber_respects | apply writeBle_respects
          | apply Q_prevAckedSequenceNumber
          | apply Q_queuedOutgoingMatterMessages ].
Qed.

Lemma sendLoop_respects E fuel : respects Q (sendLoop E fuel).
Proof.
  induction fuel as [ | fuel IH]; cbn [sendLoop]; respects_steps;
    first [ apply sendSegment_respects | exact IH ].
Qed.

Lemma processSendQueue_respects E fuel : respects Q (processSendQueue E fuel).
Proof.
  unfold processSendQueue.
  respects_steps; first [ apply sendLoop_respects | apply Q_sendInProgress ].
Qed.

Lemma sendMatterMessage_respects E fuel data :
  respects Q (sendMatterMessage E fuel data).
Proof.
  unfold sendMatterMessage.
  respects_steps;
    first [ apply processSendQueue_respects | apply Q_queuedOutgoingMatterMessages ].
Qed.

Lemma btpSendAckTimeoutTriggered_respects E :
  respects Q (btpSendAckTimeoutTriggered E).
Proof.
  unfold btpSendAckTimeoutTriggered.
  respects_steps;
    first [ apply timer_start_respects | apply getNextSequenceNumber_respects
          | apply writeBle_respects | apply Q_prevAckedSequenceNumber ].
Qed.

End Outbound.

End Footprint.

(** ** close *)

Lemma disconnects_app t1 t2 : disconnects (t1 ++ t2) = (disconnects t1 + disconnects t2)%nat.
Proof. unfold disconnects. rewrite filter_app, length_app. reflexivity. Qed.

#[export] Instance disconnectAccount_compositional : Compositional disconnectAccount.
Proof.
  split; unfold disconnectAccount.
  - reflexivity.
  - intros s1 s2 s3 t1 t2 H1 H2. rewrite disconnects_app. lia.
Qed.

Lemma close_accounts : respects disconnectAccount close.
Proof.
  intro s. unfold disconnectAccount. rewrite close_state, close_trace.
  destruct (isActive s); reflexivity.
Qed.

Lemma btpAckTimeoutTriggered_accounts : respects disconnectAccount btpAckTimeoutTriggered.
Proof.
  unfold btpAckTimeoutTriggered. respects_steps. apply close_accounts.
Qed.

(** Every call respects the account. *)
Lemma call_accounts E fuel c : respects disconnectAccount (call E fuel c).
Proof.
  destruct c; cbn [call].
  - apply handleIncomingBleData_respects;
      first [ exact close_accounts | intros; reflexivity ].
  - apply sendMatterMessage_respects; intros; reflexivity.
  - apply close_accounts.
  - respects_steps; [reflexivity | ].
    apply btpSendAckTimeoutTriggered_respects; intros; reflexivity.
  - respects_steps; [reflexivity | ]. apply btpAckTimeoutTriggered_accounts.
Qed.

Lemma calls_account E fuel cs : forall s s' t,
  calls E fuel cs s = Some (s', t) -> disconnectAccount s s' t.
Proof.
  induction cs as [ | c cs IH]; intros s s' t H; cbn [calls] in H.
  - injection H as <- <-. apply Q_nil.
  - pose proof (call_accounts E fuel c s) as Hc. unfold stateOf, traceOf in Hc.
    destruct (call E fuel c s) as [[[[] | e | ] s1] t1]; cbn in Hc; try discriminate;
      destruct (calls E fuel cs s1) as [[s2 t2] | ] eqn:Hcs; try discriminate;
      injection H as <- <-; apply (Q_app _ _ _ _ _ Hc (IH _ _ _ Hcs)).
Qed.

(** C7.  Every call of [close] stops both timers.  On an active session it
    sets [isActive] to false and calls [disconnectBleCallback] once; on a
    session that is no longer active it changes nothing but the two timers
    and does not call [disconnectBleCallback].  Over the life of a session,
    whatever the calls it receives (inbound data, messages to send, [close],
    timer expiries), [disconnectBleCallback] is called once if the session has
    become inactive and not at all if it is still active. *)
Theorem close_once :
  (forall s,
      completionOf (close s) = Normal tt
      /\ isRunning (ackReceiveTimer (stateOf (close s))) = false
      /\ isRunning (sendAckTimer (stateOf (close s))) = false
      /\ isActive (stateOf (close s)) = false
      /\ traceOf (close s)
         = [TimerStop AckReceiveTimer; TimerStop SendAckTimer]
           ++ (if isActive s then [DisconnectBle] else [])
      /\ stateOf (close s)
         = set_isActive false
             (set_sendAckTimer {| isRunning := false |}
                (set_ackReceiveTimer {| isRunning := false |} s)))
  /\ (forall s,
         stateOf (close (stateOf (close s))) = stateOf (close s)
         /\ disconnects (traceOf (close (stateOf (close s)))) = 0%nat)
  /\ (forall E fuel cs fragmentSize clientWindowSize s' t,
         calls E fuel cs (freshSession fragmentSize clientWindowSize) = Some (s', t) ->
         disconnects t = if isActive s' then 0%nat else 1%nat).
Proof.
  split; [ | split].
  - intro s. rewrite close_completion, close_state, close_trace. repeat split.
  - intro s. rewrite !close_state, close_trace. split; reflexivity.
  - intros E fuel cs fragmentSize clientWindowSize s' t H.
    apply calls_account in H. unfold disconnectAccount in H. cbn in H.
    destruct (isActive s'); cbn in H; lia.
Qed.

Lemma close_once_witness :
  disconnects
    [TimerStop AckReceiveTimer; TimerStop SendAckTimer; DisconnectBle;
     TimerStart SendAckTimer; HandleMatterMessagePayload [xaa];
     TimerStop AckReceiveTimer; TimerStop SendAckTimer]
  = if isActive (set_prevIncomingSequenceNumber 0 (closed (freshSession 20 6)))
    then 0%nat else 1%nat.
Proof.
  refine (proj2 (proj2 close_once) testEnv 4%nat
            [Close; HandleIncomingBleData [x05; x00; x01; x00; xaa]; Close]
            20 6 (set_prevIncomingSequenceNumber 0 (closed (freshSession 20 6)))
            [TimerStop AckReceiveTimer; TimerStop SendAckTimer; DisconnectBle;
             TimerStart SendAckTimer; HandleMatterMessagePayload [xaa];
             TimerStop AckReceiveTimer; TimerStop SendAckTimer] _).
  vm_compute. reflexivity.
Defined.

(** ** Parts of the state a method does not look at *)

Section Ignores.

Variable g : BtpSessionHandler -> BtpSessionHandler.

Lemma ignores_ret (A : Type) (a : A) : ignores g (ret a).
Proof. intro s. reflexivity. Qed.

Lemma ignores_throw (A : Type) (e : MatterError) : ignores g (@throw A e).
Proof. intro s. reflexivity. Qed.

Lemma ignores_unfinished (A : Type) : ignores g (@unfinished A).
Proof. intro s. reflexivity. Qed.

Lemma ignores_lift (A : Type) (r : MatterError + A) : ignores g (lift r).
Proof. destruct r; intro s; reflexivity. Qed.

Lemma ignores_emit ev : ignores g (emit ev).
Proof. intro s. reflexivity. Qed.

Lemma ignores_modify f : (forall s, f (g s) = g (f s)) -> ignores g (modify f).
Proof. intros H s. unfold modify, completionOf, stateOf, traceOf. cbn. rewrite H. reflexivity. Qed.

Lemma ignores_bind (A B : Type) (m : M A) (k : A -> M B) :
  ignores g m -> (forall a, ignores g (k a)) -> ignores g (bind m k).
Proof.
  intros Hm Hk s. unfold bind. rewrite (Hm s).
  unfold completionOf, stateOf, traceOf.
  destruct (m s) as [[[a | e | ] s1] t1]; cbn; try reflexivity.
  rewrite (Hk a s1). unfold completionOf, stateOf, traceOf.
  destruct (k a s1) as [[c2 s2] t2]. reflexivity.
Qed.

(** The state read by [get] may only be used in ways that [g] does not
    change. *)
Lemma ignores_get_bind (B : Type) (k : BtpSessionHandler -> M B) :
  (forall this s, k (g this) s = k this s) ->
  (forall this, ignores g (k this)) ->
  ignores g (bind get k).
Proof.
  intros Hsame Hk s. unfold bind, get. cbn.
  rewrite Hsame, (Hk s s). unfold completionOf, stateOf, traceOf.
  destruct (k s s) as [[c2 s2] t2]. reflexivity.
Qed.

Lemma ignores_if (A : Type) (b : bool) (m1 m2 : M A) :
  ignores g m1 -> ignores g m2 -> ignores g (if b then m1 else m2).
Proof. destruct b; auto. Qed.

End Ignores.

Ltac ignores_step :=
  lazymatch goal with
  | |- ignores _ (ret _) => apply ignores_ret
  | |- ignores _ (throw _) => apply ignores_throw
  | |- ignores _ unfinished => apply ignores_unfinished
  | |- ignores _ (lift _) => apply ignores_lift
  | |- ignores _ (emit _) => apply ignores_emit
  | |- ignores _ (modify _) => apply ignores_modify; intro; try reflexivity
  | |- ignores _ (bind get _) =>
      apply ignores_get_bind; [ intros; try reflexivity | intro ]
  | |- ignores _ (bind _ _) => apply ignores_bind; [ | intro ]
  | |- ignores _ (match ?x with _ => _ end) =>
      first [ apply ignores_if | destruct x ]
  | |- ignores _ (let _ := _ in _) => cbv zeta
  end.

Ltac ignores_steps := repeat ignores_step.

(** The inbound [try] block and the outbound path never look at
    [isActive]. *)

Lemma timer_start_ignores_isActive b timer : ignores (set_isActive b) (timer_start timer).
Proof. unfold timer_start. destruct timer; ignores_steps. Qed.

Lemma timer_stop_ignores_isActive b timer : ignores (set_isActive b) (timer_stop timer).
Proof. unfold timer_stop. destruct timer; ignores_steps. Qed.

Lemma handleIncomingBleData_try_ignores_isActive b E data :
  ignores (set_isActive b) (handleIncomingBleData_try E data).
Proof.
  unfold handleIncomingBleData_try, checkFragmentSize, checkSequence, checkAck,
    addSegment, completeMessage.
  ignores_steps;
    first [ apply timer_start_ignores_isActive | apply timer_stop_ignores_isActive ].
Qed.

Lemma getNextSequenceNumber_ignores_isActive b :
  ignores (set_isActive b) getNextSequenceNumber.
Proof. unfold getNextSequenceNumber. ignores_steps. Qed.

Lemma writeBle_ignores_isActive b E packet : ignores (set_isActive b) (writeBle E packet).
Proof. unfold writeBle. ignores_steps. Qed.

Lemma sendSegment_ignores_isActive b E currentProcessedMessage :
  ignores (set_isActive b) (sendSegment E currentProcessedMessage).
Proof.
  unfold sendSegment.
  ignores_steps;
    first [ apply timer_start_ignores_isActive | apply timer_stop_ignores_isActive
          | apply getNextSequenceNumber_ignores_isActive
          | apply writeBle_ignores_isActive ].
Qed.

Lemma sendLoop_ignores_isActive b E fuel : ignores (set_isActive b) (sendLoop E fuel).
Proof.
  induction fuel as [ | fuel IH]; cbn [sendLoop]; ignores_steps;
    first [ apply sendSegment_ignores_isActive | exact IH ].
Qed.

Lemma processSendQueue_ignores_isActive b E fuel :
  ignores (set_isActive b) (processSendQueue E fuel).
Proof.
  unfold processSendQueue. ignores_steps. apply sendLoop_ignores_isActive.
Qed.

Lemma sendMatterMessage_ignores_isActive b E fuel data :
  ignores (set_isActive b) (sendMatterMessage E fuel data).
Proof.
  unfold sendMatterMessage. ignores_steps. apply processSendQueue_ignores_isActive.
Qed.

(** ** The inbound path and the transport *)



(** A window of 2 frames that is full, with a message waiting: the frame
    [0c 01 00 aa] acknowledges the outstanding frame and opens the window,
    and the message is still waiting when the call returns. *)
Example window_reopened_queue_untouched :
  let s := set_queuedOutgoingMatterMessages [newDataReader [x01; x02]]
             (set_sequenceNumber 1 (freshSession 20 2)) in
  let r := handleIncomingBleData testEnv [x0c; x01; x00; xaa] s in
  windowFull s = true
  /\ windowFull (stateOf r) = false
  /\ queuedOutgoingMatterMessages (stateOf r) = [newDataReader [x01; x02]]
  /\ written (traceOf r) = [].
Proof. repeat split. Qed.

(** ** After close *)

Lemma set_isActive_same s : set_isActive (isActive s) s = s.
Proof. destruct s; reflexivity. Qed.

(** C9, as amended.  Neither [handleIncomingBleData] nor [sendMatterMessage]
    tests [isActive].  On a session that has been closed, [isActive] stays
    false and [disconnectBleCallback] is not called again; apart from that
    the [try] block of [handleIncomingBleData] and [sendMatterMessage] do on
    the closed session exactly what they do on an active session in the same
    state: same completion, same events, same state but for [isActive]. *)
Theorem after_close_not_guarded E fuel data s :
  isActive s = false ->
  (isActive (stateOf (handleIncomingBleData E data s)) = false
   /\ disconnects (traceOf (handleIncomingBleData E data s)) = 0%nat)
  /\ (isActive (stateOf (sendMatterMessage E fuel data s)) = false
      /\ disconnects (traceOf (sendMatterMessage E fuel data s)) = 0%nat)
  /\ handleIncomingBleData_try E data s
     = (completionOf (handleIncomingBleData_try E data (set_isActive true s)),
        set_isActive false
          (stateOf (handleIncomingBleData_try E data (set_isActive true s))),
        traceOf (handleIncomingBleData_try E data (set_isActive true s)))
  /\ sendMatterMessage E fuel data s
     = (completionOf (sendMatterMessage E fuel data (set_isActive true s)),
        set_isActive false
          (stateOf (sendMatterMessage E fuel data (set_isActive true s))),
        traceOf (sendMatterMessage E fuel data (set_isActive true s))).
Proof.
  intro Hs.
  assert (Hinbound : disconnectAccount s (stateOf (handleIncomingBleData E data s))
                       (traceOf (handleIncomingBleData E data s))).
  { apply (call_accounts E fuel (HandleIncomingBleData data)). }
  assert (Houtbound : disconnectAccount s (stateOf (sendMatterMessage E fuel data s))
                        (traceOf (sendMatterMessage E fuel data s))).
  { apply (call_accounts E fuel (SendMatterMessage data)). }
  unfold disconnectAccount in *. rewrite Hs in *. cbn in Hinbound, Houtbound.
  assert (Hrw : s = set_isActive false (set_isActive true s)).
  { rewrite <- (set_isActive_same s) at 1. rewrite Hs. destruct s; reflexivity. }
  split; [ | split; [ | split]].
  - destruct (isActive (stateOf (handleIncomingBleData E data s))); cbn in *; split;
      try reflexivity; lia.
  - destruct (isActive (stateOf (sendMatterMessage E fuel data s))); cbn in *; split;
      try reflexivity; lia.
  - rewrite Hrw at 1. apply handleIncomingBleData_try_ignores_isActive.
  - rewrite Hrw at 1. apply sendMatterMessage_ignores_isActive.
Qed.

Lemma after_close_not_guarded_witness :
  (isActive (stateOf (handleIncomingBleData testEnv [x05; x00; x01; x00; xaa]
                        (closed session0))) = false
   /\ disconnects (traceOf (handleIncomingBleData testEnv [x05; x00; x01; x00; xaa]
                              (closed session0))) = 0%nat)
  /\ (isActive (stateOf (sendMatterMessage testEnv 4 [x05; x00; x01; x00; xaa]
                           (closed session0))) = false
      /\ disconnects (traceOf (sendMatterMessage testEnv 4 [x05; x00; x01; x00; xaa]
                                 (closed session0))) = 0%nat)
  /\ handleIncomingBleData_try testEnv [x05; x00; x01; x00; xaa] (closed session0)
     = (completionOf (handleIncomingBleData_try testEnv [x05; x00; x01; x00; xaa]
                        (set_isActive true (closed session0))),
        set_isActive false
          (stateOf (handleIncomingBleData_try testEnv [x05; x00; x01; x00; xaa]
                      (set_isActive true (closed session0)))),
        traceOf (handleIncomingBleData_try testEnv [x05; x00; x01; x00; xaa]
                   (set_isActive true (closed session0))))
  /\ sendMatterMessage testEnv 4 [x05; x00; x01; x00; xaa] (closed session0)
     = (completionOf (sendMatterMessage testEnv 4 [x05; x00; x01; x00; xaa]
                        (set_isActive true (closed session0))),
        set_isActive false
          (stateOf (sendMatterMessage testEnv 4 [x05; x00; x01; x00; xaa]
                      (set_isActive true (closed session0)))),
        traceOf (sendMatterMessage testEnv 4 [x05; x00; x01; x00; xaa]
                   (set_isActive true (closed session0)))).
Proof.
  apply (after_close_not_guarded testEnv 4%nat [x05; x00; x01; x00; xaa]
           (closed session0)).
  reflexivity.
Defined.

(** C9, as stated, fails: after [close] on a fresh session, the frame
    [05 00 01 00 aa] is still taken in (the sequence counter moves, the
    send-ack timer is started, the message [aa] is handed to the upper
    layer), and a message given to [sendMatterMessage] is still written to
    the transport. *)
Lemma closed_session_still_works :
  stateOf (close session0) = closed session0
  /\ handleIncomingBleData testEnv [x05; x00; x01; x00; xaa] (closed session0)
     = (Normal tt,
        set_sendAckTimer {| isRunning := true |}
          (set_prevIncomingSequenceNumber 0 (closed session0)),
        [TimerStart SendAckTimer; HandleMatterMessagePayload [xaa]])
  /\ sendMatterMessage testEnv 4 [x01] (closed session0)
     = (Normal tt,
        set_ackReceiveTimer {| isRunning := true |}
          (set_prevAckedSequenceNumber 255
             (set_sequenceNumber 1 (closed session0))),
        [TimerStop SendAckTimer; WriteBle [x0d; xff; x01; x01; x00; x01];
         TimerStart AckReceiveTimer]).
Proof. repeat split. Qed.

(** ** The send window *)

Lemma getNextSequenceNumber_run s :
  getNextSequenceNumber s
  = (Normal (nextSequenceNumber (sequenceNumber s)),
     set_sequenceNumber (nextSequenceNumber (sequenceNumber s)) s, []).
Proof.
  unfold getNextSequenceNumber, nextSequenceNumber, bind, get, ret, modify. cbn.
  destruct (sequenceNumber s + 1 >? 255); reflexivity.
Qed.


Lemma sendSegment_keeps (X : Type) (f : BtpSessionHandler -> X) E cur :
  (forall v s, f (set_ackReceiveTimer v s) = f s) ->
  (forall v s, f (set_sendAckTimer v s) = f s) ->
  (forall v s, f (set_sequenceNumber v s) = f s) ->
  (forall v s, f (set_prevAckedSequenceNumber v s) = f s) ->
  (forall v s, f (set_queuedOutgoingMatterMessages v s) = f s) ->
  respects (keeps f) (sendSegment E cur).
Proof.
  intros. apply sendSegment_respects; unfold keeps; auto.
Qed.














(** The state that [processSendQueue] leaves: the one it found, or the one
    in which the loop stopped, with [sendInProgress] reset when the loop
    returned. *)
Lemma processSendQueue_state E fuel s :
  let st := stateOf (sendLoop E fuel (set_sendInProgress true s)) in
  stateOf (processSendQueue E fuel s) = s
  \/ stateOf (processSendQueue E fuel s) = st
  \/ stateOf (processSendQueue E fuel s) = set_sendInProgress false st.
Proof.
  cbv zeta. remember (processSendQueue E fuel s) as r eqn:Hr.
  unfold processSendQueue, bind, get, modify, ret in Hr. cbn in Hr.
  destruct (sendInProgress s); [left; subst r; reflexivity | ].
  destruct (windowFull s); [left; subst r; reflexivity | ].
  destruct (queuedOutgoingMatterMessages s); [left; subst r; reflexivity | ].
  right. unfold stateOf in *.
  destruct (sendLoop E fuel (set_sendInProgress true s)) as [[[[] | e | ] s1] t1];
    subst r; cbn; [right | left | left]; reflexivity.
Qed.




(** ** Reassembly *)

Lemma delivered_app t1 t2 : delivered (t1 ++ t2) = delivered t1 ++ delivered t2.
Proof.
  induction t1 as [ | ev t1 IH]; [reflexivity | ].
  destruct ev; cbn; rewrite IH; reflexivity.
Qed.

Lemma delivered_headerEvents p s : delivered (headerEvents p s) = [].
Proof.
  unfold headerEvents, sendAckTimerStarted, ackReceiveTimerRestarted.
  destruct (isRunning (sendAckTimer s)); destruct (carriedAck p) as [a | ];
    try reflexivity; cbn; destruct (a <? sequenceNumber s); reflexivity.
Qed.

(** A frame whose sequence number and acknowledgement are accepted: the call
    goes on with the reassembly. *)
Lemma handleIncomingBleData_header E data s p :
  decodesTo E (fragmentSize s) data p ->
  BtpPayload.sequenceNumber (payload p) = expectedSequenceNumber s ->
  ackOk s p ->
  handleIncomingBleData E data s
  = (completionOf (try_catch (reassemble p) handleIncomingBleData_catch
                     (headerAccepted p s)),
     stateOf (try_catch (reassemble p) handleIncomingBleData_catch
                (headerAccepted p s)),
     headerEvents p s
     ++ traceOf (try_catch (reassemble p) handleIncomingBleData_catch
                   (headerAccepted p s))).
Proof.
  intros (Hsize & Hdec & Hctl & Hne) Hseq Hack.
  rewrite (handleIncomingBleData_accepted Hsize Hdec Hctl Hne Hseq).
  rewrite afterSequenceCheck_unfold. unfold headerAccepted, headerEvents, ackOk in *.
  destruct (carriedAck p) as [ackNumber | ] eqn:Hc.
  - assert (Hca : checkAck p (sequenceAccepted p s)
                  = (Normal tt, ackAccepted ackNumber (sequenceAccepted p s),
                     ackReceiveTimerRestarted ackNumber s)).
    { replace (ackReceiveTimerRestarted ackNumber s)
        with (ackReceiveTimerRestarted ackNumber (sequenceAccepted p s))
        by (unfold ackReceiveTimerRestarted;
            rewrite sequenceAccepted_sequenceNumber; reflexivity).
      apply checkAck_valid; [assumption | ].
      rewrite sequenceAccepted_prevIncomingAckNumber, sequenceAccepted_sequenceNumber.
      assumption. }
    rewrite (try_catch_bind_Normal _ _ Hca). unfold completionOf, stateOf, traceOf.
    cbn [fst snd]. rewrite <- app_assoc. reflexivity.
  - rewrite (try_catch_bind_Normal _ _ (checkAck_none p _ Hc)).
    unfold completionOf, stateOf, traceOf. cbn [fst snd app]. rewrite app_nil_r.
    reflexivity.
Qed.

Lemma inboundIs_headerAccepted s p fragSize seqNo prevSeq prevAck len cur :
  inboundIs s fragSize seqNo prevSeq prevAck len cur ->
  inboundIs (headerAccepted p s) fragSize seqNo
    (BtpPayload.sequenceNumber (payload p))
    (match carriedAck p with Some a => a | None => prevAck end) len cur.
Proof.
  intros (H1 & H2 & H3 & H4 & H5 & H6).
  unfold headerAccepted, inboundIs, ackAccepted, sequenceAccepted.
  destruct (carriedAck p); destruct (isRunning (sendAckTimer s)); cbn; auto 10.
Qed.

Arguments inboundIs_headerAccepted {s} p {fragSize seqNo prevSeq prevAck len cur} _.

(** The reassembly, for each kind of frame. *)

Lemma reassemble_begin p s len :
  beginFrame len p ->
  currentIncomingSegmentedPayload s = None ->
  reassemble p s
  = (Normal tt,
     set_currentIncomingSegmentedPayload (Some (segmentOf p))
       (set_currentIncomingSegmentedMsgLength (Some len) s), []).
Proof.
  intros (Hb & He & Hl) Hc. unfold reassemble.
  rewrite (bind_Normal _ (addSegment_begin p s Hb Hc)).
  rewrite completeMessage_not_ending by exact He. rewrite Hl. reflexivity.
Qed.

Arguments reassemble_begin {p s len} _ _.

Lemma reassemble_continue p s current :
  continueFrame p ->
  currentIncomingSegmentedPayload s = Some current ->
  reassemble p s
  = (Normal tt,
     set_currentIncomingSegmentedPayload (Some (current ++ segmentOf p)) s, []).
Proof.
  intros (Hb & Hc & He & Hne) Hcur. unfold reassemble.
  assert (Hce : BtpHeader.isContinuingSegment (header p)
                || BtpHeader.isEndingSegment (header p) = true)
    by (rewrite Hc; reflexivity).
  rewrite (bind_Normal _ (addSegment_next p s current Hb Hce Hcur Hne)).
  rewrite completeMessage_not_ending by exact He. reflexivity.
Qed.

Lemma reassemble_end p s current len :
  endFrame p ->
  currentIncomingSegmentedPayload s = Some current ->
  currentIncomingSegmentedMsgLength s = Some len ->
  reassemble p s
  = if blength (current ++ segmentOf p) =? len then
      (Normal tt,
       set_currentIncomingSegmentedPayload None
         (set_currentIncomingSegmentedMsgLength None
            (set_currentIncomingSegmentedPayload (Some (current ++ segmentOf p)) s)),
       [HandleMatterMessagePayload (current ++ segmentOf p)])
    else
      (Throw (BtpProtocolError LengthMismatch),
       set_currentIncomingSegmentedPayload (Some (current ++ segmentOf p)) s, []).
Proof.
  intros (Hb & He & Hne) Hcur Hlen. unfold reassemble.
  assert (Hce : BtpHeader.isContinuingSegment (header p)
                || BtpHeader.isEndingSegment (header p) = true)
    by (rewrite He; apply orb_true_r).
  rewrite (bind_Normal _ (addSegment_next p s current Hb Hce Hcur Hne)).
  destruct (Z.eqb_spec (blength (current ++ segmentOf p)) len) as [Heq | Hneq].
  - erewrite completeMessage_deliver; [reflexivity | exact He | exact Hlen | reflexivity
                                       | exact Heq].
  - erewrite completeMessage_mismatch; [reflexivity | exact He | exact Hlen | reflexivity
                                        | exact Hneq].
Qed.

Arguments reassemble_end {p s current len} _ _ _.

Lemma reassemble_single p s len :
  singleFrame len p ->
  currentIncomingSegmentedPayload s = None ->
  reassemble p s
  = if blength (segmentOf p) =? len then
      (Normal tt,
       set_currentIncomingSegmentedPayload None
         (set_currentIncomingSegmentedMsgLength None
            (set_currentIncomingSegmentedPayload (Some (segmentOf p))
               (set_currentIncomingSegmentedMsgLength (Some len) s))),
       [HandleMatterMessagePayload (segmentOf p)])
    else
      (Throw (BtpProtocolError LengthMismatch),
       set_currentIncomingSegmentedPayload (Some (segmentOf p))
         (set_currentIncomingSegmentedMsgLength (Some len) s), []).
Proof.
  intros (Hb & He & Hl) Hc. unfold reassemble.
  rewrite (bind_Normal _ (addSegment_begin p s Hb Hc)). rewrite Hl.
  destruct (Z.eqb_spec (blength (segmentOf p)) len) as [Heq | Hneq].
  - erewrite completeMessage_deliver; [reflexivity | exact He | reflexivity | reflexivity
                                       | exact Heq].
  - erewrite completeMessage_mismatch; [reflexivity | exact He | reflexivity | reflexivity
                                        | exact Hneq].
Qed.

Arguments reassemble_single {p s len} _ _.

(** Sequences of frames. *)

Lemma inOrder_cons_inv prevSeq prevAck seqNo p rest :
  inOrder prevSeq prevAck seqNo (p :: rest) ->
  BtpPayload.sequenceNumber (payload p) = Z.rem (prevSeq + 1) 256
  /\ match carriedAck p with
     | None => True
     | Some ackNumber => prevAck < ackNumber <= seqNo
     end
  /\ inOrder (BtpPayload.sequenceNumber (payload p))
       (match carriedAck p with Some a => a | None => prevAck end) seqNo rest.
Proof.
  cbn [inOrder]. intros [Hseq Hrest].
  destruct (carriedAck p); [destruct Hrest | ]; auto.
Qed.

Arguments inOrder_cons_inv {prevSeq prevAck seqNo p rest} _.

Lemma inOrder_app seqNo ps1 : forall prevSeq prevAck ps2,
  inOrder prevSeq prevAck seqNo (ps1 ++ ps2) ->
  inOrder prevSeq prevAck seqNo ps1
  /\ inOrder (lastSeq prevSeq ps1) (lastAck prevAck ps1) seqNo ps2.
Proof.
  induction ps1 as [ | p ps1 IH]; intros prevSeq prevAck ps2 H; [split; [exact I | exact H] | ].
  cbn [app inOrder lastSeq lastAck] in *. destruct H as [Hseq H].
  destruct (carriedAck p) as [a | ].
  - destruct H as [Ha H]. destruct (IH _ _ _ H). auto.
  - destruct (IH _ _ _ H). auto.
Qed.

Lemma lastSeq_app ps1 : forall prevSeq ps2,
  lastSeq prevSeq (ps1 ++ ps2) = lastSeq (lastSeq prevSeq ps1) ps2.
Proof. induction ps1 as [ | p ps1 IH]; intros; cbn; auto. Qed.

Lemma lastAck_app ps1 : forall prevAck ps2,
  lastAck prevAck (ps1 ++ ps2) = lastAck (lastAck prevAck ps1) ps2.
Proof. induction ps1 as [ | p ps1 IH]; intros; cbn; auto. Qed.

Lemma receives_nil E s : receives E [] s s [].
Proof. reflexivity. Qed.

Lemma receives_cons E data datas s s1 s2 t1 t2 :
  handleIncomingBleData E data s = (Normal tt, s1, t1) ->
  receives E datas s1 s2 t2 ->
  receives E (data :: datas) s s2 (t1 ++ t2).
Proof.
  unfold receives. intros H1 H2. cbn [receive].
  rewrite (bind_Normal _ H1), H2. reflexivity.
Qed.

Arguments receives_cons {E data datas s s1 s2 t1 t2} _ _.

Lemma receives_app E datas1 : forall datas2 s s1 s2 t1 t2,
  receives E datas1 s s1 t1 ->
  receives E datas2 s1 s2 t2 ->
  receives E (datas1 ++ datas2) s s2 (t1 ++ t2).
Proof.
  induction datas1 as [ | data datas1 IH]; intros datas2 s s1 s2 t1 t2 H1 H2.
  - unfold receives in H1. cbn in H1. injection H1 as <- <-. exact H2.
  - unfold receives in *. cbn [receive app] in *.
    unfold bind in H1 |- *.
    destruct (handleIncomingBleData E data s) as [[[[] | e | ] sa] ta]; try discriminate.
    destruct (receive E datas1 sa) as [[c sb] tb] eqn:Hr.
    injection H1 as -> -> <-.
    rewrite (IH datas2 sa s1 s2 tb t2 Hr H2). rewrite app_assoc. reflexivity.
Qed.

Arguments receives_app {E datas1 datas2 s s1 s2 t1 t2} _ _.

(** A frame that passes all the checks and whose reassembly returns. *)
Lemma frame_receives E data s p fragSize seqNo prevSeq prevAck len cur s3 t3 :
  inboundIs s fragSize seqNo prevSeq prevAck len cur ->
  decodesTo E fragSize data p ->
  inOrder prevSeq prevAck seqNo [p] ->
  reassemble p (headerAccepted p s) = (Normal tt, s3, t3) ->
  handleIncomingBleData E data s = (Normal tt, s3, headerEvents p s ++ t3).
Proof.
  intros (H1 & H2 & H3 & H4 & H5 & H6) Hdec Hord Hre.
  apply inOrder_cons_inv in Hord as (Hseq & Hack & _).
  rewrite (handleIncomingBleData_header E data s p).
  - rewrite (try_catch_Normal _ Hre). reflexivity.
  - rewrite H1. exact Hdec.
  - unfold expectedSequenceNumber. rewrite H3. exact Hseq.
  - unfold ackOk. rewrite H2, H4. exact Hack.
Qed.

Arguments frame_receives E {data s p fragSize seqNo prevSeq prevAck len cur s3 t3} _ _ _ _.

(** The continuing frames add their payloads to the message under way. *)
Lemma receive_continues E fragSize seqNo len cs : forall datas s prevSeq prevAck current,
  Forall2 (decodesTo E fragSize) datas cs ->
  Forall continueFrame cs ->
  inboundIs s fragSize seqNo prevSeq prevAck len (Some current) ->
  inOrder prevSeq prevAck seqNo cs ->
  exists s' t,
    receives E datas s s' t
    /\ delivered t = []
    /\ inboundIs s' fragSize seqNo (lastSeq prevSeq cs) (lastAck prevAck cs) len
         (Some (current ++ concat (map segmentOf cs))).
Proof.
  induction cs as [ | p cs IH]; intros datas s prevSeq prevAck current Hdec Hcs Hs Hord.
  - inversion Hdec; subst. exists s, []. cbn. rewrite app_nil_r.
    repeat split; try apply Hs.
  - inversion Hdec as [ | data p' datas' cs' Hd Hds]; subst.
    inversion Hcs as [ | p' cs' Hp Hcs']; subst.
    pose proof (inOrder_cons_inv Hord) as (Hseq & Hack & Hrest).
    pose proof (inboundIs_headerAccepted p Hs) as Hs2.
    assert (Hre := reassemble_continue p (headerAccepted p s) current Hp
                     (proj2 (proj2 (proj2 (proj2 (proj2 Hs2)))))).
    assert (Hone : inOrder prevSeq prevAck seqNo [p]).
    { cbn. split; [exact Hseq | ]. destruct (carriedAck p); auto. }
    pose proof (frame_receives E Hs Hd Hone Hre) as Hh.
    destruct (IH datas'
                (set_currentIncomingSegmentedPayload (Some (current ++ segmentOf p))
                   (headerAccepted p s))
                (BtpPayload.sequenceNumber (payload p))
                (match carriedAck p with Some a => a | None => prevAck end)
                (current ++ segmentOf p) Hds Hcs')
      as (s' & t & Hr & Hdel & Hs').
    + destruct Hs2 as (G1 & G2 & G3 & G4 & G5 & G6). repeat split; assumption.
    + exact Hrest.
    + exists s', ((headerEvents p s ++ []) ++ t). split; [ | split].
      * exact (receives_cons Hh Hr).
      * rewrite !delivered_app, delivered_headerEvents, Hdel. reflexivity.
      * cbn [map concat lastSeq lastAck]. rewrite app_assoc. exact Hs'.
Qed.

Arguments receive_continues E {fragSize seqNo len cs datas s prevSeq prevAck current} _ _ _ _.

Lemma inboundIs_reassembly s fragSize seqNo prevSeq prevAck len cur len' cur' :
  inboundIs s fragSize seqNo prevSeq prevAck len cur ->
  inboundIs
    (set_currentIncomingSegmentedPayload cur'
       (set_currentIncomingSegmentedMsgLength len' s))
    fragSize seqNo prevSeq prevAck len' cur'.
Proof. intros (H1 & H2 & H3 & H4 & H5 & H6). repeat split; assumption. Qed.

Arguments inboundIs_reassembly {s fragSize seqNo prevSeq prevAck len cur} len' cur' _.

Lemma inboundIs_payload s fragSize seqNo prevSeq prevAck len cur cur' :
  inboundIs s fragSize seqNo prevSeq prevAck len cur ->
  inboundIs (set_currentIncomingSegmentedPayload cur' s)
    fragSize seqNo prevSeq prevAck len cur'.
Proof. intros (H1 & H2 & H3 & H4 & H5 & H6). repeat split; assumption. Qed.

Lemma inOrder_one prevSeq prevAck seqNo p rest :
  inOrder prevSeq prevAck seqNo (p :: rest) -> inOrder prevSeq prevAck seqNo [p].
Proof.
  cbn [inOrder]. intros [Hseq H]. split; [exact Hseq | ].
  destruct (carriedAck p); [destruct H; auto | exact I].
Qed.

(** The frames of one well-formed message: the message is handed over once,
    whole, and no reassembly is under way afterwards. *)
Lemma receive_message E fragSize seqNo ps m :
  messageFrames ps m ->
  forall datas s prevSeq prevAck len,
    Forall2 (decodesTo E fragSize) datas ps ->
    inboundIs s fragSize seqNo prevSeq prevAck len None ->
    inOrder prevSeq prevAck seqNo ps ->
    exists s' t,
      receives E datas s s' t
      /\ delivered t = [m]
      /\ inboundIs s' fragSize seqNo (lastSeq prevSeq ps) (lastAck prevAck ps) None None.
Proof.
  intros Hm. destruct Hm as [p Hp | b cs e Hb Hcs He];
    intros datas s prevSeq prevAck len Hdec Hs Hord.
  - inversion Hdec as [ | data p' datas' ps' Hd Hds]; subst. inversion Hds; subst.
    pose proof (inboundIs_headerAccepted p Hs) as Hs2.
    pose proof (reassemble_single (s := headerAccepted p s) Hp
                  (proj2 (proj2 (proj2 (proj2 (proj2 Hs2)))))) as Hre.
    rewrite Z.eqb_refl in Hre.
    pose proof (frame_receives E Hs Hd Hord Hre) as Hh.
    eexists. eexists. split; [ | split].
    + exact (receives_cons Hh (receives_nil E _)).
    + rewrite !delivered_app, delivered_headerEvents. reflexivity.
    + cbn [lastSeq lastAck].
      eapply inboundIs_reassembly, inboundIs_reassembly. exact Hs2.
  - inversion Hdec as [ | data b' datas' ps' Hd Hds]; subst.
    apply Forall2_app_inv_r in Hds as (datasC & datasE & HdC & HdE & ->).
    inversion HdE as [ | dataE e' dE' pE' Hde Hnil]; subst. inversion Hnil; subst.
    pose proof (inOrder_cons_inv Hord) as (_ & _ & Hrest).
    apply inOrder_app in Hrest as [HordC HordE].
    (* the beginning frame *)
    pose proof (inboundIs_headerAccepted b Hs) as Hs2.
    pose proof (reassemble_begin (s := headerAccepted b s) Hb
                  (proj2 (proj2 (proj2 (proj2 (proj2 Hs2)))))) as HreB.
    pose proof (frame_receives E Hs Hd (inOrder_one _ _ _ _ _ Hord) HreB) as HhB.
    pose proof (inboundIs_reassembly
                  (Some (blength (segmentOf b ++ concat (map segmentOf cs) ++ segmentOf e)))
                  (Some (segmentOf b)) Hs2) as Hs3.
    (* the continuing frames *)
    destruct (receive_continues E HdC Hcs Hs3 HordC)
      as (s4 & t4 & Hr4 & Hdel4 & Hs4).
    (* the ending frame *)
    pose proof (inboundIs_headerAccepted e Hs4) as Hs5.
    pose proof (reassemble_end (s := headerAccepted e s4) He
                  (proj2 (proj2 (proj2 (proj2 (proj2 Hs5)))))
                  (proj1 (proj2 (proj2 (proj2 (proj2 Hs5)))))) as HreE.
    rewrite <- app_assoc, Z.eqb_refl in HreE.
    pose proof (frame_receives E Hs4 Hde HordE HreE) as HhE.
    eexists. eexists. split; [ | split].
    + exact (receives_cons HhB
               (receives_app Hr4 (receives_cons HhE (receives_nil E _)))).
    + rewrite !delivered_app, !delivered_headerEvents, Hdel4. reflexivity.
    + cbn [lastSeq lastAck]. rewrite lastSeq_app, lastAck_app. cbn [lastSeq lastAck].
      eapply inboundIs_reassembly, inboundIs_payload. exact Hs5.
Qed.

Arguments receive_message E {fragSize seqNo ps m} _ datas s prevSeq prevAck len _ _ _.

Lemma receive_messages E fragSize seqNo ps msgs :
  messagesFrames ps msgs ->
  forall datas s prevSeq prevAck len,
    Forall2 (decodesTo E fragSize) datas ps ->
    inboundIs s fragSize seqNo prevSeq prevAck len None ->
    inOrder prevSeq prevAck seqNo ps ->
    exists s' t,
      receives E datas s s' t
      /\ delivered t = msgs
      /\ currentIncomingSegmentedPayload s' = None.
Proof.
  induction 1 as [ | ps m rest ms Hm Hrest IH]; intros datas s prevSeq prevAck len Hdec Hs Hord.
  - inversion Hdec; subst. exists s, []. repeat split. apply Hs.
  - apply Forall2_app_inv_r in Hdec as (datas1 & datas2 & Hd1 & Hd2 & ->).
    apply inOrder_app in Hord as [Hord1 Hord2].
    destruct (receive_message E Hm datas1 s prevSeq prevAck len Hd1 Hs Hord1)
      as (s1 & t1 & Hr1 & Hdel1 & Hs1).
    destruct (IH datas2 s1 _ _ _ Hd2 Hs1 Hord2) as (s2 & t2 & Hr2 & Hdel2 & Hc2).
    exists s2, (t1 ++ t2). split; [ | split].
    + exact (receives_app Hr1 Hr2).
    + rewrite delivered_app, Hdel1, Hdel2. reflexivity.
    + exact Hc2.
Qed.

Lemma handleIncomingBleData_try_header E data s p :
  decodesTo E (fragmentSize s) data p ->
  BtpPayload.sequenceNumber (payload p) = expectedSequenceNumber s ->
  ackOk s p ->
  handleIncomingBleData_try E data s
  = (completionOf (reassemble p (headerAccepted p s)),
     stateOf (reassemble p (headerAccepted p s)),
     headerEvents p s ++ traceOf (reassemble p (headerAccepted p s))).
Proof.
  intros (Hsize & Hdec & Hctl & Hne) Hseq Hack.
  rewrite (handleIncomingBleData_try_decoded Hsize Hdec).
  rewrite (bind_Normal _ (checkSequence_ok p s Hctl Hne Hseq)).
  rewrite afterSequenceCheck_unfold. unfold headerAccepted, headerEvents, ackOk in *.
  destruct (carriedAck p) as [ackNumber | ] eqn:Hc.
  - assert (Hca : checkAck p (sequenceAccepted p s)
                  = (Normal tt, ackAccepted ackNumber (sequenceAccepted p s),
                     ackReceiveTimerRestarted ackNumber s)).
    { replace (ackReceiveTimerRestarted ackNumber s)
        with (ackReceiveTimerRestarted ackNumber (sequenceAccepted p s))
        by (unfold ackReceiveTimerRestarted;
            rewrite sequenceAccepted_sequenceNumber; reflexivity).
      apply checkAck_valid; [assumption | ].
      rewrite sequenceAccepted_prevIncomingAckNumber, sequenceAccepted_sequenceNumber.
      assumption. }
    rewrite (bind_Normal _ Hca). unfold completionOf, stateOf, traceOf.
    cbn [fst snd]. rewrite <- app_assoc. reflexivity.
  - rewrite (bind_Normal _ (checkAck_none p _ Hc)).
    unfold completionOf, stateOf, traceOf. cbn [fst snd app]. rewrite app_nil_r.
    reflexivity.
Qed.

Lemma delivered_close s : delivered (traceOf (close s)) = [].
Proof. rewrite close_trace. destruct (isActive s); reflexivity. Qed.

(** C8, as amended.  Take inbound buffers that are each within the size
    limit and decode to data frames with a payload or an acknowledgement,
    with consecutive sequence numbers modulo 256 and acknowledgements that
    the session accepts, and that form well-formed messages: a message is
    either one frame that begins and ends it, or a beginning frame, any
    number of continuing frames and an ending frame, the continuing and the
    ending frames with a payload that is not empty, and the length announced
    by the first frame is the length of all the payloads together.  Then
    every buffer is handled without an error and [handleMatterMessagePayload]
    is called once per message, in the order of arrival, with the payloads of
    the message put together.  An ending frame that brings the payload under
    way to a length that is not the announced one raises the length error
    instead: nothing is handed over and the session is closed. *)
Theorem reassembly E :
  (forall s datas ps msgs,
      currentIncomingSegmentedPayload s = None ->
      Forall2 (decodesTo E (fragmentSize s)) datas ps ->
      inOrder (prevIncomingSequenceNumber s) (prevIncomingAckNumber s)
        (sequenceNumber s) ps ->
      messagesFrames ps msgs ->
      completionOf (receive E datas s) = Normal tt
      /\ delivered (traceOf (receive E datas s)) = msgs
      /\ currentIncomingSegmentedPayload (stateOf (receive E datas s)) = None)
  /\ (forall s data p current len,
         currentIncomingSegmentedPayload s = Some current ->
         currentIncomingSegmentedMsgLength s = Some len ->
         decodesTo E (fragmentSize s) data p ->
         inOrder (prevIncomingSequenceNumber s) (prevIncomingAckNumber s)
           (sequenceNumber s) [p] ->
         endFrame p ->
         blength (current ++ segmentOf p) <> len ->
         completionOf (handleIncomingBleData_try E data s)
         = Throw (BtpProtocolError LengthMismatch)
         /\ completionOf (handleIncomingBleData E data s) = Normal tt
         /\ delivered (traceOf (handleIncomingBleData E data s)) = []
         /\ isActive (stateOf (handleIncomingBleData E data s)) = false).
Proof.
  split.
  - intros s datas ps msgs Hcur Hdec Hord Hmsgs.
    assert (Hs : inboundIs s (fragmentSize s) (sequenceNumber s)
                   (prevIncomingSequenceNumber s) (prevIncomingAckNumber s)
                   (currentIncomingSegmentedMsgLength s) None)
      by (repeat split; assumption).
    destruct (receive_messages E _ _ _ _ Hmsgs datas s _ _ _ Hdec Hs Hord)
      as (s' & t & Hr & Hdel & Hc).
    unfold receives in Hr. rewrite Hr. repeat split; assumption.
  - intros s data p current len Hcur Hlen Hdec Hord He Hneq.
    apply inOrder_cons_inv in Hord as (Hseq & Hack & _).
    assert (Hack' : ackOk s p) by exact Hack.
    pose proof (handleIncomingBleData_try_header E data s p Hdec Hseq Hack') as Htry.
    assert (Hs : inboundIs s (fragmentSize s) (sequenceNumber s)
                   (prevIncomingSequenceNumber s) (prevIncomingAckNumber s)
                   (Some len) (Some current))
      by (repeat split; assumption).
    pose proof (inboundIs_headerAccepted p Hs) as Hs2.
    pose proof (reassemble_end (s := headerAccepted p s) He
                  (proj2 (proj2 (proj2 (proj2 (proj2 Hs2)))))
                  (proj1 (proj2 (proj2 (proj2 (proj2 Hs2)))))) as Hre.
    destruct (Z.eqb_spec (blength (current ++ segmentOf p)) len) as [Heq | _];
      [contradiction | ].
    rewrite Hre in Htry. unfold completionOf at 1, stateOf at 1, traceOf at 1 in Htry.
    cbn [fst snd] in Htry.
    split; [rewrite Htry; reflexivity | ].
    rewrite (handleIncomingBleData_Throw Htry).
    unfold completionOf, stateOf, traceOf. cbn [fst snd instanceof_BtpProtocolError].
    repeat split.
    rewrite !delivered_app, delivered_headerEvents.
    apply (delivered_close
             (set_currentIncomingSegmentedPayload (Some (current ++ segmentOf p))
                (headerAccepted p s))).
Qed.

Lemma reassembly_witness :
  (completionOf
     (receive testEnv
        [[x05; x00; x01; x00; xaa]; [x01; x01; x03; x00; x01]; [x00; x02; x02];
         [x04; x03; x03]] session0) = Normal tt
   /\ delivered
        (traceOf
           (receive testEnv
              [[x05; x00; x01; x00; xaa]; [x01; x01; x03; x00; x01]; [x00; x02; x02];
               [x04; x03; x03]] session0))
      = [[xaa]; [x01; x02; x03]]
   /\ currentIncomingSegmentedPayload
        (stateOf
           (receive testEnv
              [[x05; x00; x01; x00; xaa]; [x01; x01; x03; x00; x01]; [x00; x02; x02];
               [x04; x03; x03]] session0)) = None)
  /\ (completionOf (handleIncomingBleData_try testEnv [x04; x01; x02] sessionMidMessage)
      = Throw (BtpProtocolError LengthMismatch)
      /\ completionOf (handleIncomingBleData testEnv [x04; x01; x02] sessionMidMessage)
         = Normal tt
      /\ delivered (traceOf (handleIncomingBleData testEnv [x04; x01; x02]
                               sessionMidMessage)) = []
      /\ isActive (stateOf (handleIncomingBleData testEnv [x04; x01; x02]
                              sessionMidMessage)) = false).
Proof.
  split.
  - refine (proj1 (reassembly testEnv) session0
              [[x05; x00; x01; x00; xaa]; [x01; x01; x03; x00; x01]; [x00; x02; x02];
               [x04; x03; x03]]
              [frameSingle; frameBegin; frameContinue; frameEnd]
              [[xaa]; [x01; x02; x03]] _ _ _ _).
    + reflexivity.
    + repeat constructor; vm_compute; discriminate.
    + cbn. repeat split.
    + apply (messages_cons (ps := [frameSingle])
               (rest := [frameBegin; frameContinue; frameEnd])).
      * apply (@message_single frameSingle). repeat split.
      * apply (messages_cons (ps := [frameBegin; frameContinue; frameEnd]) (rest := [])).
        -- apply (@message_segments frameBegin [frameContinue] frameEnd).
           ++ repeat split.
           ++ repeat constructor. discriminate.
           ++ repeat split. discriminate.
        -- constructor.
  - refine (proj2 (reassembly testEnv) sessionMidMessage [x04; x01; x02]
              {| header := BtpHeader.Build false false false false true true;
                 payload := BtpPayload.Build None 1 None [x02] |}
              [x01] 3 _ _ _ _ _ _).
    + reflexivity.
    + reflexivity.
    + repeat split; vm_compute; discriminate.
    + cbn. repeat split.
    + repeat split. discriminate.
    + vm_compute. discriminate.
Defined.

(** C8, as stated, fails: the frame [01 00 03 00 01 02 03] begins a message
    of 3 bytes with its 3 bytes, and the frame [0c 00 01] ends it with an
    empty payload (it carries the acknowledgement 0): the sequence numbers are
    0 and 1 and the accumulated length is the announced one.  The ending
    frame is refused because its payload is empty: nothing is handed to the
    upper layer and the session is closed. *)
Lemma empty_ending_frame_not_delivered :
  decodeBtpPacket testEnv [x01; x00; x03; x00; x01; x02; x03]
  = inr {| header := BtpHeader.Build false false false true false false;
           payload := BtpPayload.Build None 0 (Some 3) [x01; x02; x03] |}
  /\ decodeBtpPacket testEnv [x0c; x00; x01]
     = inr {| header := BtpHeader.Build false false true false true true;
              payload := BtpPayload.Build (Some 0) 1 None [] |}
  /\ handleIncomingBleData_try testEnv [x0c; x00; x01]
       (stateOf (receive testEnv [[x01; x00; x03; x00; x01; x02; x03]] session0))
     = (Throw (BtpProtocolError EmptySegment),
        set_ackReceiveTimer {| isRunning := false |}
          (set_prevIncomingAckNumber 0
             (set_prevIncomingSequenceNumber 1
                (stateOf (receive testEnv [[x01; x00; x03; x00; x01; x02; x03]]
                            session0)))),
        [TimerStop AckReceiveTimer])
  /\ delivered
       (traceOf (receive testEnv [[x01; x00; x03; x00; x01; x02; x03]; [x0c; x00; x01]]
                   session0)) = []
  /\ isActive
       (stateOf (receive testEnv [[x01; x00; x03; x00; x01; x02; x03]; [x0c; x00; x01]]
                   session0)) = false.
Proof. repeat split. Qed.

(** * Further properties of the session handler *)

(** ** The negotiated parameters *)

Lemma negotiateAttMtu_range maxDataSize handshakeMtu :
  MINIMUM_ATT_MTU <= negotiateAttMtu maxDataSize handshakeMtu <= MAXIMUM_BTP_MTU.
Proof.
  unfold negotiateAttMtu, MINIMUM_ATT_MTU, MAXIMUM_BTP_MTU.
  destruct maxDataSize as [m | ]; [ | lia].
  destruct (Z.gtb_spec (m + 3) 23); destruct (Z.leb_spec handshakeMtu 23); lia.
Qed.

(** X1.  The negotiated ATT_MTU is never below the minimum of 23 nor above the
    maximum of 247; it does not exceed the size of the link plus the 3 bytes
    of the GATT header once this is above the minimum, and it does not exceed
    an ATT_MTU above the minimum that the peer proposed.  A peer that
    proposed the minimum or less is answered with the size of the link. *)
Theorem negotiateAttMtu_bounds maxDataSize handshakeMtu :
  MINIMUM_ATT_MTU <= negotiateAttMtu maxDataSize handshakeMtu <= MAXIMUM_BTP_MTU
  /\ (forall m, maxDataSize = Some m -> m + 3 > MINIMUM_ATT_MTU ->
                negotiateAttMtu maxDataSize handshakeMtu <= m + 3)
  /\ (handshakeMtu > MINIMUM_ATT_MTU ->
      negotiateAttMtu maxDataSize handshakeMtu <= handshakeMtu)
  /\ (forall m, maxDataSize = Some m -> m + 3 > MINIMUM_ATT_MTU ->
                handshakeMtu <= MINIMUM_ATT_MTU ->
                negotiateAttMtu maxDataSize handshakeMtu = Z.min (m + 3) MAXIMUM_BTP_MTU).
Proof.
  unfold negotiateAttMtu, MINIMUM_ATT_MTU, MAXIMUM_BTP_MTU.
  destruct maxDataSize as [m | ].
  - destruct (Z.gtb_spec (m + 3) 23); destruct (Z.leb_spec handshakeMtu 23);
      repeat split; intros; try (injection H as <-); try lia;
      match goal with H : Some _ = Some _ |- _ => injection H as <- end; lia.
  - repeat split; intros; try discriminate; lia.
Qed.

(** X2.  A session that the factory returns: its fragments have 20 to 244 bytes,
    its window is the one the peer asked for and at most 255, it is the
    session the constructor builds, and what the factory did was to start the
    ack-receive timer and to write one buffer, the encoded response. *)
Theorem createFromHandshakeRequest_session E maxDataSize handshakeRequestPayload s t :
  createFromHandshakeRequest E maxDataSize handshakeRequestPayload = (Normal s, t) ->
  20 <= fragmentSize s <= 244
  /\ clientWindowSize s <= 255
  /\ s = freshSession (fragmentSize s) (clientWindowSize s)
  /\ exists handshakeRequest handshakeResponse,
      decodeBtpHandshakeRequest E handshakeRequestPayload = inr handshakeRequest
      /\ In 4 (BtpHandshakeRequest.versions handshakeRequest)
      /\ clientWindowSize s
         = Z.min 255 (BtpHandshakeRequest.clientWindowSize handshakeRequest)
      /\ encodeBtpHandshakeResponse E
           (BtpHandshakeResponse.Build 4 (fragmentSize s + 3) (clientWindowSize s))
         = inr handshakeResponse
      /\ writeBleCallback E handshakeResponse = None
      /\ t = [TimerStart AckReceiveTimer; WriteBle handshakeResponse].
Proof.
  unfold createFromHandshakeRequest.
  destruct (decodeBtpHandshakeRequest E handshakeRequestPayload) as [e | req] eqn:Hdec;
    [discriminate | ].
  rewrite find_supported_version.
  destruct (existsb (Z.eqb 4) (BtpHandshakeRequest.versions req)) eqn:Hv; [ | discriminate].
  cbv zeta.
  destruct (encodeBtpHandshakeResponse E _) as [e | resp] eqn:Henc; [discriminate | ].
  rewrite new_BtpSessionHandler_4.
  destruct (writeBleCallback E resp) eqn:Hw; [discriminate | ].
  intro H. injection H as <- <-. cbn [fragmentSize clientWindowSize freshSession].
  pose proof (negotiateAttMtu_range maxDataSize (BtpHandshakeRequest.attMtu req))
    as Hb.
  unfold MINIMUM_ATT_MTU, MAXIMUM_BTP_MTU, MAXIMUM_WINDOW_SIZE in *.
  repeat split; try lia.
  exists req, resp. repeat split; try assumption.
  - apply includes_spec. exact Hv.
  - replace (negotiateAttMtu maxDataSize (BtpHandshakeRequest.attMtu req) - 3 + 3)
      with (negotiateAttMtu maxDataSize (BtpHandshakeRequest.attMtu req)) by lia.
    exact Henc.
Qed.

Lemma createFromHandshakeRequest_session_witness :
  20 <= fragmentSize session0 <= 244
  /\ clientWindowSize session0 <= 255
  /\ session0 = freshSession (fragmentSize session0) (clientWindowSize session0)
  /\ exists handshakeRequest handshakeResponse,
      decodeBtpHandshakeRequest testEnv [x65; x6c; x04; x00; x00; x00; xb9; x00; x06]
      = inr handshakeRequest
      /\ In 4 (BtpHandshakeRequest.versions handshakeRequest)
      /\ clientWindowSize session0
         = Z.min 255 (BtpHandshakeRequest.clientWindowSize handshakeRequest)
      /\ encodeBtpHandshakeResponse testEnv
           (BtpHandshakeResponse.Build 4 (fragmentSize session0 + 3)
              (clientWindowSize session0))
         = inr handshakeResponse
      /\ writeBleCallback testEnv handshakeResponse = None
      /\ [TimerStart AckReceiveTimer; WriteBle [x65; x6c; x04; x17; x00; x06]]
         = [TimerStart AckReceiveTimer; WriteBle handshakeResponse].
Proof.
  apply (createFromHandshakeRequest_session testEnv (Some 20)
           [x65; x6c; x04; x00; x00; x00; xb9; x00; x06]).
  reflexivity.
Defined.

(** ** Frames that are refused *)

Lemma handleIncomingBleData_try_decode_error E data s e :
  blength data <= fragmentSize s + 3 ->
  decodeBtpPacket E data = inl e ->
  handleIncomingBleData_try E data s = (Throw e, s, []).
Proof.
  intros Hsize Hdec. unfold handleIncomingBleData_try.
  rewrite (bind_Normal _ (checkFragmentSize_ok data s Hsize)).
  rewrite Hdec. reflexivity.
Qed.

(** X3.  A buffer that is refused before its sequence number is recorded leaves
    the session as [close] alone would: the counters, the timers' events and
    the reassembly are those of [close] on the state before the call.  A
    buffer of more than [fragmentSize + 3] bytes is refused whatever it
    holds; a buffer of at most that size is refused when the decoder fails,
    and then an error that is not a [BtpProtocolError] reaches the caller;
    a decoded frame is refused when it is a handshake or management frame,
    when it has neither payload nor acknowledgement, and when its sequence
    number is not the expected one. *)
Theorem handleIncomingBleData_refused E data s :
  (blength data > fragmentSize s + 3 ->
   handleIncomingBleData E data s = (Normal tt, closed s, traceOf (close s)))
  /\ (blength data <= fragmentSize s + 3 ->
      forall e, decodeBtpPacket E data = inl e ->
      handleIncomingBleData E data s
      = (if instanceof_BtpProtocolError e then Normal tt else Throw e,
         closed s, traceOf (close s)))
  /\ (blength data <= fragmentSize s + 3 ->
      forall p, decodeBtpPacket E data = inr p ->
      isControlFrame p = true
      \/ isEmptyFrame p = true
      \/ BtpPayload.sequenceNumber (payload p) <> expectedSequenceNumber s ->
      handleIncomingBleData E data s = (Normal tt, closed s, traceOf (close s))).
Proof.
  split; [ | split].
  - intro Hbig.
    assert (Htry : handleIncomingBleData_try E data s
                   = (Throw (BtpProtocolError OversizedFrame), s, [])).
    { unfold handleIncomingBleData_try.
      apply bind_Throw, checkFragmentSize_oversized. exact Hbig. }
    rewrite (handleIncomingBleData_Throw Htry). reflexivity.
  - intros Hsize e Hdec.
    rewrite (handleIncomingBleData_Throw
               (handleIncomingBleData_try_decode_error E data s e Hsize Hdec)).
    reflexivity.
  - intros Hsize p Hdec Hbad.
    assert (Htry : exists k, handleIncomingBleData_try E data s
                             = (Throw (BtpProtocolError k), s, [])).
    { rewrite (handleIncomingBleData_try_decoded Hsize Hdec).
      destruct (isControlFrame p) eqn:Hctl.
      - exists UnexpectedControlFrame. apply bind_Throw, checkSequence_control. exact Hctl.
      - destruct (isEmptyFrame p) eqn:Hne.
        + exists EmptyFrame. apply bind_Throw, checkSequence_empty; assumption.
        + exists SequenceGap. apply bind_Throw, checkSequence_gap; try assumption.
          destruct Hbad as [H | [H | H]]; try discriminate. exact H. }
    destruct Htry as [k Htry]. rewrite (handleIncomingBleData_Throw Htry). reflexivity.
Qed.

Lemma handleIncomingBleData_refused_witness :
  handleIncomingBleData testEnv (repeat x00 24) session0
  = (Normal tt, closed session0, traceOf (close session0))
  /\ handleIncomingBleData testEnv [] session0
     = (Throw BtpCodec.RangeError, closed session0, traceOf (close session0))
  /\ handleIncomingBleData testEnv [x04; x07; xaa] session0
     = (Normal tt, closed session0, traceOf (close session0)).
Proof.
  split; [ | split].
  - apply (proj1 (handleIncomingBleData_refused testEnv (repeat x00 24) session0)).
    reflexivity.
  - refine (proj1 (proj2 (handleIncomingBleData_refused testEnv [] session0))
              _ BtpCodec.RangeError _).
    + vm_compute. discriminate.
    + reflexivity.
  - refine (proj2 (proj2 (handleIncomingBleData_refused testEnv [x04; x07; xaa] session0))
              _ {| header := BtpHeader.Build false false false false true true;
                   payload := BtpPayload.Build None 7 None [xaa] |} _ _).
    + vm_compute. discriminate.
    + reflexivity.
    + right. right. vm_compute. discriminate.
Defined.

(** ** Frames out of place in a message *)

(** X4.  For a frame that has passed the checks on its size, flags, sequence
    number and acknowledgement: a beginning frame while a message is under
    way, a continuing or ending frame while none is, and a continuing or
    ending frame with an empty payload each raise their error; the call
    returns normally, nothing is handed to the upper layer, the session is
    closed and the payload under way is left as it was.  A frame with no
    segment flag at all is accepted and its payload is dropped. *)
Theorem reassembly_violations E data s p :
  decodesTo E (fragmentSize s) data p ->
  BtpPayload.sequenceNumber (payload p) = expectedSequenceNumber s ->
  ackOk s p ->
  let refusedWith kind :=
    handleIncomingBleData_try E data s
    = (Throw (BtpProtocolError kind), headerAccepted p s, headerEvents p s)
    /\ handleIncomingBleData E data s
       = (Normal tt, closed (headerAccepted p s),
          headerEvents p s ++ traceOf (close (headerAccepted p s)))
    /\ delivered (traceOf (handleIncomingBleData E data s)) = []
    /\ currentIncomingSegmentedPayload (stateOf (handleIncomingBleData E data s))
       = currentIncomingSegmentedPayload s in
  (BtpHeader.isBeginningSegment (header p) = true ->
   currentIncomingSegmentedPayload s <> None ->
   refusedWith UnexpectedBegin)
  /\ (BtpHeader.isBeginningSegment (header p) = false ->
      BtpHeader.isContinuingSegment (header p)
      || BtpHeader.isEndingSegment (header p) = true ->
      (currentIncomingSegmentedPayload s = None -> refusedWith MissingBegin)
      /\ (currentIncomingSegmentedPayload s <> None -> segmentOf p = [] ->
          refusedWith EmptySegment))
  /\ (BtpHeader.isBeginningSegment (header p) = false ->
      BtpHeader.isContinuingSegment (header p) = false ->
      BtpHeader.isEndingSegment (header p) = false ->
      handleIncomingBleData E data s = (Normal tt, headerAccepted p s, headerEvents p s)).
Proof.
  intros Hdec Hseq Hack refusedWith.
  pose proof (handleIncomingBleData_try_header E data s p Hdec Hseq Hack) as Htry.
  assert (Hcur : currentIncomingSegmentedPayload (headerAccepted p s)
                 = currentIncomingSegmentedPayload s).
  { unfold headerAccepted, ackAccepted, sequenceAccepted.
    destruct (carriedAck p); destruct (isRunning (sendAckTimer s)); reflexivity. }
  assert (Hrefused : forall kind,
             reassemble p (headerAccepted p s)
             = (Throw (BtpProtocolError kind), headerAccepted p s, []) ->
             refusedWith kind).
  { intros kind Hre. unfold refusedWith. rewrite Hre in Htry.
    unfold completionOf, stateOf, traceOf in Htry. cbn [fst snd] in Htry.
    rewrite app_nil_r in Htry. split; [exact Htry | ].
    rewrite (handleIncomingBleData_Throw Htry). cbn [instanceof_BtpProtocolError].
    unfold stateOf, traceOf. cbn [fst snd]. repeat split.
    - rewrite delivered_app, delivered_headerEvents. apply delivered_close.
    - exact Hcur. }
  split; [ | split].
  - intros Hb Hbusy. apply Hrefused. unfold reassemble.
    destruct (currentIncomingSegmentedPayload s) as [current | ] eqn:Hc;
      [ | contradiction].
    apply bind_Throw, addSegment_begin_unexpected with current; [exact Hb | ].
    rewrite Hcur. reflexivity.
  - intros Hb Hce. split.
    + intro Hnone. apply Hrefused. unfold reassemble. apply bind_Throw.
      unfold addSegment, bind, get, throw. cbn. rewrite Hb, Hce, Hcur, Hnone.
      reflexivity.
    + intros Hbusy Hempty. apply Hrefused. unfold reassemble.
      destruct (currentIncomingSegmentedPayload s) as [current | ] eqn:Hc;
        [ | contradiction].
      apply bind_Throw, addSegment_next_empty with current; assumption.
  - intros Hb Hc He.
    assert (Hre : reassemble p (headerAccepted p s) = (Normal tt, headerAccepted p s, [])).
    { unfold reassemble, addSegment, completeMessage, bind, get, ret. cbn.
      rewrite Hb, Hc, He. reflexivity. }
    rewrite Hre in Htry. unfold completionOf, stateOf, traceOf in Htry.
    cbn [fst snd] in Htry. rewrite app_nil_r in Htry.
    apply (handleIncomingBleData_Normal Htry).
Qed.

Lemma reassembly_violations_witness :
  handleIncomingBleData_try testEnv [x05; x01; x01; x00; xaa] sessionMidMessage
   = (Throw (BtpProtocolError UnexpectedBegin),
      headerAccepted
        {| header := BtpHeader.Build false false false true false true;
           payload := BtpPayload.Build None 1 (Some 1) [xaa] |} sessionMidMessage,
      headerEvents
        {| header := BtpHeader.Build false false false true false true;
           payload := BtpPayload.Build None 1 (Some 1) [xaa] |} sessionMidMessage)
   /\ handleIncomingBleData testEnv [x05; x01; x01; x00; xaa] sessionMidMessage
      = (Normal tt,
         closed (headerAccepted
                   {| header := BtpHeader.Build false false false true false true;
                      payload := BtpPayload.Build None 1 (Some 1) [xaa] |}
                   sessionMidMessage),
         headerEvents
           {| header := BtpHeader.Build false false false true false true;
              payload := BtpPayload.Build None 1 (Some 1) [xaa] |} sessionMidMessage
         ++ traceOf (close (headerAccepted
                              {| header := BtpHeader.Build false false false true false true;
                                 payload := BtpPayload.Build None 1 (Some 1) [xaa] |}
                              sessionMidMessage)))
   /\ delivered (traceOf (handleIncomingBleData testEnv [x05; x01; x01; x00; xaa]
                            sessionMidMessage)) = []
   /\ currentIncomingSegmentedPayload
        (stateOf (handleIncomingBleData testEnv [x05; x01; x01; x00; xaa]
                    sessionMidMessage))
      = currentIncomingSegmentedPayload sessionMidMessage.
Proof.
  refine (proj1 (reassembly_violations testEnv [x05; x01; x01; x00; xaa]
                   sessionMidMessage
                   {| header := BtpHeader.Build false false false true false true;
                      payload := BtpPayload.Build None 1 (Some 1) [xaa] |} _ _ _) _ _).
  - repeat split; vm_compute; discriminate.
  - reflexivity.
  - exact I.
  - reflexivity.
  - discriminate.
Defined.

(** ** One pass of the send loop *)

(** The pass in closed form: the acknowledgement is booked, the cursor moved
    and the sequence number taken before the packet is encoded, so an error
    of the encoder or of the transport leaves them so. *)
Lemma sendSegment_run E cur s :
  sendSegment E cur s
  = match encodeBtpPacket E (segmentPacket s cur) with
    | inl e => (Throw e, segmentRead s cur, segmentEventsBefore s)
    | inr packet =>
        match writeBleCallback E packet with
        | Some e =>
            (Throw e, segmentRead s cur, segmentEventsBefore s ++ [WriteBle packet])
        | None =>
            (Normal (windowFull (segmentSent s cur)), segmentSent s cur,
             segmentEventsBefore s ++ [WriteBle packet] ++ segmentEventsAfter s)
        end
    end.
Proof.
  unfold sendSegment, segmentPacket, segmentSent, segmentRead, segmentEventsBefore,
    segmentEventsAfter, segmentIsEnding, btpHeaderLength, segmentIsBeginning,
    segmentHasAck, writeBle, timer_start, timer_stop, lift.
  unfold bind at 1. unfold get at 1. cbv beta iota.
  destruct (readByteArray cur _) as [segmentPayload advanced]. cbn [fst snd].
  destruct (prevIncomingSequenceNumber s >? prevAckedSequenceNumber s);
    unfold bind, get, ret, modify, emit, throw;
    cbn -[getNextSequenceNumber nextSequenceNumber];
    rewrite getNextSequenceNumber_run; cbn -[nextSequenceNumber];
    destruct (encodeBtpPacket E _); cbn -[nextSequenceNumber]; try reflexivity;
    destruct (writeBleCallback E _); cbn -[nextSequenceNumber]; try reflexivity;
    destruct (isRunning (ackReceiveTimer s)); cbn -[nextSequenceNumber];
    destruct (getRemainingBytesCount cur <=? _); reflexivity.
Qed.

(** An invariant of every pass is an invariant of the loop. *)
Lemma sendLoop_invariant (I : BtpSessionHandler -> Prop) E :
  (forall cur s, I s -> I (stateOf (sendSegment E cur s))) ->
  forall fuel s, I s -> I (stateOf (sendLoop E fuel s)).
Proof.
  intros Hpass. induction fuel as [ | fuel IH]; intros s Hs; cbn [sendLoop];
    unfold bind at 1; unfold get at 1; cbv beta iota;
    destruct (queuedOutgoingMatterMessages s) as [ | cur rest]; try exact Hs.
  specialize (Hpass cur s Hs). unfold bind, stateOf in *.
  destruct (sendSegment E cur s) as [[[[] | e | ] s1] t1]; cbn [fst snd] in *;
    try exact Hpass.
  specialize (IH s1 Hpass). destruct (sendLoop E fuel s1) as [[c2 s2] t2]. exact IH.
Qed.

Lemma processSendQueue_invariant (I : BtpSessionHandler -> Prop) E fuel s :
  (forall cur s, I s -> I (stateOf (sendSegment E cur s))) ->
  (forall v s, I s -> I (set_sendInProgress v s)) ->
  I s -> I (stateOf (processSendQueue E fuel s)).
Proof.
  intros Hpass Hflag Hs.
  destruct (processSendQueue_state E fuel s) as [-> | [-> | ->]]; [exact Hs | | ].
  - apply sendLoop_invariant; auto.
  - apply Hflag, sendLoop_invariant; auto.
Qed.

Lemma sendMatterMessage_run E fuel data s :
  sendMatterMessage E fuel data s
  = if blength data =? 0 then (Throw BtpFlowError, s, [])
    else processSendQueue E fuel
           (set_queuedOutgoingMatterMessages
              (queuedOutgoingMatterMessages s ++ [newDataReader data]) s).
Proof.
  unfold sendMatterMessage. destruct (blength data =? 0); [reflexivity | ].
  rewrite (@bind_Normal _ _ (modify _) _ s tt
             (set_queuedOutgoingMatterMessages
                (queuedOutgoingMatterMessages s ++ [newDataReader data]) s) [])
    by reflexivity.
  cbn [app]. symmetry. apply result_eta.
Qed.

(** ** Messages that wait in the queue *)

Lemma processSendQueue_run E fuel s :
  processSendQueue E fuel s
  = if sendInProgress s then (Normal tt, s, [])
    else if windowFull s then (Normal tt, s, [])
    else match queuedOutgoingMatterMessages s with
         | [] => (Normal tt, s, [])
         | _ :: _ =>
             match completionOf (sendLoop E fuel (set_sendInProgress true s)) with
             | Normal _ =>
                 (Normal tt,
                  set_sendInProgress false
                    (stateOf (sendLoop E fuel (set_sendInProgress true s))),
                  traceOf (sendLoop E fuel (set_sendInProgress true s)))
             | Throw e =>
                 (Throw e, stateOf (sendLoop E fuel (set_sendInProgress true s)),
                  traceOf (sendLoop E fuel (set_sendInProgress true s)))
             | Unfinished =>
                 (Unfinished, stateOf (sendLoop E fuel (set_sendInProgress true s)),
                  traceOf (sendLoop E fuel (set_sendInProgress true s)))
             end
         end.
Proof.
  unfold processSendQueue, bind at 1. unfold get at 1. cbv beta iota.
  destruct (sendInProgress s); [reflexivity | ].
  destruct (windowFull s); [reflexivity | ].
  destruct (queuedOutgoingMatterMessages s); [reflexivity | ].
  unfold bind, modify, completionOf, stateOf, traceOf. cbn [fst snd app].
  destruct (sendLoop E fuel (set_sendInProgress true s)) as [[[[] | e | ] s1] t1];
    cbn [fst snd app]; rewrite ?app_nil_r; reflexivity.
Qed.

(** X5.  [sendMatterMessage] refuses an empty message with a [BtpFlowError] and
    leaves the session as it was: it is not closed and nothing is queued.  A
    message that is not empty is appended to the queue; while a send is in
    progress or the window is closed that is all that happens: nothing is
    written and the call returns. *)
Theorem sendMatterMessage_queues E fuel data s :
  (data = [] -> sendMatterMessage E fuel data s = (Throw BtpFlowError, s, []))
  /\ (data <> [] ->
      sendInProgress s = true \/ windowFull s = true ->
      sendMatterMessage E fuel data s
      = (Normal tt,
         set_queuedOutgoingMatterMessages
           (queuedOutgoingMatterMessages s ++ [newDataReader data]) s,
         [])).
Proof.
  rewrite sendMatterMessage_run. split.
  - intros ->. reflexivity.
  - intros Hne Hbusy.
    destruct data as [ | b data]; [contradiction | ].
    replace (blength (b :: data) =? 0) with false
      by (symmetry; apply Z.eqb_neq; unfold blength; cbn [length]; lia).
    rewrite processSendQueue_run. cbn [sendInProgress set_queuedOutgoingMatterMessages].
    destruct (sendInProgress s); [reflexivity | ].
    destruct Hbusy as [Hbusy | Hbusy]; [discriminate | ].
    change (windowFull (set_queuedOutgoingMatterMessages
                          (queuedOutgoingMatterMessages s ++ [newDataReader (b :: data)]) s))
      with (windowFull s).
    rewrite Hbusy. reflexivity.
Qed.

Lemma sendMatterMessage_queues_witness :
  sendMatterMessage testEnv 4 [] session0 = (Throw BtpFlowError, session0, [])
  /\ sendMatterMessage testEnv 4 [x01] (set_sendInProgress true session0)
     = (Normal tt,
        set_queuedOutgoingMatterMessages
          (queuedOutgoingMatterMessages (set_sendInProgress true session0)
           ++ [newDataReader [x01]])
          (set_sendInProgress true session0),
        []).
Proof.
  split.
  - apply (proj1 (sendMatterMessage_queues testEnv 4 [] session0)). reflexivity.
  - apply (proj2 (sendMatterMessage_queues testEnv 4 [x01]
                    (set_sendInProgress true session0))).
    + discriminate.
    + left. reflexivity.
Defined.

(** Calls that leave the queue alone. *)

Ltac keeps_footprint := intros; reflexivity.

Lemma close_keeps_queue : respects (keeps queuedOutgoingMatterMessages) close.
Proof. apply close_respects_keeps; reflexivity. Qed.

Lemma close_keeps_sendInProgress : respects (keeps sendInProgress) close.
Proof. apply close_respects_keeps; reflexivity. Qed.

Lemma call_keeps_queue E fuel c :
  isSendMatterMessage c = false ->
  respects (keeps queuedOutgoingMatterMessages) (call E fuel c)
  /\ respects (keeps sendInProgress) (call E fuel c).
Proof.
  destruct c; cbn [call isSendMatterMessage]; intro H; try discriminate; split.
  - apply handleIncomingBleData_respects;
      first [exact close_keeps_queue | keeps_footprint].
  - apply handleIncomingBleData_respects;
      first [exact close_keeps_sendInProgress | keeps_footprint].
  - exact close_keeps_queue.
  - exact close_keeps_sendInProgress.
  - respects_steps; [reflexivity | ].
    apply btpSendAckTimeoutTriggered_respects; keeps_footprint.
  - respects_steps; [reflexivity | ].
    apply btpSendAckTimeoutTriggered_respects; keeps_footprint.
  - respects_steps; [reflexivity | ]. unfold btpAckTimeoutTriggered.
    respects_steps. exact close_keeps_queue.
  - respects_steps; [reflexivity | ]. unfold btpAckTimeoutTriggered.
    respects_steps. exact close_keeps_sendInProgress.
Qed.

(** X6.  Only [sendMatterMessage] sends queued messages: over any calls that are
    inbound buffers, [close] or timer expiries, the queue of outgoing
    messages, the cursor of each of them and [sendInProgress] stay as they
    are.  A message that was queued behind a closed window is not sent when
    the acknowledgement that opens the window arrives, nor when a timer
    expires. *)
Theorem queue_waits_for_sendMatterMessage E fuel cs : forall s s' t,
  forallb (fun c => negb (isSendMatterMessage c)) cs = true ->
  calls E fuel cs s = Some (s', t) ->
  queuedOutgoingMatterMessages s' = queuedOutgoingMatterMessages s
  /\ sendInProgress s' = sendInProgress s.
Proof.
  induction cs as [ | c cs IH]; intros s s' t Hcs H; cbn [calls forallb] in *.
  - injection H as <- <-. split; reflexivity.
  - apply andb_prop in Hcs as [Hc Hcs]. apply negb_true_iff in Hc.
    destruct (call_keeps_queue E fuel c Hc) as [Hq Hp].
    specialize (Hq s). specialize (Hp s). unfold keeps, stateOf in Hq, Hp.
    destruct (call E fuel c s) as [[[[] | e | ] s1] t1]; cbn [fst snd] in *;
      try discriminate;
      destruct (calls E fuel cs s1) as [[s2 t2] | ] eqn:Hrest; try discriminate;
      injection H as <- <-; destruct (IH s1 s2 t2 Hcs Hrest) as [H1 H2];
      split; congruence.
Qed.

Lemma queue_waits_for_sendMatterMessage_witness :
  let s := set_queuedOutgoingMatterMessages [newDataReader [x01; x02]]
             (set_sequenceNumber 1 (freshSession 20 2)) in
  queuedOutgoingMatterMessages
    (set_prevAckedSequenceNumber 0
       (set_sendAckTimer {| isRunning := false |}
          (set_sequenceNumber 2
             (set_ackReceiveTimer {| isRunning := true |}
                (set_prevIncomingAckNumber 1
                   (set_prevIncomingSequenceNumber 0 s))))))
  = queuedOutgoingMatterMessages s
  /\ sendInProgress
       (set_prevAckedSequenceNumber 0
          (set_sendAckTimer {| isRunning := false |}
             (set_sequenceNumber 2
                (set_ackReceiveTimer {| isRunning := true |}
                   (set_prevIncomingAckNumber 1
                      (set_prevIncomingSequenceNumber 0 s))))))
     = sendInProgress s.
Proof.
  refine (queue_waits_for_sendMatterMessage testEnv 4
            [HandleIncomingBleData [x0d; x01; x00; x01; x00; xaa]; SendAckTimerExpires]
            _ _ [TimerStart SendAckTimer; TimerStop AckReceiveTimer;
                 HandleMatterMessagePayload [xaa];
                 WriteBle [x08; x00; x02]; TimerStart AckReceiveTimer] _ _).
  - reflexivity.
  - vm_compute. reflexivity.
Defined.

(** ** A send that fails *)

Lemma sendSegment_keeps_sendInProgress E cur s :
  sendInProgress (stateOf (sendSegment E cur s)) = sendInProgress s.
Proof. apply (sendSegment_keeps _ sendInProgress E cur); reflexivity. Qed.

Lemma sendLoop_keeps_sendInProgress E fuel s :
  sendInProgress s = true -> sendInProgress (stateOf (sendLoop E fuel s)) = true.
Proof.
  apply (sendLoop_invariant (fun s => sendInProgress s = true)).
  intros cur s0 H. rewrite sendSegment_keeps_sendInProgress. exact H.
Qed.

Lemma stalled_calls E fuel cs : forall s s' t,
  sendInProgress s = true ->
  calls E fuel cs s = Some (s', t) ->
  sendInProgress s' = true
  /\ queuedOutgoingMatterMessages s' = queuedOutgoingMatterMessages s ++ sentMessages cs.
Proof.
  induction cs as [ | c cs IH]; intros s s' t Hs H; cbn [calls sentMessages] in *.
  - injection H as <- <-. rewrite app_nil_r. split; [exact Hs | reflexivity].
  - assert (Hc : sendInProgress (stateOf (call E fuel c s)) = true
                 /\ queuedOutgoingMatterMessages (stateOf (call E fuel c s))
                    = queuedOutgoingMatterMessages s ++ sentMessages [c]).
    { destruct (isSendMatterMessage c) eqn:Hk.
      - destruct c; try discriminate. cbn [call sentMessages].
        rewrite sendMatterMessage_run.
        destruct (blength data =? 0); [rewrite app_nil_r; split; [exact Hs | reflexivity] | ].
        rewrite processSendQueue_run. cbn [sendInProgress set_queuedOutgoingMatterMessages].
        rewrite Hs. split; [exact Hs | reflexivity].
      - destruct (call_keeps_queue E fuel c Hk) as [Hq Hp].
        rewrite (Hq s), (Hp s).
        destruct c; try discriminate; cbn [sentMessages]; rewrite app_nil_r;
          split; [exact Hs | reflexivity | exact Hs | reflexivity | exact Hs | reflexivity
                  | exact Hs | reflexivity]. }
    unfold stateOf in Hc.
    destruct (call E fuel c s) as [[[[] | e | ] s1] t1]; cbn [fst snd] in *;
      try discriminate;
      destruct (calls E fuel cs s1) as [[s2 t2] | ] eqn:Hrest; try discriminate;
      injection H as <- <-; destruct Hc as [Hc1 Hc2];
      destruct (IH s1 s2 t2 Hc1 Hrest) as [H1 H2]; (split; [exact H1 | ]);
      rewrite H2, Hc2, <- app_assoc; f_equal;
      destruct c; cbn [sentMessages]; try reflexivity;
      destruct (blength data =? 0); reflexivity.
Qed.

(** X7.  When the encoder or the transport raises an error during
    [processSendQueue], the error reaches the caller with [sendInProgress]
    still set.  Nothing resets it: from then on, whatever calls the session
    receives, [sendInProgress] stays set and the messages given to
    [sendMatterMessage] are only appended to the queue, which no call
    shortens. *)
Theorem failed_send_stalls_queue E fuel s e :
  completionOf (processSendQueue E fuel s) = Throw e ->
  sendInProgress (stateOf (processSendQueue E fuel s)) = true
  /\ forall cs s' t,
      calls E fuel cs (stateOf (processSendQueue E fuel s)) = Some (s', t) ->
      sendInProgress s' = true
      /\ queuedOutgoingMatterMessages s'
         = queuedOutgoingMatterMessages (stateOf (processSendQueue E fuel s))
           ++ sentMessages cs.
Proof.
  intro Hthrow.
  assert (Hstuck : sendInProgress (stateOf (processSendQueue E fuel s)) = true).
  { rewrite processSendQueue_run in Hthrow |- *.
    destruct (sendInProgress s); [discriminate | ].
    destruct (windowFull s); [discriminate | ].
    destruct (queuedOutgoingMatterMessages s); [discriminate | ].
    destruct (completionOf (sendLoop E fuel (set_sendInProgress true s)));
      try discriminate.
    apply sendLoop_keeps_sendInProgress. reflexivity. }
  split; [exact Hstuck | ].
  intros cs s' t H. exact (stalled_calls E fuel cs _ s' t Hstuck H).
Qed.

Lemma failed_send_stalls_queue_witness :
  let E := codecEnv (fun _ => Some (OtherError 1)) in
  let s := set_queuedOutgoingMatterMessages [newDataReader [x01]] session0 in
  sendInProgress (stateOf (processSendQueue E 4 s)) = true
  /\ forall cs s' t,
      calls E 4 cs (stateOf (processSendQueue E 4 s)) = Some (s', t) ->
      sendInProgress s' = true
      /\ queuedOutgoingMatterMessages s'
         = queuedOutgoingMatterMessages (stateOf (processSendQueue E 4 s))
           ++ sentMessages cs.
Proof.
  apply (failed_send_stalls_queue (codecEnv (fun _ => Some (OtherError 1))) 4
           (set_queuedOutgoingMatterMessages [newDataReader [x01]] session0)
           (OtherError 1)).
  reflexivity.
Defined.

(** ** Segmentation *)

Lemma written_app t1 t2 : written (t1 ++ t2) = written t1 ++ written t2.
Proof.
  induction t1 as [ | ev t1 IH]; [reflexivity | ].
  destruct ev; cbn; rewrite IH; reflexivity.
Qed.

Lemma written_segmentEventsBefore s : written (segmentEventsBefore s) = [].
Proof. unfold segmentEventsBefore. destruct (segmentHasAck s); reflexivity. Qed.

Lemma written_segmentEventsAfter s : written (segmentEventsAfter s) = [].
Proof. unfold segmentEventsAfter. destruct (isRunning (ackReceiveTimer s)); reflexivity. Qed.

Lemma sendLoop_unfold E fuel s :
  sendLoop E fuel s
  = match queuedOutgoingMatterMessages s with
    | [] => (Normal tt, s, [])
    | cur :: _ =>
        match fuel with
        | O => (Unfinished, s, [])
        | S fuel' =>
            match sendSegment E cur s with
            | (Normal true, s1, t1) => (Normal tt, s1, t1)
            | (Normal false, s1, t1) =>
                (completionOf (sendLoop E fuel' s1), stateOf (sendLoop E fuel' s1),
                 t1 ++ traceOf (sendLoop E fuel' s1))
            | (Throw e, s1, t1) => (Throw e, s1, t1)
            | (Unfinished, s1, t1) => (Unfinished, s1, t1)
            end
        end
    end.
Proof.
  destruct fuel as [ | fuel]; cbn [sendLoop]; unfold bind at 1; unfold get at 1;
    cbv beta iota; destruct (queuedOutgoingMatterMessages s) as [ | cur rest];
    try reflexivity.
  unfold bind, ret, completionOf, stateOf, traceOf.
  destruct (sendSegment E cur s) as [[[[] | e | ] s1] t1]; cbn [fst snd app];
    rewrite ?app_nil_r; try reflexivity.
  destruct (sendLoop E fuel s1) as [[c2 s2] t2]. reflexivity.
Qed.

(** The buffers that the loop writes are the encodings of its packets. *)
Lemma sendLoop_writes E fuel : forall s,
  Forall2 (fun packet p => encodeBtpPacket E p = inr packet)
    (written (traceOf (sendLoop E fuel s))) (sendLoopPackets E fuel s).
Proof.
  induction fuel as [ | fuel IH]; intro s; rewrite sendLoop_unfold;
    cbn [sendLoopPackets]; destruct (queuedOutgoingMatterMessages s) as [ | cur rest];
    try (cbn; constructor).
  rewrite sendSegment_run.
  destruct (encodeBtpPacket E (segmentPacket s cur)) as [e | packet] eqn:Henc.
  - unfold traceOf. cbn [snd]. rewrite written_segmentEventsBefore. constructor.
  - destruct (writeBleCallback E packet) as [e | ].
    + unfold traceOf. cbn [snd]. rewrite written_app, written_segmentEventsBefore.
      cbn. repeat constructor. exact Henc.
    + destruct (windowFull (segmentSent s cur)); unfold traceOf at 1; cbn [snd];
        rewrite !written_app, written_segmentEventsBefore, ?written_segmentEventsAfter;
        cbn [written app]; constructor; try exact Henc; [constructor | apply IH].
Qed.

(** Reading from a cursor: the bytes read and the bytes left are the bytes
    that were left before. *)
Lemma readByteArray_remainingBytes r len :
  fst (readByteArray r len) ++ remainingBytes (snd (readByteArray r len))
  = remainingBytes r.
Proof.
  unfold readByteArray, remainingBytes. cbn [fst snd buffer offset].
  rewrite (Nat.add_comm (offset r)), <- skipn_skipn.
  set (R := skipn (offset r) (buffer r)).
  rewrite length_firstn.
  destruct (Nat.le_ge_cases (Z.to_nat len) (length R)) as [Hle | Hge].
  - rewrite Nat.min_l by exact Hle. apply firstn_skipn.
  - rewrite Nat.min_r by exact Hge.
    rewrite skipn_all, firstn_all2 by exact Hge. apply app_nil_r.
Qed.

Lemma length_remainingBytes r :
  Z.of_nat (length (remainingBytes r)) = Z.max 0 (getRemainingBytesCount r).
Proof.
  unfold remainingBytes, getRemainingBytesCount, getLength, blength.
  rewrite length_skipn. lia.
Qed.

(** An ending segment takes all that is left of its message. *)
Lemma readByteArray_ending r len :
  getRemainingBytesCount r <= len ->
  remainingBytes (snd (readByteArray r len)) = [].
Proof.
  intro H. pose proof (readByteArray_remainingBytes r len) as Heq.
  pose proof (length_remainingBytes r) as Hlen.
  apply (f_equal (@length byte)) in Heq. rewrite length_app in Heq.
  assert (Hfst : length (fst (readByteArray r len)) = length (remainingBytes r)).
  { unfold readByteArray. cbn [fst]. fold (remainingBytes r). rewrite length_firstn.
    apply Nat.min_r. lia. }
  apply length_zero_iff_nil. lia.
Qed.

Lemma queue_segmentSent s cur :
  queuedOutgoingMatterMessages (segmentSent s cur)
  = if segmentIsEnding s cur then tl (queuedOutgoingMatterMessages s)
    else snd (readByteArray cur (fragmentSize s - btpHeaderLength s cur))
         :: tl (queuedOutgoingMatterMessages s).
Proof.
  unfold segmentSent, segmentRead.
  destruct (segmentIsEnding s cur); destruct (isRunning (ackReceiveTimer s));
    destruct (segmentHasAck s); reflexivity.
Qed.

(** One pass: the payload of the packet and the bytes still queued are the
    bytes that were queued. *)
Lemma segmentSent_conserves s cur rest :
  queuedOutgoingMatterMessages s = cur :: rest ->
  segmentOf (segmentPacket s cur) ++ queuedBytes (segmentSent s cur) = queuedBytes s.
Proof.
  intro Hq. unfold queuedBytes. rewrite queue_segmentSent, Hq. cbn [tl map concat].
  unfold segmentOf, segmentPacket. cbn [payload BtpPayload.segmentPayload].
  destruct (segmentIsEnding s cur) eqn:Hend.
  - rewrite <- (readByteArray_remainingBytes cur
                  (fragmentSize s - btpHeaderLength s cur)).
    rewrite readByteArray_ending; [rewrite app_nil_r; reflexivity | ].
    unfold segmentIsEnding in Hend. apply Z.leb_le. exact Hend.
  - cbn [map concat]. rewrite app_assoc, readByteArray_remainingBytes. reflexivity.
Qed.

Lemma sendLoop_conserves E fuel : forall s,
  (forall e, completionOf (sendLoop E fuel s) <> Throw e) ->
  concat (map segmentOf (sendLoopPackets E fuel s))
  ++ queuedBytes (stateOf (sendLoop E fuel s))
  = queuedBytes s.
Proof.
  induction fuel as [ | fuel IH]; intros s Hok; rewrite sendLoop_unfold in Hok |- *;
    cbn [sendLoopPackets];
    destruct (queuedOutgoingMatterMessages s) as [ | cur rest] eqn:Hq;
    try reflexivity.
  rewrite sendSegment_run in Hok |- *.
  destruct (encodeBtpPacket E (segmentPacket s cur)) as [e | packet];
    [exfalso; apply (Hok e); reflexivity | ].
  destruct (writeBleCallback E packet) as [e | ];
    [exfalso; apply (Hok e); reflexivity | ].
  destruct (windowFull (segmentSent s cur)).
  - unfold stateOf. cbn [fst snd map concat]. rewrite app_nil_r.
    apply (segmentSent_conserves s cur rest Hq).
  - unfold stateOf at 1. cbn [fst snd map concat]. rewrite <- app_assoc.
    rewrite IH.
    + apply (segmentSent_conserves s cur rest Hq).
    + intros e He. apply (Hok e). unfold completionOf at 1. cbn [fst]. exact He.
Qed.

Lemma queuedBytes_app_reader s data :
  queuedBytes (set_queuedOutgoingMatterMessages
                 (queuedOutgoingMatterMessages s ++ [newDataReader data]) s)
  = queuedBytes s ++ data.
Proof.
  unfold queuedBytes. cbn [queuedOutgoingMatterMessages set_queuedOutgoingMatterMessages].
  rewrite map_app, concat_app. cbn. rewrite app_nil_r. reflexivity.
Qed.

Lemma processSendQueue_segments E fuel s :
  Forall2 (fun packet p => encodeBtpPacket E p = inr packet)
    (written (traceOf (processSendQueue E fuel s))) (processSendQueuePackets E fuel s)
  /\ ((forall e, completionOf (processSendQueue E fuel s) <> Throw e) ->
      concat (map segmentOf (processSendQueuePackets E fuel s))
      ++ queuedBytes (stateOf (processSendQueue E fuel s))
      = queuedBytes s).
Proof.
  rewrite processSendQueue_run. unfold processSendQueuePackets.
  destruct (sendInProgress s); [split; [constructor | reflexivity] | ].
  destruct (windowFull s); [split; [constructor | reflexivity] | ].
  destruct (queuedOutgoingMatterMessages s) as [ | cur rest] eqn:Hq.
  - assert (Hnone : sendLoopPackets E fuel (set_sendInProgress true s) = []).
    { destruct fuel; cbn [sendLoopPackets set_sendInProgress queuedOutgoingMatterMessages];
        rewrite Hq; reflexivity. }
    rewrite Hnone. split; [constructor | reflexivity].
  - pose proof (sendLoop_writes E fuel (set_sendInProgress true s)) as Hw.
    pose proof (sendLoop_conserves E fuel (set_sendInProgress true s)) as Hc.
    destruct (completionOf (sendLoop E fuel (set_sendInProgress true s))) as [u | e | ]
      eqn:Hcompl; (split; [exact Hw | ]); intro Hok.
    + etransitivity; [ | apply Hc; intros e He; discriminate]. reflexivity.
    + exfalso. apply (Hok e). reflexivity.
    + etransitivity; [ | apply Hc; intros e He; discriminate]. reflexivity.
Qed.

(** X8.  On a session whose fragments hold at least the longest header, of 5
    bytes, so that the loop never asks a cursor for a negative number of
    bytes: the frames that [sendMatterMessage] writes are the encodings of
    the packets of the send loop, in order.  When neither the encoder nor
    the transport raises an error, the payloads of these packets, put
    together and followed by the bytes that are still queued when the call
    returns, are the bytes that were queued before followed by the message:
    no byte is lost, repeated or moved. *)
Theorem sendMatterMessage_segments E fuel data s :
  5 <= fragmentSize s ->
  data <> [] ->
  let queued :=
    set_queuedOutgoingMatterMessages
      (queuedOutgoingMatterMessages s ++ [newDataReader data]) s in
  Forall2 (fun packet p => encodeBtpPacket E p = inr packet)
    (written (traceOf (sendMatterMessage E fuel data s)))
    (processSendQueuePackets E fuel queued)
  /\ ((forall e, completionOf (sendMatterMessage E fuel data s) <> Throw e) ->
      concat (map segmentOf (processSendQueuePackets E fuel queued))
      ++ queuedBytes (stateOf (sendMatterMessage E fuel data s))
      = queuedBytes s ++ data).
Proof.
  intros _ Hne queued. rewrite sendMatterMessage_run.
  assert (Hlen : (blength data =? 0) = false).
  { apply Z.eqb_neq. destruct data; [contradiction | ].
    unfold blength. cbn [length]. lia. }
  rewrite Hlen.
  destruct (processSendQueue_segments E fuel queued) as [Hw Hc].
  split; [exact Hw | ]. intro Hok.
  etransitivity; [exact (Hc Hok) | ]. apply queuedBytes_app_reader.
Qed.

Lemma sendMatterMessage_segments_witness :
  let data := [x01; x02; x03; x04; x05; x06; x07; x08; x09; x0a;
               x0b; x0c; x0d; x0e; x0f; x10; x11; x12; x13; x14] in
  let queued :=
    set_queuedOutgoingMatterMessages
      (queuedOutgoingMatterMessages session0 ++ [newDataReader data]) session0 in
  5 <= fragmentSize session0
  /\ data <> []
  /\ length (processSendQueuePackets testEnv 8 queued) = 2%nat
  /\ Forall2 (fun packet p => encodeBtpPacket testEnv p = inr packet)
       (written (traceOf (sendMatterMessage testEnv 8 data session0)))
       (processSendQueuePackets testEnv 8 queued)
  /\ ((forall e, completionOf (sendMatterMessage testEnv 8 data session0) <> Throw e) ->
      concat (map segmentOf (processSendQueuePackets testEnv 8 queued))
      ++ queuedBytes (stateOf (sendMatterMessage testEnv 8 data session0))
      = queuedBytes session0 ++ data).
Proof.
  intros data queued.
  assert (Hsize : 5 <= fragmentSize session0) by (vm_compute; discriminate).
  assert (Hdata : data <> []) by discriminate.
  split; [exact Hsize | ]. split; [exact Hdata | ]. split; [reflexivity | ].
  exact (sendMatterMessage_segments testEnv 8 data session0 Hsize Hdata).
Defined.

(** ** The packets of the send loop *)

Lemma segmentSent_fragmentSize s cur : fragmentSize (segmentSent s cur) = fragmentSize s.
Proof.
  unfold segmentSent, segmentRead.
  destruct (segmentIsEnding s cur); destruct (isRunning (ackReceiveTimer s));
    destruct (segmentHasAck s); reflexivity.
Qed.

Lemma segmentSent_sequenceNumber s cur :
  sequenceNumber (segmentSent s cur) = nextSequenceNumber (sequenceNumber s).
Proof.
  unfold segmentSent, segmentRead.
  destruct (segmentIsEnding s cur); destruct (isRunning (ackReceiveTimer s));
    destruct (segmentHasAck s); reflexivity.
Qed.

(** After a pass no acknowledgement is owed. *)
Lemma segmentSent_hasAck s cur : segmentHasAck (segmentSent s cur) = false.
Proof.
  unfold segmentSent, segmentRead.
  destruct (segmentHasAck s) eqn:Hack;
    destruct (segmentIsEnding s cur); destruct (isRunning (ackReceiveTimer s));
    unfold segmentHasAck in *; cbn; try exact Hack; rewrite Z.gtb_ltb; apply Z.ltb_irrefl.
Qed.

Lemma length_readByteArray r len :
  blength (fst (readByteArray r len))
  = Z.min (Z.max 0 len) (Z.max 0 (getRemainingBytesCount r)).
Proof.
  unfold readByteArray, getRemainingBytesCount, getLength, blength. cbn [fst].
  rewrite length_firstn, length_skipn. lia.
Qed.

Lemma getRemainingBytesCount_readByteArray r len :
  getRemainingBytesCount (snd (readByteArray r len))
  = getRemainingBytesCount r - blength (fst (readByteArray r len)).
Proof.
  unfold readByteArray, getRemainingBytesCount, getLength, blength.
  cbn [fst snd buffer offset]. lia.
Qed.

Lemma btpHeaderLength_bounds s cur : 2 <= btpHeaderLength s cur <= 5.
Proof.
  unfold btpHeaderLength.
  destruct (segmentIsBeginning cur); destruct (segmentHasAck s); lia.
Qed.

Lemma segmentSent_queueReady s cur rest :
  queuedOutgoingMatterMessages s = cur :: rest ->
  queueReady s -> queueReady (segmentSent s cur).
Proof.
  unfold queueReady. intros Hq Hready. rewrite queue_segmentSent, Hq. cbn [tl].
  rewrite Hq in Hready. inversion Hready as [ | r l Hcur Hrest]; subst.
  destruct (segmentIsEnding s cur) eqn:Hend; [exact Hrest | ].
  constructor; [ | exact Hrest].
  rewrite getRemainingBytesCount_readByteArray, length_readByteArray.
  unfold segmentIsEnding in Hend. apply Z.leb_gt in Hend. lia.
Qed.

(** What holds of the packet of every pass holds of all packets of the
    loop. *)
Lemma sendLoopPackets_Forall E (I : BtpSessionHandler -> Prop) (P : BtpPacket -> Prop) :
  (forall s cur rest,
      I s -> queuedOutgoingMatterMessages s = cur :: rest ->
      P (segmentPacket s cur) /\ I (segmentSent s cur)) ->
  forall fuel s, I s -> Forall P (sendLoopPackets E fuel s).
Proof.
  intro Hpass. induction fuel as [ | fuel IH]; intros s Hs; cbn [sendLoopPackets];
    destruct (queuedOutgoingMatterMessages s) as [ | cur rest] eqn:Hq;
    try constructor.
  destruct (Hpass s cur rest Hs Hq) as [Hp Hs'].
  destruct (encodeBtpPacket E (segmentPacket s cur)) as [e | packet]; constructor;
    [exact Hp | ].
  destruct (writeBleCallback E packet); [constructor | ].
  destruct (windowFull (segmentSent s cur)); [constructor | ].
  apply IH. exact Hs'.
Qed.

Lemma segmentPacket_wellFlagged s cur : wellFlagged (segmentPacket s cur).
Proof.
  unfold wellFlagged, segmentPacket. cbn.
  destruct (segmentHasAck s); destruct (segmentIsBeginning cur);
    repeat split; intros; congruence.
Qed.

Lemma segmentPacket_headerLength s cur :
  packetHeaderLength (segmentPacket s cur) = btpHeaderLength s cur.
Proof. reflexivity. Qed.

Lemma segmentPacket_payloadLength s cur :
  blength (segmentOf (segmentPacket s cur))
  = Z.min (Z.max 0 (fragmentSize s - btpHeaderLength s cur))
      (Z.max 0 (getRemainingBytesCount cur)).
Proof.
  unfold segmentOf, segmentPacket. cbn [payload BtpPayload.segmentPayload].
  apply length_readByteArray.
Qed.

Lemma segmentPacket_isEnding s cur :
  BtpHeader.isEndingSegment (header (segmentPacket s cur)) = segmentIsEnding s cur.
Proof. reflexivity. Qed.

Lemma segmentPacket_fits s cur :
  6 <= fragmentSize s ->
  0 < getRemainingBytesCount cur ->
  segmentOf (segmentPacket s cur) <> []
  /\ packetLength (segmentPacket s cur) <= fragmentSize s
  /\ (BtpHeader.isEndingSegment (header (segmentPacket s cur)) = false ->
      packetLength (segmentPacket s cur) = fragmentSize s).
Proof.
  intros Hsize Hcur. pose proof (btpHeaderLength_bounds s cur) as Hh.
  pose proof (segmentPacket_payloadLength s cur) as Hlen.
  unfold packetLength. rewrite segmentPacket_headerLength, segmentPacket_isEnding.
  split; [ | split].
  - intro Hnil. rewrite Hnil in Hlen. unfold blength in Hlen. cbn [length] in Hlen. lia.
  - lia.
  - unfold segmentIsEnding. intro Hend. apply Z.leb_gt in Hend. lia.
Qed.

Lemma sendLoopPackets_consecutive E fuel : forall s,
  consecutiveFrom (sequenceNumber s) (sendLoopPackets E fuel s).
Proof.
  induction fuel as [ | fuel IH]; intro s; cbn [sendLoopPackets];
    destruct (queuedOutgoingMatterMessages s) as [ | cur rest]; try exact I.
  destruct (encodeBtpPacket E (segmentPacket s cur)) as [e | packet]; [exact I | ].
  cbn [consecutiveFrom]. split; [reflexivity | ].
  destruct (writeBleCallback E packet); [exact I | ].
  destruct (windowFull (segmentSent s cur)); [exact I | ].
  specialize (IH (segmentSent s cur)). rewrite segmentSent_sequenceNumber in IH.
  exact IH.
Qed.

Lemma sendLoopPackets_ack_first E fuel s :
  Forall (fun p => BtpHeader.hasAckNumber (header p) = false)
    (tl (sendLoopPackets E fuel s)).
Proof.
  destruct fuel as [ | fuel]; cbn [sendLoopPackets];
    destruct (queuedOutgoingMatterMessages s) as [ | cur rest]; try constructor.
  destruct (encodeBtpPacket E (segmentPacket s cur)) as [e | packet]; [constructor | ].
  cbn [tl]. destruct (writeBleCallback E packet); [constructor | ].
  destruct (windowFull (segmentSent s cur)); [constructor | ].
  apply (sendLoopPackets_Forall E (fun s => segmentHasAck s = false)).
  - intros s0 cur0 rest0 Hs0 _. split; [exact Hs0 | apply segmentSent_hasAck].
  - apply segmentSent_hasAck.
Qed.

(** X9.  The packets that [processSendQueue] hands to the encoder, on a session
    whose fragments have at least 6 bytes and whose queued messages all have
    bytes left; the frames written are their encodings, in order.  Each has the fields that its flags announce and a payload
    that is not empty; with its header it is not longer than the fragment
    size, and exactly as long when it does not end its message.  The
    sequence numbers follow each other from the session's counter on, and
    only the first packet can carry an acknowledgement. *)
Theorem processSendQueue_packets E fuel s :
  6 <= fragmentSize s ->
  queueReady s ->
  Forall2 (fun packet p => encodeBtpPacket E p = inr packet)
    (written (traceOf (processSendQueue E fuel s))) (processSendQueuePackets E fuel s)
  /\ Forall (fun p =>
            wellFlagged p
            /\ segmentOf p <> []
            /\ packetLength p <= fragmentSize s
            /\ (BtpHeader.isEndingSegment (header p) = false ->
                packetLength p = fragmentSize s))
    (processSendQueuePackets E fuel s)
  /\ consecutiveFrom (sequenceNumber s) (processSendQueuePackets E fuel s)
  /\ Forall (fun p => BtpHeader.hasAckNumber (header p) = false)
       (tl (processSendQueuePackets E fuel s)).
Proof.
  intros Hsize Hready.
  split; [exact (proj1 (processSendQueue_segments E fuel s)) | ].
  unfold processSendQueuePackets.
  destruct (sendInProgress s); [repeat split; constructor | ].
  destruct (windowFull s); [repeat split; constructor | ].
  split; [ | split].
  - apply (sendLoopPackets_Forall E
             (fun s0 => fragmentSize s0 = fragmentSize s /\ queueReady s0)).
    + intros s0 cur rest [Hf Hr] Hq.
      assert (Hcur : 0 < getRemainingBytesCount cur).
      { unfold queueReady in Hr. rewrite Hq in Hr. inversion Hr; assumption. }
      split.
      * rewrite <- Hf in Hsize |- *. split; [apply segmentPacket_wellFlagged | ].
        apply segmentPacket_fits; assumption.
      * split; [rewrite segmentSent_fragmentSize; exact Hf | ].
        apply (segmentSent_queueReady s0 cur rest Hq Hr).
    + split; [reflexivity | exact Hready].
  - apply (sendLoopPackets_consecutive E fuel (set_sendInProgress true s)).
  - apply sendLoopPackets_ack_first.
Qed.

Lemma processSendQueue_packets_witness :
  let s :=
    set_queuedOutgoingMatterMessages
      [newDataReader [x01; x02; x03; x04; x05; x06; x07; x08; x09; x0a;
                      x0b; x0c; x0d; x0e; x0f; x10; x11; x12; x13; x14]]
      session0 in
  (6 <= fragmentSize s /\ queueReady s)
  /\ length (processSendQueuePackets testEnv 8 s) = 2%nat
  /\ Forall2 (fun packet p => encodeBtpPacket testEnv p = inr packet)
       (written (traceOf (processSendQueue testEnv 8 s)))
       (processSendQueuePackets testEnv 8 s)
  /\ Forall (fun p =>
               wellFlagged p
               /\ segmentOf p <> []
               /\ packetLength p <= fragmentSize s
               /\ (BtpHeader.isEndingSegment (header p) = false ->
                   packetLength p = fragmentSize s))
       (processSendQueuePackets testEnv 8 s)
  /\ consecutiveFrom (sequenceNumber s) (processSendQueuePackets testEnv 8 s)
  /\ Forall (fun p => BtpHeader.hasAckNumber (header p) = false)
       (tl (processSendQueuePackets testEnv 8 s)).
Proof.
  intro s.
  assert (Hsize : 6 <= fragmentSize s) by (vm_compute; discriminate).
  assert (Hready : queueReady s) by (repeat constructor).
  split; [split; assumption | ]. split; [reflexivity | ].
  exact (processSendQueue_packets testEnv 8 s Hsize Hready).
Defined.

(** ** The send loop ends *)

Lemma length_queuedBytes_cons s cur rest :
  queuedOutgoingMatterMessages s = cur :: rest ->
  length (queuedBytes s)
  = (length (remainingBytes cur) + length (concat (map remainingBytes rest)))%nat.
Proof.
  intro Hq. unfold queuedBytes. rewrite Hq. cbn [map concat]. apply length_app.
Qed.

Lemma segmentSent_sendMeasure s cur rest :
  6 <= fragmentSize s ->
  queuedOutgoingMatterMessages s = cur :: rest ->
  (sendMeasure (segmentSent s cur) < sendMeasure s)%nat.
Proof.
  intros Hsize Hq. unfold sendMeasure.
  pose proof (segmentSent_conserves s cur rest Hq) as Hc.
  apply (f_equal (@length byte)) in Hc. rewrite length_app in Hc.
  rewrite queue_segmentSent, Hq. cbn [tl length].
  destruct (segmentIsEnding s cur) eqn:Hend; [lia | ].
  cbn [length].
  assert (Hread : (0 < length (segmentOf (segmentPacket s cur)))%nat).
  { pose proof (segmentPacket_payloadLength s cur) as Hlen.
    pose proof (btpHeaderLength_bounds s cur) as Hh.
    unfold segmentIsEnding in Hend. apply Z.leb_gt in Hend.
    unfold blength in Hlen. lia. }
  lia.
Qed.

Lemma sendLoop_terminates E fuel : forall s,
  6 <= fragmentSize s ->
  (sendMeasure s <= fuel)%nat ->
  completionOf (sendLoop E fuel s) <> Unfinished.
Proof.
  induction fuel as [ | fuel IH]; intros s Hsize Hfuel; rewrite sendLoop_unfold;
    destruct (queuedOutgoingMatterMessages s) as [ | cur rest] eqn:Hq;
    try discriminate.
  - unfold sendMeasure in Hfuel. rewrite Hq in Hfuel. cbn [length] in Hfuel. lia.
  - rewrite sendSegment_run.
    destruct (encodeBtpPacket E (segmentPacket s cur)) as [e | packet];
      [discriminate | ].
    destruct (writeBleCallback E packet); [discriminate | ].
    destruct (windowFull (segmentSent s cur)); [discriminate | ].
    unfold completionOf at 1. cbn [fst]. apply IH.
    + rewrite segmentSent_fragmentSize. exact Hsize.
    + pose proof (segmentSent_sendMeasure s cur rest Hsize Hq). lia.
Qed.

(** X10.  [sendMatterMessage] returns or raises an error: on a session whose
    fragments have at least 6 bytes, the loop of [processSendQueue] makes at
    most one pass for each byte to send and one for each queued message. *)
Theorem sendMatterMessage_terminates E fuel data s :
  6 <= fragmentSize s ->
  (sendMeasure s + length data + 1 <= fuel)%nat ->
  completionOf (sendMatterMessage E fuel data s) <> Unfinished.
Proof.
  intros Hsize Hfuel. rewrite sendMatterMessage_run.
  destruct (blength data =? 0); [discriminate | ].
  rewrite processSendQueue_run.
  cbn [sendInProgress set_queuedOutgoingMatterMessages].
  destruct (sendInProgress s); [discriminate | ].
  match goal with |- context [windowFull ?x] => destruct (windowFull x) end;
    [discriminate | ].
  match goal with
  | |- context [match ?q with [] => _ | _ :: _ => _ end] => destruct q
  end; [discriminate | ].
  match goal with
  | |- context [completionOf (sendLoop E fuel ?x)] =>
      pose proof (sendLoop_terminates E fuel x) as Hterm
  end.
  match type of Hterm with
  | _ -> _ -> completionOf ?r <> _ =>
      destruct (completionOf r) eqn:Hc;
      try (unfold completionOf; cbn [fst]; discriminate)
  end.
  exfalso. apply Hterm; [exact Hsize | | reflexivity].
  unfold sendMeasure, queuedBytes in *.
  cbn [queuedOutgoingMatterMessages set_sendInProgress set_queuedOutgoingMatterMessages].
  rewrite map_app, concat_app, !length_app. cbn. rewrite app_nil_r. lia.
Qed.

Lemma sendMatterMessage_terminates_witness :
  6 <= fragmentSize session0
  /\ (sendMeasure session0 + length [x01; x02; x03] + 1 <= 4)%nat
  /\ completionOf (sendMatterMessage testEnv 4 [x01; x02; x03] session0) <> Unfinished.
Proof.
  assert (Hsize : 6 <= fragmentSize session0) by (vm_compute; discriminate).
  assert (Hfuel : (sendMeasure session0 + length [x01; x02; x03] + 1 <= 4)%nat)
    by (vm_compute; lia).
  split; [exact Hsize | ]. split; [exact Hfuel | ].
  exact (sendMatterMessage_terminates testEnv 4 [x01; x02; x03] session0 Hsize Hfuel).
Defined.

(** ** From the sender to the receiver *)

Lemma sendLoop_nil E fuel s :
  queuedOutgoingMatterMessages s = [] -> sendLoop E fuel s = (Normal tt, s, []).
Proof. intro Hq. rewrite sendLoop_unfold, Hq. reflexivity. Qed.

Lemma sendLoopPackets_nil E fuel s :
  queuedOutgoingMatterMessages s = [] -> sendLoopPackets E fuel s = [].
Proof. intro Hq. destruct fuel; cbn [sendLoopPackets]; rewrite Hq; reflexivity. Qed.

(** A loop that ends without an error on a queue that is not empty has made
    a pass: the packet was encoded and written. *)
Lemma sendLoop_Normal_pass E fuel s cur rest :
  queuedOutgoingMatterMessages s = cur :: rest ->
  completionOf (sendLoop E fuel s) = Normal tt ->
  exists fuel' packet,
    fuel = S fuel'
    /\ encodeBtpPacket E (segmentPacket s cur) = inr packet
    /\ writeBleCallback E packet = None
    /\ sendLoop E fuel s
       = (if windowFull (segmentSent s cur) then
            (Normal tt, segmentSent s cur,
             segmentEventsBefore s ++ [WriteBle packet] ++ segmentEventsAfter s)
          else
            (completionOf (sendLoop E fuel' (segmentSent s cur)),
             stateOf (sendLoop E fuel' (segmentSent s cur)),
             (segmentEventsBefore s ++ [WriteBle packet] ++ segmentEventsAfter s)
             ++ traceOf (sendLoop E fuel' (segmentSent s cur))))
    /\ sendLoopPackets E fuel s
       = segmentPacket s cur
         :: (if windowFull (segmentSent s cur) then []
             else sendLoopPackets E fuel' (segmentSent s cur)).
Proof.
  intros Hq Hok. rewrite sendLoop_unfold, Hq in Hok |- *.
  destruct fuel as [ | fuel']; [discriminate | ].
  rewrite sendSegment_run in Hok |- *. cbn [sendLoopPackets]. rewrite Hq.
  destruct (encodeBtpPacket E (segmentPacket s cur)) as [e | packet] eqn:Henc;
    [discriminate | ].
  destruct (writeBleCallback E packet) as [e | ] eqn:Hw; [discriminate | ].
  exists fuel', packet.
  split; [reflexivity | split; [reflexivity | split; [exact Hw | split]]];
    [ | reflexivity].
  destruct (windowFull (segmentSent s cur)); reflexivity.
Qed.

Lemma segmentIsBeginning_started cur :
  (0 < offset cur)%nat -> segmentIsBeginning cur = false.
Proof.
  intro H. unfold segmentIsBeginning, getRemainingBytesCount. apply Z.eqb_neq. lia.
Qed.

Lemma segmentIsBeginning_new data : segmentIsBeginning (newDataReader data) = true.
Proof.
  unfold segmentIsBeginning, getRemainingBytesCount, getLength, newDataReader.
  cbn [buffer offset]. apply Z.eqb_eq. lia.
Qed.

Lemma offset_readByteArray r len :
  offset (snd (readByteArray r len))
  = (offset r + length (fst (readByteArray r len)))%nat.
Proof. reflexivity. Qed.

(** The packets of a message that has already begun: continuing frames and
    an ending frame, carrying what was left of the message. *)
Lemma sendLoop_tail E fuel : forall s cur,
  queuedOutgoingMatterMessages s = [cur] ->
  (0 < offset cur)%nat ->
  0 < getRemainingBytesCount cur ->
  6 <= fragmentSize s ->
  completionOf (sendLoop E fuel s) = Normal tt ->
  queuedOutgoingMatterMessages (stateOf (sendLoop E fuel s)) = [] ->
  exists cs e,
    sendLoopPackets E fuel s = cs ++ [e]
    /\ Forall continueFrame cs
    /\ endFrame e
    /\ concat (map segmentOf cs) ++ segmentOf e = remainingBytes cur.
Proof.
  induction fuel as [ | fuel IH]; intros s cur Hq Hoff Hrem Hsize Hok Hfinal;
    destruct (sendLoop_Normal_pass E _ s cur [] Hq Hok)
      as (fuel' & packet & Hfuel & Henc & Hw & Hrun & Hpackets);
    [discriminate | ].
  injection Hfuel as <-.
  rewrite Hrun in Hok, Hfinal. rewrite Hpackets. clear Hrun Hpackets.
  pose proof (queue_segmentSent s cur) as Hq'. rewrite Hq in Hq'. cbn [tl] in Hq'.
  pose proof (segmentPacket_fits s cur Hsize Hrem) as (Hne & _ & _).
  pose proof (segmentIsBeginning_started cur Hoff) as Hbegin.
  destruct (segmentIsEnding s cur) eqn:Hend.
  - exists [], (segmentPacket s cur). split; [ | split; [constructor | split]].
    + destruct (windowFull (segmentSent s cur)); [reflexivity | ].
      rewrite (sendLoopPackets_nil E fuel _ Hq'). reflexivity.
    + unfold endFrame. rewrite segmentPacket_isEnding.
      split; [exact Hbegin | split; [exact Hend | exact Hne]].
    + pose proof (segmentSent_conserves s cur [] Hq) as Hc.
      unfold queuedBytes in Hc. rewrite Hq', Hq in Hc. cbn [map concat] in Hc.
      rewrite !app_nil_r in Hc. exact Hc.
  - set (cur' := snd (readByteArray cur (fragmentSize s - btpHeaderLength s cur)))
      in *.
    destruct (windowFull (segmentSent s cur)).
    + unfold stateOf in Hfinal. cbn [fst snd] in Hfinal. congruence.
    + unfold completionOf in Hok at 1. unfold stateOf in Hfinal at 1.
      cbn [fst snd] in Hok, Hfinal.
      assert (Hready : queueReady (segmentSent s cur)).
      { apply (segmentSent_queueReady s cur [] Hq). unfold queueReady. rewrite Hq.
        repeat constructor. exact Hrem. }
      unfold queueReady in Hready. rewrite Hq' in Hready.
      apply Forall_inv in Hready. rename Hready into Hrem'.
      destruct (IH (segmentSent s cur) cur' Hq') as (cs & e & Hps & Hcs & He & Hcat).
      * unfold cur'. rewrite offset_readByteArray. lia.
      * exact Hrem'.
      * rewrite segmentSent_fragmentSize. exact Hsize.
      * exact Hok.
      * exact Hfinal.
      * exists (segmentPacket s cur :: cs), e. rewrite Hps.
        split; [reflexivity | split; [ | split; [exact He | ]]].
        -- constructor; [ | exact Hcs]. unfold continueFrame.
           rewrite segmentPacket_isEnding.
           split; [exact Hbegin | split; [ | split; [exact Hend | exact Hne]]].
           unfold segmentPacket. cbn. rewrite Hbegin. reflexivity.
        -- cbn [map concat]. rewrite <- app_assoc, Hcat.
           apply readByteArray_remainingBytes.
Qed.

(** The packets of a message sent whole are the frames of that message. *)
Lemma sendLoop_message E fuel s data :
  queuedOutgoingMatterMessages s = [newDataReader data] ->
  data <> [] ->
  6 <= fragmentSize s ->
  completionOf (sendLoop E fuel s) = Normal tt ->
  queuedOutgoingMatterMessages (stateOf (sendLoop E fuel s)) = [] ->
  messageFrames (sendLoopPackets E fuel s) data.
Proof.
  intros Hq Hdata Hsize Hok Hfinal. set (cur := newDataReader data) in *.
  assert (Hrem : 0 < getRemainingBytesCount cur).
  { unfold cur, getRemainingBytesCount, getLength, newDataReader, blength.
    cbn [buffer offset]. destruct data; [contradiction | cbn [length]; lia]. }
  assert (Hall : remainingBytes cur = data) by reflexivity.
  destruct (sendLoop_Normal_pass E _ s cur [] Hq Hok)
    as (fuel' & packet & Hfuel & Henc & Hw & Hrun & Hpackets).
  rewrite Hrun in Hok, Hfinal. rewrite Hpackets. clear Hrun Hpackets.
  pose proof (queue_segmentSent s cur) as Hq'. rewrite Hq in Hq'. cbn [tl] in Hq'.
  pose proof (segmentPacket_fits s cur Hsize Hrem) as (Hne & _ & _).
  pose proof (segmentIsBeginning_new data) as Hbegin. fold cur in Hbegin.
  assert (Hlen : BtpPayload.messageLength (payload (segmentPacket s cur))
                 = Some (blength data)).
  { unfold segmentPacket. cbn [payload BtpPayload.messageLength]. rewrite Hbegin.
    unfold cur, getRemainingBytesCount, getLength, newDataReader.
    cbn [buffer offset]. f_equal. lia. }
  destruct (segmentIsEnding s cur) eqn:Hend.
  - assert (Hpayload : segmentOf (segmentPacket s cur) = data).
    { pose proof (segmentSent_conserves s cur [] Hq) as Hc.
      unfold queuedBytes in Hc. rewrite Hq', Hq in Hc. cbn [map concat] in Hc.
      rewrite !app_nil_r, Hall in Hc. exact Hc. }
    replace (if windowFull (segmentSent s cur) then []
             else sendLoopPackets E fuel' (segmentSent s cur))
      with (@nil BtpPacket)
      by (destruct (windowFull (segmentSent s cur));
          [reflexivity | symmetry; apply (sendLoopPackets_nil E fuel' _ Hq')]).
    assert (Hm : messageFrames [segmentPacket s cur]
                   (segmentOf (segmentPacket s cur))).
    { apply message_single. unfold singleFrame.
      rewrite segmentPacket_isEnding, Hpayload.
      split; [exact Hbegin | split; [exact Hend | exact Hlen]]. }
    rewrite Hpayload in Hm. exact Hm.
  - set (cur' := snd (readByteArray cur (fragmentSize s - btpHeaderLength s cur)))
      in *.
    destruct (windowFull (segmentSent s cur)).
    + unfold stateOf in Hfinal. cbn [fst snd] in Hfinal. congruence.
    + unfold completionOf in Hok at 1. unfold stateOf in Hfinal at 1.
      cbn [fst snd] in Hok, Hfinal.
      assert (Hready : queueReady (segmentSent s cur)).
      { apply (segmentSent_queueReady s cur [] Hq). unfold queueReady. rewrite Hq.
        repeat constructor. exact Hrem. }
      unfold queueReady in Hready. rewrite Hq' in Hready.
      apply Forall_inv in Hready. rename Hready into Hrem'.
      destruct (sendLoop_tail E fuel' (segmentSent s cur) cur' Hq')
        as (cs & e & Hps & Hcs & He & Hcat).
      * unfold cur'. rewrite offset_readByteArray.
        assert (0 < length (segmentOf (segmentPacket s cur)))%nat
          by (destruct (segmentOf (segmentPacket s cur));
              [contradiction | cbn [length]; lia]).
        unfold segmentOf, segmentPacket in H. cbn [payload BtpPayload.segmentPayload] in H.
        lia.
      * exact Hrem'.
      * rewrite segmentSent_fragmentSize. exact Hsize.
      * exact Hok.
      * exact Hfinal.
      * assert (Htotal : segmentOf (segmentPacket s cur)
                         ++ concat (map segmentOf cs) ++ segmentOf e = data).
        { rewrite Hcat, <- Hall. apply readByteArray_remainingBytes. }
        assert (Hm : messageFrames (segmentPacket s cur :: cs ++ [e])
                       (segmentOf (segmentPacket s cur)
                        ++ concat (map segmentOf cs) ++ segmentOf e)).
        { apply message_segments; [ | exact Hcs | exact He].
          unfold beginFrame. rewrite segmentPacket_isEnding, Htotal.
          split; [exact Hbegin | split; [exact Hend | exact Hlen]]. }
        rewrite Htotal in Hm. rewrite Hps. exact Hm.
Qed.

Lemma nextSequenceNumber_rem n :
  0 <= n <= 255 -> nextSequenceNumber n = Z.rem (n + 1) 256.
Proof.
  intro H. unfold nextSequenceNumber. destruct (Z.gtb_spec (n + 1) 255).
  - replace n with 255 by lia. reflexivity.
  - symmetry. apply Z.rem_small. lia.
Qed.

Lemma nextSequenceNumber_range n :
  0 <= n <= 255 -> 0 <= nextSequenceNumber n <= 255.
Proof. intro H. unfold nextSequenceNumber. destruct (Z.gtb_spec (n + 1) 255); lia. Qed.

(** The packets come in the order that the receiver expects; the only
    acknowledgement is the one of the first packet. *)
Lemma sendLoopPackets_inOrder E seqNo fuel : forall s prevAck,
  0 <= sequenceNumber s <= 255 ->
  (segmentHasAck s = true -> prevAck < prevIncomingSequenceNumber s <= seqNo) ->
  inOrder (sequenceNumber s) prevAck seqNo (sendLoopPackets E fuel s).
Proof.
  induction fuel as [ | fuel IH]; intros s prevAck Hseq Hack; cbn [sendLoopPackets];
    destruct (queuedOutgoingMatterMessages s) as [ | cur rest]; try exact I.
  destruct (encodeBtpPacket E (segmentPacket s cur)) as [e | packet]; [exact I | ].
  assert (Hrest : forall a,
             inOrder (nextSequenceNumber (sequenceNumber s)) a seqNo
               match writeBleCallback E packet with
               | Some _ => []
               | None =>
                   if windowFull (segmentSent s cur) then []
                   else sendLoopPackets E fuel (segmentSent s cur)
               end).
  { intro a. destruct (writeBleCallback E packet); [exact I | ].
    destruct (windowFull (segmentSent s cur)); [exact I | ].
    rewrite <- (segmentSent_sequenceNumber s cur).
    apply (IH (segmentSent s cur) a).
    - rewrite segmentSent_sequenceNumber. apply nextSequenceNumber_range, Hseq.
    - rewrite segmentSent_hasAck. discriminate. }
  cbn [inOrder]. split; [apply nextSequenceNumber_rem, Hseq | ].
  unfold carriedAck, segmentPacket at 1 2.
  cbn [header payload BtpHeader.hasAckNumber BtpPayload.ackNumber
       BtpPayload.sequenceNumber].
  destruct (segmentHasAck s); [split; [apply Hack; reflexivity | ] | ]; apply Hrest.
Qed.

Lemma Forall2_strengthen (A B : Type) (R R' : A -> B -> Prop) (P : B -> Prop) l1 l2 :
  Forall2 R l1 l2 ->
  Forall P l2 ->
  (forall x y, In y l2 -> R x y -> P y -> R' x y) ->
  Forall2 R' l1 l2.
Proof.
  induction 1 as [ | x y l1 l2 Hxy Hrest IH]; intros HP Himp; [constructor | ].
  inversion HP; subst. constructor.
  - apply Himp; [left; reflexivity | assumption | assumption].
  - apply IH; [assumption | ]. intros x0 y0 Hin. apply Himp. right. exact Hin.
Qed.

(** X11.  A message that [sendMatterMessage] sends whole on an idle session
    reaches the peer whole: when the frames written are handed, in order, to
    [handleIncomingBleData] of a session that expects the sender's next
    sequence number and accepts the acknowledgement that the sender owes,
    and the codec gives back the packets that were encoded, every frame is
    accepted and [handleMatterMessagePayload] is called once, with the
    message. *)
Theorem sent_message_is_received E fuel data s r :
  data <> [] ->
  6 <= fragmentSize s ->
  0 <= sequenceNumber s <= 255 ->
  queuedOutgoingMatterMessages s = [] ->
  completionOf (sendMatterMessage E fuel data s) = Normal tt ->
  queuedOutgoingMatterMessages (stateOf (sendMatterMessage E fuel data s)) = [] ->
  currentIncomingSegmentedPayload r = None ->
  prevIncomingSequenceNumber r = sequenceNumber s ->
  (segmentHasAck s = true ->
   prevIncomingAckNumber r < prevIncomingSequenceNumber s <= sequenceNumber r) ->
  (forall p packet,
      In p (processSendQueuePackets E fuel
              (set_queuedOutgoingMatterMessages [newDataReader data] s)) ->
      encodeBtpPacket E p = inr packet ->
      decodeBtpPacket E packet = inr p /\ blength packet <= fragmentSize r + 3) ->
  completionOf (receive E (written (traceOf (sendMatterMessage E fuel data s))) r)
  = Normal tt
  /\ delivered
       (traceOf (receive E (written (traceOf (sendMatterMessage E fuel data s))) r))
     = [data].
Proof.
  intros Hdata Hsize Hseq Hq Hok Hfinal Hcur Hexpected Hack Hcodec.
  rewrite sendMatterMessage_run in Hok, Hfinal |- *.
  assert (Hlen : (blength data =? 0) = false).
  { apply Z.eqb_neq. destruct data; [contradiction | ].
    unfold blength. cbn [length]. lia. }
  rewrite Hlen, Hq in Hok, Hfinal |- *. cbn [app] in Hok, Hfinal |- *.
  set (queued := set_queuedOutgoingMatterMessages [newDataReader data] s) in *.
  destruct (processSendQueue_segments E fuel queued) as [Hwritten _].
  rewrite processSendQueue_run in Hok, Hfinal.
  unfold processSendQueuePackets in Hcodec, Hwritten.
  change (sendInProgress queued) with (sendInProgress s) in *.
  destruct (sendInProgress s); [discriminate | ].
  destruct (windowFull queued); [discriminate | ].
  change (queuedOutgoingMatterMessages queued) with [newDataReader data] in Hok, Hfinal.
  cbv beta iota in Hok, Hfinal.
  set (s1 := set_sendInProgress true queued) in *.
  destruct (completionOf (sendLoop E fuel s1)) as [[] | e | ] eqn:Hloop;
    try discriminate.
  unfold stateOf in Hfinal at 1. cbn [fst snd] in Hfinal.
  change (queuedOutgoingMatterMessages (set_sendInProgress false ?x))
    with (queuedOutgoingMatterMessages x) in Hfinal.
  assert (Hq1 : queuedOutgoingMatterMessages s1 = [newDataReader data]) by reflexivity.
  pose proof (sendLoop_message E fuel s1 data Hq1 Hdata Hsize Hloop Hfinal) as Hframes.
  assert (Hfit : Forall (fun p => wellFlagged p /\ segmentOf p <> [])
                   (sendLoopPackets E fuel s1)).
  { apply (sendLoopPackets_Forall E
             (fun s0 => fragmentSize s0 = fragmentSize s /\ queueReady s0)).
    - intros s0 cur rest [Hf Hr] Hq0.
      assert (Hrem : 0 < getRemainingBytesCount cur).
      { unfold queueReady in Hr. rewrite Hq0 in Hr. inversion Hr; assumption. }
      split.
      + split; [apply segmentPacket_wellFlagged | ].
        apply segmentPacket_fits; [rewrite Hf; exact Hsize | exact Hrem].
      + split; [rewrite segmentSent_fragmentSize; exact Hf | ].
        apply (segmentSent_queueReady s0 cur rest Hq0 Hr).
    - split; [reflexivity | ]. unfold queueReady. rewrite Hq1.
      repeat constructor. unfold getRemainingBytesCount, getLength, newDataReader.
      cbn [buffer offset]. apply Z.eqb_neq in Hlen. unfold blength in *. lia. }
  assert (Hdecodes : Forall2 (decodesTo E (fragmentSize r))
                       (written (traceOf (processSendQueue E fuel queued)))
                       (sendLoopPackets E fuel s1)).
  { apply (Forall2_strengthen _ _ _ _ _ _ _ Hwritten Hfit).
    intros packet p Hin Henc [Hflags Hne]. destruct (Hcodec p packet Hin Henc) as [Hdec Hsz].
    destruct Hflags as (Hh & Hm & _).
    unfold decodesTo, isControlFrame, isEmptyFrame. rewrite Hh, Hm.
    split; [exact Hsz | split; [exact Hdec | split; [reflexivity | ]]].
    apply andb_false_intro1, Z.eqb_neq. unfold segmentOf in Hne.
    destruct (BtpPayload.segmentPayload (payload p)); [contradiction | ].
    unfold blength. cbn [length]. lia. }
  assert (Horder : inOrder (prevIncomingSequenceNumber r) (prevIncomingAckNumber r)
                     (sequenceNumber r) (sendLoopPackets E fuel s1)).
  { rewrite Hexpected. apply (sendLoopPackets_inOrder E _ fuel s1 _ Hseq Hack). }
  assert (Hinbound : inboundIs r (fragmentSize r) (sequenceNumber r)
                       (prevIncomingSequenceNumber r) (prevIncomingAckNumber r)
                       (currentIncomingSegmentedMsgLength r) None)
    by (repeat split; exact Hcur).
  destruct (@receive_message E (fragmentSize r) (sequenceNumber r) _ _ Hframes _ r
              (prevIncomingSequenceNumber r) (prevIncomingAckNumber r)
              (currentIncomingSegmentedMsgLength r) Hdecodes Hinbound Horder)
    as (r' & t' & Hreceives & Hdelivered & _).
  unfold receives in Hreceives. rewrite Hreceives.
  split; [reflexivity | exact Hdelivered].
Qed.

Lemma sent_message_is_received_witness :
  let data := [x01; x02; x03; x04; x05; x06; x07; x08; x09; x0a;
               x0b; x0c; x0d; x0e; x0f; x10; x11; x12; x13; x14] in
  let r := set_sequenceNumber 255 (set_prevIncomingSequenceNumber 0 session0) in
  length (written (traceOf (sendMatterMessage testEnv 8 data session0))) = 2%nat
  /\ completionOf
       (receive testEnv
          (written (traceOf (sendMatterMessage testEnv 8 data session0))) r)
     = Normal tt
  /\ delivered
       (traceOf
          (receive testEnv
             (written (traceOf (sendMatterMessage testEnv 8 data session0))) r))
     = [data].
Proof.
  intros data r. split; [reflexivity | ].
  apply (sent_message_is_received testEnv 8 data session0 r).
  - discriminate.
  - vm_compute. discriminate.
  - vm_compute. split; discriminate.
  - reflexivity.
  - reflexivity.
  - reflexivity.
  - reflexivity.
  - reflexivity.
  - intros _. vm_compute. split; [reflexivity | discriminate].
  - intros p packet Hin Henc. vm_compute in Hin.
    destruct Hin as [<- | [<- | []]]; vm_compute in Henc; injection Henc as <-;
      (split; [reflexivity | vm_compute; discriminate]).
Defined.

(** ** The acknowledgements that the session sends *)

Lemma btpSendAckTimeoutTriggered_run E s :
  btpSendAckTimeoutTriggered E s
  = if segmentHasAck s then
      match encodeBtpPacket E (ackPacket s) with
      | inl e => (Throw e, ackBooked s, [])
      | inr packet =>
          match writeBleCallback E packet with
          | Some e => (Throw e, ackBooked s, [WriteBle packet])
          | None => (Normal tt, ackSent s, [WriteBle packet] ++ segmentEventsAfter s)
          end
      end
    else (Normal tt, s, []).
Proof.
  unfold btpSendAckTimeoutTriggered, segmentHasAck, ackPacket, ackSent, ackBooked,
    segmentEventsAfter, writeBle, timer_start, lift.
  unfold bind at 1. unfold get at 1. cbv beta iota.
  destruct (prevIncomingSequenceNumber s >? prevAckedSequenceNumber s);
    [ | reflexivity].
  unfold bind, get, ret, modify, emit, throw;
    cbn -[getNextSequenceNumber nextSequenceNumber];
    rewrite getNextSequenceNumber_run; cbn -[nextSequenceNumber];
    destruct (encodeBtpPacket E _); cbn -[nextSequenceNumber]; try reflexivity;
    destruct (writeBleCallback E _); cbn -[nextSequenceNumber]; try reflexivity;
    destruct (isRunning (ackReceiveTimer s)); reflexivity.
Qed.

Lemma ackBooked_hasAck s : segmentHasAck (ackBooked s) = false.
Proof.
  unfold segmentHasAck, ackBooked. cbn. rewrite Z.gtb_ltb. apply Z.ltb_irrefl.
Qed.

Lemma ackSent_hasAck s : segmentHasAck (ackSent s) = false.
Proof.
  unfold ackSent. destruct (isRunning (ackReceiveTimer s)); apply ackBooked_hasAck.
Qed.

(** X12.  When the send-ack timer expires and no acknowledgement is owed, nothing
    is written and the session is left as it is.  When one is owed, one
    frame is written: the encoding of a packet with the acknowledgement of
    the last sequence number received and the session's next sequence
    number; afterwards the ack-receive timer runs, no acknowledgement is
    owed and a second expiry writes nothing.  The acknowledgement is booked
    before the packet is encoded: when the encoder or the transport raises
    an error, the error reaches the caller and the acknowledgement is not
    owed any more, though no frame carried it. *)
Theorem btpSendAckTimeoutTriggered_acknowledges E s :
  (segmentHasAck s = false -> btpSendAckTimeoutTriggered E s = (Normal tt, s, []))
  /\ (segmentHasAck s = true ->
      forall packet,
        encodeBtpPacket E (ackPacket s) = inr packet ->
        writeBleCallback E packet = None ->
        completionOf (btpSendAckTimeoutTriggered E s) = Normal tt
        /\ written (traceOf (btpSendAckTimeoutTriggered E s)) = [packet]
        /\ sequenceNumber (stateOf (btpSendAckTimeoutTriggered E s))
           = nextSequenceNumber (sequenceNumber s)
        /\ prevAckedSequenceNumber (stateOf (btpSendAckTimeoutTriggered E s))
           = prevIncomingSequenceNumber s
        /\ isRunning (ackReceiveTimer (stateOf (btpSendAckTimeoutTriggered E s)))
           = true
        /\ btpSendAckTimeoutTriggered E (stateOf (btpSendAckTimeoutTriggered E s))
           = (Normal tt, stateOf (btpSendAckTimeoutTriggered E s), []))
  /\ (segmentHasAck s = true ->
      forall e,
        completionOf (btpSendAckTimeoutTriggered E s) = Throw e ->
        written (traceOf (btpSendAckTimeoutTriggered E s))
        = match encodeBtpPacket E (ackPacket s) with
          | inl _ => []
          | inr packet => [packet]
          end
        /\ segmentHasAck (stateOf (btpSendAckTimeoutTriggered E s)) = false
        /\ btpSendAckTimeoutTriggered E (stateOf (btpSendAckTimeoutTriggered E s))
           = (Normal tt, stateOf (btpSendAckTimeoutTriggered E s), [])).
Proof.
  split; [ | split].
  - intro Hack. rewrite btpSendAckTimeoutTriggered_run, Hack. reflexivity.
  - intros Hack packet Henc Hw.
    rewrite (btpSendAckTimeoutTriggered_run E s), Hack, Henc, Hw.
    unfold completionOf, stateOf, traceOf. cbn [fst snd].
    split; [reflexivity | ].
    split; [rewrite written_app, written_segmentEventsAfter; reflexivity | ].
    split; [unfold ackSent; destruct (isRunning (ackReceiveTimer s)); reflexivity | ].
    split; [unfold ackSent; destruct (isRunning (ackReceiveTimer s)); reflexivity | ].
    split; [unfold ackSent; destruct (isRunning (ackReceiveTimer s)) eqn:Hrun;
            [exact Hrun | reflexivity] | ].
    rewrite btpSendAckTimeoutTriggered_run, ackSent_hasAck. reflexivity.
  - intros Hack e. rewrite (btpSendAckTimeoutTriggered_run E s), Hack.
    destruct (encodeBtpPacket E (ackPacket s)) as [e1 | packet].
    + intros _. unfold stateOf, traceOf. cbn [fst snd].
      split; [reflexivity | split; [apply ackBooked_hasAck | ]].
      rewrite btpSendAckTimeoutTriggered_run, ackBooked_hasAck. reflexivity.
    + destruct (writeBleCallback E packet) as [e1 | ]; [ | discriminate].
      intros _. unfold stateOf, traceOf. cbn [fst snd].
      split; [reflexivity | split; [apply ackBooked_hasAck | ]].
      rewrite btpSendAckTimeoutTriggered_run, ackBooked_hasAck. reflexivity.
Qed.

Lemma btpSendAckTimeoutTriggered_acknowledges_witness :
  let s := set_prevIncomingSequenceNumber 0 session0 in
  let failing := codecEnv (fun _ => Some (OtherError 1)) in
  segmentHasAck s = true
  /\ written (traceOf (btpSendAckTimeoutTriggered testEnv s)) = [[x08; x00; x01]]
  /\ btpSendAckTimeoutTriggered testEnv (stateOf (btpSendAckTimeoutTriggered testEnv s))
     = (Normal tt, stateOf (btpSendAckTimeoutTriggered testEnv s), [])
  /\ completionOf (btpSendAckTimeoutTriggered failing s) = Throw (OtherError 1)
  /\ segmentHasAck (stateOf (btpSendAckTimeoutTriggered failing s)) = false.
Proof.
  intros s failing.
  assert (Hack : segmentHasAck s = true) by reflexivity.
  destruct (btpSendAckTimeoutTriggered_acknowledges testEnv s) as (_ & Hsent & _).
  destruct (Hsent Hack [x08; x00; x01] eq_refl eq_refl)
    as (_ & Hwritten & _ & _ & _ & Hagain).
  destruct (btpSendAckTimeoutTriggered_acknowledges failing s) as (_ & _ & Hlost).
  destruct (Hlost Hack (OtherError 1) eq_refl) as (_ & Hbooked & _).
  split; [exact Hack | ]. split; [exact Hwritten | ]. split; [exact Hagain | ].
  split; [reflexivity | exact Hbooked].
Defined.

(** ** Invariants of the session *)

Lemma calls_invariant (I : BtpSessionHandler -> Prop) E fuel :
  (forall c s, I s -> I (stateOf (call E fuel c s))) ->
  forall cs s s' t, I s -> calls E fuel cs s = Some (s', t) -> I s'.
Proof.
  intro Hcall. induction cs as [ | c cs IH]; intros s s' t Hs H; cbn [calls] in H.
  - injection H as <- <-. exact Hs.
  - specialize (Hcall c s Hs). unfold stateOf in Hcall.
    destruct (call E fuel c s) as [[[[] | e | ] s1] t1]; cbn [fst snd] in *;
      try discriminate;
      destruct (calls E fuel cs s1) as [[s2 t2] | ] eqn:Hrest; try discriminate;
      injection H as <- <-; exact (IH s1 s2 t2 Hcall Hrest).
Qed.

Lemma call_keeps (X : Type) (f : BtpSessionHandler -> X) E fuel c :
  (forall v s, f (set_ackReceiveTimer v s) = f s) ->
  (forall v s, f (set_sendAckTimer v s) = f s) ->
  (forall v s, f (set_isActive v s) = f s) ->
  (forall v s, f (set_prevIncomingSequenceNumber v s) = f s) ->
  (forall v s, f (set_prevIncomingAckNumber v s) = f s) ->
  (forall v s, f (set_currentIncomingSegmentedMsgLength v s) = f s) ->
  (forall v s, f (set_currentIncomingSegmentedPayload v s) = f s) ->
  (forall v s, f (set_sequenceNumber v s) = f s) ->
  (forall v s, f (set_prevAckedSequenceNumber v s) = f s) ->
  (forall v s, f (set_queuedOutgoingMatterMessages v s) = f s) ->
  (forall v s, f (set_sendInProgress v s) = f s) ->
  respects (keeps f) (call E fuel c).
Proof.
  intros H1 H2 H3 H4 H5 H6 H7 H8 H9 H10 H11.
  assert (Hclose : respects (keeps f) close)
    by (apply close_respects_keeps; assumption).
  destruct c; cbn [call].
  - apply handleIncomingBleData_respects; unfold keeps; auto.
  - apply sendMatterMessage_respects; unfold keeps; auto.
  - exact Hclose.
  - respects_steps; [unfold keeps; auto | ].
    apply btpSendAckTimeoutTriggered_respects; unfold keeps; auto.
  - respects_steps; [unfold keeps; auto | ].
    unfold btpAckTimeoutTriggered. respects_steps. exact Hclose.
Qed.

Lemma stateOf_result (A : Type) (c : Completion A) s t : stateOf (c, s, t) = s.
Proof. reflexivity. Qed.

Lemma remainder_le_255 a : Z.rem a 256 <= 255.
Proof.
  pose proof (Z.rem_bound_abs a 256). lia.
Qed.

Lemma remainder_range a : -1 <= a -> 0 <= Z.rem (a + 1) 256 <= 255.
Proof. intro H. pose proof (Z.rem_bound_pos (a + 1) 256). lia. Qed.

(** What an inbound buffer does to the four counters: the outbound ones are
    left alone; the sequence number recorded is the old one or the expected
    one, and in the latter case the acknowledgement recorded is the old one
    or one that was in range. *)
Lemma handleIncomingBleData_counters E data s :
  sequenceNumber (stateOf (handleIncomingBleData E data s)) = sequenceNumber s
  /\ prevAckedSequenceNumber (stateOf (handleIncomingBleData E data s))
     = prevAckedSequenceNumber s
  /\ ((prevIncomingSequenceNumber (stateOf (handleIncomingBleData E data s))
       = prevIncomingSequenceNumber s
       /\ prevIncomingAckNumber (stateOf (handleIncomingBleData E data s))
          = prevIncomingAckNumber s)
      \/ (prevIncomingSequenceNumber (stateOf (handleIncomingBleData E data s))
          = expectedSequenceNumber s
          /\ (prevIncomingAckNumber (stateOf (handleIncomingBleData E data s))
              = prevIncomingAckNumber s
              \/ prevIncomingAckNumber s
                 < prevIncomingAckNumber (stateOf (handleIncomingBleData E data s))
                 <= sequenceNumber s))).
Proof.
  assert (Hclosed : forall (e : MatterError) s1 (t1 : list Event),
             s1 = s ->
             handleIncomingBleData_try E data s = (Throw e, s1, t1) ->
             prevIncomingSequenceNumber (stateOf (handleIncomingBleData E data s))
             = prevIncomingSequenceNumber s
             /\ prevIncomingAckNumber (stateOf (handleIncomingBleData E data s))
                = prevIncomingAckNumber s).
  { intros e s1 t1 -> Htry. rewrite (handleIncomingBleData_Throw Htry).
    split; reflexivity. }
  split; [ | split].
  - apply (handleIncomingBleData_respects (Q := keeps sequenceNumber));
      first [apply close_respects_keeps; reflexivity | keeps_footprint].
  - apply (handleIncomingBleData_respects (Q := keeps prevAckedSequenceNumber));
      first [apply close_respects_keeps; reflexivity | keeps_footprint].
  - destruct (Z_le_gt_dec (blength data) (fragmentSize s + 3)) as [Hsize | Hbig].
    2: { left. apply (Hclosed (BtpProtocolError OversizedFrame) s [] eq_refl).
         unfold handleIncomingBleData_try.
         apply bind_Throw, checkFragmentSize_oversized. exact Hbig. }
    destruct (decodeBtpPacket E data) as [e | p] eqn:Hdec.
    { left. apply (Hclosed e s [] eq_refl).
      apply handleIncomingBleData_try_decode_error; assumption. }
    destruct (isControlFrame p) eqn:Hctl.
    { left. apply (Hclosed (BtpProtocolError UnexpectedControlFrame) s [] eq_refl).
      rewrite (handleIncomingBleData_try_decoded Hsize Hdec).
      apply bind_Throw, checkSequence_control. exact Hctl. }
    destruct (isEmptyFrame p) eqn:Hne.
    { left. apply (Hclosed (BtpProtocolError EmptyFrame) s [] eq_refl).
      rewrite (handleIncomingBleData_try_decoded Hsize Hdec).
      apply bind_Throw, checkSequence_empty; assumption. }
    destruct (Z.eq_dec (BtpPayload.sequenceNumber (payload p))
                (expectedSequenceNumber s)) as [Hseq | Hgap].
    2: { left. apply (Hclosed (BtpProtocolError SequenceGap) s [] eq_refl).
         rewrite (handleIncomingBleData_try_decoded Hsize Hdec).
         apply bind_Throw, checkSequence_gap; assumption. }
    right. rewrite (handleIncomingBleData_accepted Hsize Hdec Hctl Hne Hseq).
    rewrite !stateOf_result.
    set (s0 := sequenceAccepted p s).
    split.
    + rewrite (afterSequenceCheck_keeps_prevIncomingSequenceNumber p s0).
      unfold s0. rewrite sequenceAccepted_prevIncomingSequenceNumber. exact Hseq.
    + rewrite <- (sequenceAccepted_prevIncomingAckNumber p s),
        <- (sequenceAccepted_sequenceNumber p s). fold s0.
      rewrite afterSequenceCheck_unfold.
      destruct (carriedAck p) as [a | ] eqn:Hack.
      * destruct (Z_lt_dec (prevIncomingAckNumber s0) a) as [Hlo | Hlo];
          [destruct (Z_le_dec a (sequenceNumber s0)) as [Hhi | Hhi] | ].
        -- right.
           rewrite (try_catch_bind_Normal (fun _ : unit => reassemble p)
                      handleIncomingBleData_catch
                      (checkAck_valid p s0 a Hack (conj Hlo Hhi))).
           rewrite !stateOf_result.
           rewrite (reassemble_keeps_prevIncomingAckNumber p (ackAccepted a s0)).
           change (prevIncomingAckNumber (ackAccepted a s0)) with a. lia.
        -- left.
           rewrite (try_catch_Throw handleIncomingBleData_catch
                      (bind_Throw (fun _ : unit => reassemble p)
                         (checkAck_invalid p s0 a Hack
                            (fun H => Hhi (proj2 H))))).
           rewrite stateOf_result, handleIncomingBleData_catch_run. reflexivity.
        -- left.
           rewrite (try_catch_Throw handleIncomingBleData_catch
                      (bind_Throw (fun _ : unit => reassemble p)
                         (checkAck_invalid p s0 a Hack
                            (fun H => Hlo (proj1 H))))).
           rewrite stateOf_result, handleIncomingBleData_catch_run. reflexivity.
      * left.
        rewrite (try_catch_bind_Normal (fun _ : unit => reassemble p)
                   handleIncomingBleData_catch (checkAck_none p s0 Hack)).
        rewrite !stateOf_result.
        apply (reassemble_keeps_prevIncomingAckNumber p s0).
Qed.

Lemma call_SendAckTimerExpires E fuel s :
  call E fuel SendAckTimerExpires s
  = if isRunning (sendAckTimer s) then
      btpSendAckTimeoutTriggered E (set_sendAckTimer {| isRunning := false |} s)
    else (Normal tt, s, []).
Proof.
  cbn [call]. unfold bind at 1. unfold get at 1. cbv beta iota.
  destruct (isRunning (sendAckTimer s)); [ | reflexivity].
  rewrite (@bind_Normal _ _ (modify _) _ s tt
             (set_sendAckTimer {| isRunning := false |} s) []) by reflexivity.
  cbn [app]. symmetry. apply result_eta.
Qed.

Lemma btpAckTimeoutTriggered_run s :
  btpAckTimeoutTriggered s
  = if prevIncomingAckNumber s =? sequenceNumber s then (Normal tt, s, [])
    else (Throw (BtpProtocolError AckTimeout), closed s, traceOf (close s)).
Proof.
  unfold btpAckTimeoutTriggered. unfold bind at 1. unfold get at 1. cbv beta iota.
  destruct (prevIncomingAckNumber s =? sequenceNumber s); [reflexivity | ].
  cbn [negb].
  rewrite (@bind_Normal _ _ close _ s tt (closed s) (traceOf (close s))).
  - cbn. rewrite app_nil_r. reflexivity.
  - rewrite (result_eta (close s)), close_state, close_completion. reflexivity.
Qed.

Lemma call_AckReceiveTimerExpires E fuel s :
  call E fuel AckReceiveTimerExpires s
  = if isRunning (ackReceiveTimer s) then
      btpAckTimeoutTriggered (set_ackReceiveTimer {| isRunning := false |} s)
    else (Normal tt, s, []).
Proof.
  cbn [call]. unfold bind at 1. unfold get at 1. cbv beta iota.
  destruct (isRunning (ackReceiveTimer s)); [ | reflexivity].
  rewrite (@bind_Normal _ _ (modify _) _ s tt
             (set_ackReceiveTimer {| isRunning := false |} s) []) by reflexivity.
  cbn [app]. symmetry. apply result_eta.
Qed.

(** How the four counters move: a property of the counters that survives
    each of the four assignments, under the condition that guards it, is an
    invariant of the session. *)
Section Counters.

Variable I : BtpSessionHandler -> Prop.

Hypothesis I_counters : forall s s',
  sequenceNumber s' = sequenceNumber s ->
  prevAckedSequenceNumber s' = prevAckedSequenceNumber s ->
  prevIncomingSequenceNumber s' = prevIncomingSequenceNumber s ->
  prevIncomingAckNumber s' = prevIncomingAckNumber s ->
  I s -> I s'.

Hypothesis I_received : forall s,
  I s -> I (set_prevIncomingSequenceNumber (expectedSequenceNumber s) s).

Hypothesis I_acknowledged : forall s ackNumber,
  I s -> prevIncomingAckNumber s < ackNumber <= sequenceNumber s ->
  I (set_prevIncomingAckNumber ackNumber s).

Hypothesis I_sent : forall s,
  I s -> I (set_sequenceNumber (nextSequenceNumber (sequenceNumber s)) s).

Hypothesis I_acknowledges : forall s,
  I s -> segmentHasAck s = true ->
  I (set_prevAckedSequenceNumber (prevIncomingSequenceNumber s) s).

Lemma handleIncomingBleData_invariant E data s :
  I s -> I (stateOf (handleIncomingBleData E data s)).
Proof.
  intro Hs.
  destruct (handleIncomingBleData_counters E data s)
    as (Hseq & Hacked & [[Hin Hack] | [Hin [Hack | Hack]]]).
  - apply (I_counters s); assumption.
  - apply (I_counters (set_prevIncomingSequenceNumber (expectedSequenceNumber s) s));
      try assumption. apply I_received, Hs.
  - apply (I_counters
             (set_prevIncomingAckNumber
                (prevIncomingAckNumber (stateOf (handleIncomingBleData E data s)))
                (set_prevIncomingSequenceNumber (expectedSequenceNumber s) s)));
      try assumption; try reflexivity.
    apply I_acknowledged; [apply I_received, Hs | exact Hack].
Qed.

Lemma segmentRead_invariant s cur : I s -> I (segmentRead s cur).
Proof.
  intro Hs. unfold segmentRead.
  destruct (segmentHasAck s) eqn:Hack.
  - apply (I_counters
             (set_sequenceNumber (nextSequenceNumber (sequenceNumber s))
                (set_prevAckedSequenceNumber (prevIncomingSequenceNumber s) s)));
      try reflexivity.
    apply (I_sent (set_prevAckedSequenceNumber (prevIncomingSequenceNumber s) s)).
    apply I_acknowledges; assumption.
  - apply (I_counters
             (set_sequenceNumber (nextSequenceNumber (sequenceNumber s)) s));
      try reflexivity.
    apply I_sent, Hs.
Qed.

Lemma segmentSent_invariant s cur : I s -> I (segmentSent s cur).
Proof.
  intro Hs. apply (I_counters (segmentRead s cur)).
  - unfold segmentSent. destruct (isRunning (ackReceiveTimer s));
      destruct (segmentIsEnding s cur); reflexivity.
  - unfold segmentSent. destruct (isRunning (ackReceiveTimer s));
      destruct (segmentIsEnding s cur); reflexivity.
  - unfold segmentSent. destruct (isRunning (ackReceiveTimer s));
      destruct (segmentIsEnding s cur); reflexivity.
  - unfold segmentSent. destruct (isRunning (ackReceiveTimer s));
      destruct (segmentIsEnding s cur); reflexivity.
  - apply segmentRead_invariant, Hs.
Qed.

Lemma sendSegment_invariant E cur s : I s -> I (stateOf (sendSegment E cur s)).
Proof.
  intro Hs. rewrite sendSegment_run.
  destruct (encodeBtpPacket E (segmentPacket s cur)) as [e | packet];
    [apply segmentRead_invariant, Hs | ].
  destruct (writeBleCallback E packet);
    [apply segmentRead_invariant, Hs | apply segmentSent_invariant, Hs].
Qed.

Lemma sendMatterMessage_invariant E fuel data s :
  I s -> I (stateOf (sendMatterMessage E fuel data s)).
Proof.
  intro Hs. rewrite sendMatterMessage_run.
  destruct (blength data =? 0); [exact Hs | ].
  apply processSendQueue_invariant.
  - intros cur s0. apply sendSegment_invariant.
  - intros v s0. apply I_counters; reflexivity.
  - revert Hs. apply I_counters; reflexivity.
Qed.

Lemma btpSendAckTimeoutTriggered_invariant E s :
  I s -> I (stateOf (btpSendAckTimeoutTriggered E s)).
Proof.
  intro Hs. rewrite btpSendAckTimeoutTriggered_run.
  destruct (segmentHasAck s) eqn:Hack; [ | exact Hs].
  assert (Hbooked : I (ackBooked s)).
  { unfold ackBooked.
    apply (I_acknowledges
             (set_sequenceNumber (nextSequenceNumber (sequenceNumber s)) s));
      [apply I_sent, Hs | exact Hack]. }
  destruct (encodeBtpPacket E (ackPacket s)) as [e | packet]; [exact Hbooked | ].
  destruct (writeBleCallback E packet); [exact Hbooked | ].
  rewrite stateOf_result. unfold ackSent.
  destruct (isRunning (ackReceiveTimer s)); [exact Hbooked | ].
  revert Hbooked. apply I_counters; reflexivity.
Qed.

Lemma call_invariant E fuel c s : I s -> I (stateOf (call E fuel c s)).
Proof.
  intro Hs. destruct c.
  - apply handleIncomingBleData_invariant, Hs.
  - apply sendMatterMessage_invariant, Hs.
  - cbn [call]. rewrite close_state. revert Hs. apply I_counters; reflexivity.
  - rewrite call_SendAckTimerExpires.
    destruct (isRunning (sendAckTimer s)); [ | exact Hs].
    apply btpSendAckTimeoutTriggered_invariant.
    revert Hs. apply I_counters; reflexivity.
  - rewrite call_AckReceiveTimerExpires.
    destruct (isRunning (ackReceiveTimer s)); [ | exact Hs].
    rewrite btpAckTimeoutTriggered_run.
    match goal with |- context [if ?b then _ else _] => destruct b end;
      revert Hs; apply I_counters; reflexivity.
Qed.

Lemma calls_counters_invariant E fuel cs s s' t :
  I s -> calls E fuel cs s = Some (s', t) -> I s'.
Proof.
  apply (calls_invariant I E fuel). intros c s0. apply call_invariant.
Qed.

End Counters.

Lemma countersInRange_calls E fuel cs s s' t :
  countersInRange s -> calls E fuel cs s = Some (s', t) -> countersInRange s'.
Proof.
  apply (calls_counters_invariant countersInRange); unfold countersInRange.
  - intros s0 s1 -> -> -> ->. exact (fun H => H).
  - intros s0 (H1 & H2 & H3 & H4).
    cbn [sequenceNumber prevIncomingSequenceNumber prevIncomingAckNumber
         prevAckedSequenceNumber set_prevIncomingSequenceNumber].
    pose proof (remainder_range (prevIncomingSequenceNumber s0)).
    unfold expectedSequenceNumber. repeat split; lia.
  - intros s0 a (H1 & H2 & H3 & H4) Ha.
    cbn [sequenceNumber prevIncomingSequenceNumber prevIncomingAckNumber
         prevAckedSequenceNumber set_prevIncomingAckNumber].
    repeat split; lia.
  - intros s0 (H1 & H2 & H3 & H4).
    cbn [sequenceNumber prevIncomingSequenceNumber prevIncomingAckNumber
         prevAckedSequenceNumber set_sequenceNumber].
    pose proof (nextSequenceNumber_range (sequenceNumber s0) H1).
    repeat split; lia.
  - intros s0 (H1 & H2 & H3 & H4) _.
    cbn [sequenceNumber prevIncomingSequenceNumber prevIncomingAckNumber
         prevAckedSequenceNumber set_prevAckedSequenceNumber].
    repeat split; lia.
Qed.

Lemma acknowledgements_grow E fuel cs s s' t :
  calls E fuel cs s = Some (s', t) ->
  prevAckedSequenceNumber s <= prevAckedSequenceNumber s'
  /\ prevIncomingAckNumber s <= prevIncomingAckNumber s'.
Proof.
  apply (calls_counters_invariant
           (fun x => prevAckedSequenceNumber s <= prevAckedSequenceNumber x
                     /\ prevIncomingAckNumber s <= prevIncomingAckNumber x)).
  - intros s0 s1 _ -> _ ->. exact (fun H => H).
  - intros s0 H. exact H.
  - intros s0 a [H1 H2] Ha. cbn. split; lia.
  - intros s0 H. exact H.
  - intros s0 [H1 H2] Hack. unfold segmentHasAck in Hack.
    apply Z.gtb_lt in Hack. cbn. split; lia.
  - split; lia.
Qed.

(** X13.  Whatever calls a session receives (inbound buffers, messages to send,
    [close], timer expiries) and whatever the codec and the transport do:
    the fragment size and the window size stay as the constructor set them;
    the two sequence numbers stay within 0..255 and the two acknowledgement
    counters within -1..255, once they are; and the two acknowledgement
    counters never go back. *)
Theorem session_invariants E fuel cs s s' t :
  calls E fuel cs s = Some (s', t) ->
  fragmentSize s' = fragmentSize s
  /\ clientWindowSize s' = clientWindowSize s
  /\ (countersInRange s -> countersInRange s')
  /\ prevAckedSequenceNumber s <= prevAckedSequenceNumber s'
  /\ prevIncomingAckNumber s <= prevIncomingAckNumber s'.
Proof.
  intro H. split; [ | split; [ | split]].
  - apply (calls_invariant (fun x => fragmentSize x = fragmentSize s) E fuel)
      with (cs := cs) (s := s) (t := t); [ | reflexivity | exact H].
    intros c s0 Hs0. rewrite <- Hs0.
    apply (call_keeps _ fragmentSize E fuel c); reflexivity.
  - apply (calls_invariant (fun x => clientWindowSize x = clientWindowSize s) E fuel)
      with (cs := cs) (s := s) (t := t); [ | reflexivity | exact H].
    intros c s0 Hs0. rewrite <- Hs0.
    apply (call_keeps _ clientWindowSize E fuel c); reflexivity.
  - intro Hs. exact (countersInRange_calls E fuel cs s s' t Hs H).
  - exact (acknowledgements_grow E fuel cs s s' t H).
Qed.

Lemma session_invariants_witness :
  let cs := [SendMatterMessage [x01; x02; x03];
             HandleIncomingBleData [x0d; x01; x00; x01; x00; xaa];
             SendAckTimerExpires; AckReceiveTimerExpires; Close] in
  countersInRange session0
  /\ match calls testEnv 8 cs session0 with
     | Some (s', _) =>
         isActive s' = false
         /\ fragmentSize s' = fragmentSize session0
         /\ clientWindowSize s' = clientWindowSize session0
         /\ (countersInRange session0 -> countersInRange s')
         /\ prevAckedSequenceNumber session0 <= prevAckedSequenceNumber s'
         /\ prevIncomingAckNumber session0 <= prevIncomingAckNumber s'
     | None => False
     end.
Proof.
  intro cs. split; [vm_compute; intuition discriminate | ].
  destruct (calls testEnv 8 cs session0) as [[s' t] | ] eqn:H.
  - split; [vm_compute in H; injection H as <- _; reflexivity | ].
    exact (session_invariants testEnv 8 cs session0 s' t H).
  - vm_compute in H. discriminate.
Defined.

(** ** No acknowledgement after 255 *)

Lemma acknowledgedAll_hasAck s : acknowledgedAll s -> segmentHasAck s = false.
Proof.
  intros [H1 H2]. unfold segmentHasAck. rewrite H1, Z.gtb_ltb. apply Z.ltb_ge. exact H2.
Qed.

Lemma acknowledgedAll_calls E fuel cs s s' t :
  acknowledgedAll s -> calls E fuel cs s = Some (s', t) -> acknowledgedAll s'.
Proof.
  apply (calls_counters_invariant acknowledgedAll); unfold acknowledgedAll.
  - intros s0 s1 _ -> -> _. exact (fun H => H).
  - intros s0 [H1 H2]. split; [exact H1 | ]. apply remainder_le_255.
  - intros s0 a H _. exact H.
  - intros s0 H. exact H.
  - intros s0 H Hack. rewrite (acknowledgedAll_hasAck s0 H) in Hack. discriminate.
Qed.

(** X14.  The session tells whether it owes an acknowledgement by comparing the
    last sequence number received with the last one acknowledged, as plain
    numbers.  Once it has acknowledged 255, as a session does whose first
    frame goes out before it has received one, it owes nothing any more,
    whatever it receives: over any calls the last acknowledged number stays
    255, no packet that [processSendQueue] encodes and writes carries an
    acknowledgement, and the expiry of the send-ack timer writes nothing. *)
Theorem no_acknowledgement_after_255 E fuel cs s s' t :
  acknowledgedAll s ->
  calls E fuel cs s = Some (s', t) ->
  acknowledgedAll s'
  /\ (forall fuel',
        Forall2 (fun packet p => encodeBtpPacket E p = inr packet)
          (written (traceOf (processSendQueue E fuel' s')))
          (processSendQueuePackets E fuel' s')
        /\ Forall (fun p => BtpHeader.hasAckNumber (header p) = false)
             (processSendQueuePackets E fuel' s'))
  /\ btpSendAckTimeoutTriggered E s' = (Normal tt, s', []).
Proof.
  intros Hs H. pose proof (acknowledgedAll_calls E fuel cs s s' t Hs H) as Hs'.
  split; [exact Hs' | split].
  - intro fuel'.
    split; [exact (proj1 (processSendQueue_segments E fuel' s')) | ].
    unfold processSendQueuePackets.
    destruct (sendInProgress s'); [constructor | ].
    destruct (windowFull s'); [constructor | ].
    apply (sendLoopPackets_Forall E acknowledgedAll).
    + intros s0 cur rest Hs0 _. split.
      * exact (acknowledgedAll_hasAck s0 Hs0).
      * revert Hs0. apply (segmentSent_invariant acknowledgedAll);
          unfold acknowledgedAll.
        -- intros s1 s2 _ -> -> _. exact (fun H0 => H0).
        -- intros s1 H0. exact H0.
        -- intros s1 H0 Hack.
           rewrite (acknowledgedAll_hasAck s1 H0) in Hack. discriminate.
    + exact Hs'.
  - rewrite btpSendAckTimeoutTriggered_run, (acknowledgedAll_hasAck s' Hs').
    reflexivity.
Qed.

Lemma no_acknowledgement_after_255_witness :
  let s := stateOf (sendMatterMessage testEnv 8 [x01; x02; x03] session0) in
  let cs := [HandleIncomingBleData [x05; x00; x01; x00; xaa];
             HandleIncomingBleData [x05; x01; x01; x00; xbb];
             SendAckTimerExpires;
             SendMatterMessage [x04; x05]] in
  written (traceOf (sendMatterMessage testEnv 8 [x01; x02; x03] session0))
  = [[x0d; xff; x01; x03; x00; x01; x02; x03]]
  /\ acknowledgedAll s
  /\ match calls testEnv 8 cs s with
     | Some (s', t) =>
         delivered t = [[xaa]; [xbb]]
         /\ written t = [[x05; x02; x02; x00; x04; x05]]
         /\ prevIncomingSequenceNumber s' = 1
         /\ acknowledgedAll s'
         /\ (forall fuel',
               Forall2 (fun packet p => encodeBtpPacket testEnv p = inr packet)
                 (written (traceOf (processSendQueue testEnv fuel' s')))
                 (processSendQueuePackets testEnv fuel' s')
               /\ Forall (fun p => BtpHeader.hasAckNumber (header p) = false)
                    (processSendQueuePackets testEnv fuel' s'))
         /\ btpSendAckTimeoutTriggered testEnv s' = (Normal tt, s', [])
     | None => False
     end.
Proof.
  intros s cs.
  assert (Hs : acknowledgedAll s) by (vm_compute; split; [reflexivity | discriminate]).
  split; [reflexivity | ]. split; [exact Hs | ].
  destruct (calls testEnv 8 cs s) as [[s' t] | ] eqn:H.
  - split; [vm_compute in H; injection H as _ <-; reflexivity | ].
    split; [vm_compute in H; injection H as _ <-; reflexivity | ].
    split; [vm_compute in H; injection H as <- _; reflexivity | ].
    exact (no_acknowledgement_after_255 testEnv 8 cs s s' t Hs H).
  - vm_compute in H. discriminate.
Defined.

(** ** The ack-receive timer *)

(** X15.  When the ack-receive timer expires and the last sequence number sent has
    been acknowledged, nothing happens.  Otherwise the session is closed as
    by [close] and a [BtpProtocolError] is raised to the timer;
    [disconnectBleCallback] is called if the session was active; the
    counters are left as they are, so that a later expiry raises the error
    again, without a second disconnect.  A session as the constructor builds
    it, with the timer started and nothing acknowledged, is closed by the
    first expiry. *)
Theorem btpAckTimeoutTriggered_closes s :
  (prevIncomingAckNumber s = sequenceNumber s ->
   btpAckTimeoutTriggered s = (Normal tt, s, []))
  /\ (prevIncomingAckNumber s <> sequenceNumber s ->
      btpAckTimeoutTriggered s
      = (Throw (BtpProtocolError AckTimeout), closed s,
         [TimerStop AckReceiveTimer; TimerStop SendAckTimer]
         ++ (if isActive s then [DisconnectBle] else []))
      /\ btpAckTimeoutTriggered (closed s)
         = (Throw (BtpProtocolError AckTimeout), closed s,
            [TimerStop AckReceiveTimer; TimerStop SendAckTimer]))
  /\ (forall E fuel fragmentSize clientWindowSize,
        call E fuel AckReceiveTimerExpires (freshSession fragmentSize clientWindowSize)
        = (Throw (BtpProtocolError AckTimeout),
           closed (freshSession fragmentSize clientWindowSize),
           [TimerStop AckReceiveTimer; TimerStop SendAckTimer; DisconnectBle])).
Proof.
  split; [ | split].
  - intro H. rewrite btpAckTimeoutTriggered_run.
    apply Z.eqb_eq in H. rewrite H. reflexivity.
  - intro H. rewrite !btpAckTimeoutTriggered_run, !close_trace.
    change (prevIncomingAckNumber (closed s)) with (prevIncomingAckNumber s).
    change (sequenceNumber (closed s)) with (sequenceNumber s).
    apply Z.eqb_neq in H. rewrite H. split; reflexivity.
  - intros E fuel f w. reflexivity.
Qed.

Lemma btpAckTimeoutTriggered_closes_witness :
  prevIncomingAckNumber session0 <> sequenceNumber session0
  /\ btpAckTimeoutTriggered session0
     = (Throw (BtpProtocolError AckTimeout), closed session0,
        [TimerStop AckReceiveTimer; TimerStop SendAckTimer; DisconnectBle])
  /\ btpAckTimeoutTriggered (closed session0)
     = (Throw (BtpProtocolError AckTimeout), closed session0,
        [TimerStop AckReceiveTimer; TimerStop SendAckTimer])
  /\ btpAckTimeoutTriggered (set_prevIncomingAckNumber 0 session0)
     = (Normal tt, set_prevIncomingAckNumber 0 session0, []).
Proof.
  assert (H : prevIncomingAckNumber session0 <> sequenceNumber session0)
    by discriminate.
  split; [exact H | ].
  destruct (btpAckTimeoutTriggered_closes session0) as (_ & Hclose & _).
  destruct (btpAckTimeoutTriggered_closes (set_prevIncomingAckNumber 0 session0))
    as (Hquiet & _).
  split; [exact (proj1 (Hclose H)) | ].
  split; [exact (proj2 (Hclose H)) | exact (Hquiet eq_refl)].
Defined.
